(** * cf-elements: attribute resolution, style cascade and rendering order

    A shallow embedding of the resolution engine of [cf-elements.js]:
    the preset tables and [resolve], [buildStyle], the styleguide manager
    (colour lookup, typescale, catalog references), the per-tag style
    assemblers, the paint cascade [applyFontDataAttributes] and the
    scheduler [initFunnelWind].

    Conventions.
    - A JavaScript string is a [string]; [null] is [None] of [option string].
    - An object literal used as a lookup table is a [gmap string string] of
      its own properties; members inherited from [Object.prototype] are not
      part of the model.
    - A style object is an association list in insertion order, which is the
      order [Object.entries] enumerates non-numeric keys in.
    - Numbers are exact rationals; [Math.round x] is [floor (x + 1/2)]. *)

From Stdlib Require Import String Ascii ZArith QArith Qround Qabs Qpower Lia.
From stdpp Require Import base decidable option list strings gmap pretty.

Close Scope Q_scope.
Open Scope string_scope.
Open Scope list_scope.

(** Left-to-right application, for sequences of updates. *)
Notation "x |> f" := (f x) (at level 71, left associativity, only parsing).

(** ** Google Fonts *)

Module GoogleFonts.

(** [font.replace(/ /g, '+')]. *)
Fixpoint plus_spaces (s : string) : string :=
  match s with
  | String c s' =>
      String (if decide (c = " "%char) then "+"%char else c) (plus_spaces s')
  | "" => ""
  end.

(** [Array.prototype.join]. *)
Fixpoint join (sep : string) (l : list string) : string :=
  match l with
  | [] => ""
  | [x] => x
  | x :: l' => x +:+ sep +:+ join sep l'
  end.

(** [p] is a prefix of [s]. *)
Fixpoint starts (p s : string) : bool :=
  match p, s with
  | "", _ => true
  | String a p', String b s' => bool_decide (a = b) && starts p' s'
  | String _ _, "" => false
  end.

(** [v] occurs in [s]. *)
Fixpoint contains (v s : string) : bool :=
  starts v s
  || match s with
     | String _ s' => contains v s'
     | "" => false
     end.

(** The attribute selectors [[href^=v]] and [[href*=v]] on the value of
    [href]; with an empty [v] they match nothing. *)
Definition href_starts (v href : string) : bool :=
  negb (String.eqb v "") && starts v href.

Definition href_contains (v href : string) : bool :=
  negb (String.eqb v "") && contains v href.

(** What [injectGoogleFonts] reads and writes: the set [loadedFonts], as
    the list of its members in insertion order, and the [href] of every
    [link] element of the document. *)
Record FontState := {
  loadedFonts : list string;
  links : list string
}.

(** [Set.prototype.add]. *)
Definition set_add (s : list string) (x : string) : list string :=
  if decide (x ∈ s) then s else s ++ [x].

(** The [url] of the stylesheet for the fonts [newFonts]. *)
Definition font_url (newFonts : list string) : string :=
  "https://fonts.googleapis.com/css2?family="
  +:+ join "&family=" (plus_spaces <$> newFonts)
  +:+ ":wght@300;400;500;600;700;800;900&display=swap".

(** [Array.from(fonts).filter(f => !loadedFonts.has(f))]. *)
Definition new_fonts (fonts : list string) (st : FontState) : list string :=
  filter (λ f, f ∉ loadedFonts st) fonts.

(** [function injectGoogleFonts(fonts)], for a set [fonts] given as the
    list of its members in insertion order. The first new font is written
    into a quoted selector value: font names are assumed free of double
    quotes, backslashes and line breaks. *)
Definition injectGoogleFonts (fonts : list string) (st : FontState)
  : FontState :=
  if decide (fonts = []) then st
  else
    match new_fonts fonts st with
    | [] => st
    | first :: rest =>
        let loaded := foldl set_add (loadedFonts st) (first :: rest) in
        if existsb (λ href, href_starts "https://fonts.googleapis.com" href
                            && href_contains (plus_spaces first) href)
             (links st)
        then {| loadedFonts := loaded; links := links st |}
        else {| loadedFonts := loaded;
                links := links st ++ [font_url (first :: rest)] |}
    end.

End GoogleFonts.

(** ** Preset tables (CONSTANTS & MAPPINGS) *)

Module Presets.

Definition SHADOWS : gmap string string := list_to_map
  [ ("none", "none");
    ("sm", "0 1px 2px rgba(0,0,0,0.05)");
    ("default", "0 1px 3px rgba(0,0,0,0.1)");
    ("md", "0 4px 6px rgba(0,0,0,0.1)");
    ("lg", "0 10px 15px rgba(0,0,0,0.1)");
    ("xl", "0 20px 25px rgba(0,0,0,0.1)");
    ("2xl", "0 25px 50px rgba(0,0,0,0.25)") ].

Definition RADIUS : gmap string string := list_to_map
  [ ("none", "0"); ("sm", "4px"); ("default", "8px"); ("md", "12px");
    ("lg", "16px"); ("xl", "20px"); ("2xl", "24px"); ("3xl", "32px");
    ("full", "9999px") ].

Definition LINE_HEIGHTS : gmap string string := list_to_map
  [ ("none", "100%"); ("tight", "110%"); ("snug", "120%");
    ("normal", "140%"); ("relaxed", "160%"); ("loose", "180%") ].

Definition FONT_WEIGHTS : gmap string string := list_to_map
  [ ("thin", "100"); ("extralight", "200"); ("light", "300");
    ("normal", "400"); ("medium", "500"); ("semibold", "600");
    ("bold", "700"); ("extrabold", "800"); ("black", "900") ].

Definition FONT_SIZES : gmap string string := list_to_map
  [ ("xs", "12px"); ("s", "14px"); ("sm", "14px"); ("m", "16px");
    ("md", "16px"); ("l", "20px"); ("lg", "20px"); ("xl", "24px");
    ("2xl", "32px"); ("3xl", "40px"); ("4xl", "48px"); ("5xl", "64px") ].

Definition ROW_WIDTHS : gmap string string := list_to_map
  [ ("narrow", "800px"); ("medium", "960px"); ("wide", "1170px");
    ("extra", "1400px") ].

Definition CONTAINER_WIDTHS : gmap string string := list_to_map
  [ ("small", "550px"); ("mid", "720px"); ("midWide", "960px");
    ("wide", "1170px"); ("full", "100%") ].

Definition BORDER_WIDTHS : gmap string string := list_to_map
  [ ("0", "0"); ("1", "1px"); ("2", "2px"); ("3", "3px"); ("4", "4px");
    ("6", "6px"); ("8", "8px") ].

Definition BG_STYLE_CLASSES : gmap string string := list_to_map
  [ ("cover", "bgCover"); ("cover-center", "bgCoverCenter");
    ("parallax", "bgCoverV2"); ("w100", "bgW100");
    ("w100h100", "bgW100H100"); ("no-repeat", "bgNoRepeat");
    ("repeat", "bgRepeat"); ("repeat-x", "bgRepeatX");
    ("repeat-y", "bgRepeatY") ].



End Presets.

(** ** Utility functions *)

Module Util.

(** JavaScript truthiness of a string-or-null value: [null] and the empty
    string are falsy, every other string is truthy. *)
Definition truthy (v : option string) : bool :=
  match v with
  | Some s => negb (String.eqb s "")
  | None => false
  end.

(** [a || b] on string-or-null operands. *)
Definition js_or (a b : option string) : option string :=
  if truthy a then a else b.

(** [function resolve(value, presets)]:
    [if (!value) return null; return presets[value] || value;] *)
Definition resolve (value : option string) (presets : gmap string string)
  : option string :=
  if truthy value then
    match value with
    | Some k => js_or (presets !! k) (Some k)
    | None => None
    end
  else None.


(** Values stored in a style object. *)
Inductive jsval :=
  | JNull
  | JUndefined
  | JStr (s : string).

#[global] Instance jsval_eq_dec : EqDecision jsval.
Proof. solve_decision. Defined.

Definition of_opt (v : option string) : jsval :=
  match v with
  | Some s => JStr s
  | None => JNull
  end.

(** String conversion inside a template literal. *)
Definition to_str (v : jsval) : string :=
  match v with
  | JNull => "null"
  | JUndefined => "undefined"
  | JStr s => s
  end.

(** [styles[k] = v]: overwrite in place when the key exists, append
    otherwise. *)
Fixpoint set_prop (k : string) (v : jsval) (o : list (string * jsval))
  : list (string * jsval) :=
  match o with
  | [] => [(k, v)]
  | (k', v') :: o' =>
      if decide (k = k') then (k, v) :: o' else (k', v') :: set_prop k v o'
  end.

(** [if (c) styles[k] = v]. *)
Definition set_if (c : bool) (k : string) (v : jsval)
  (o : list (string * jsval)) : list (string * jsval) :=
  if c then set_prop k v o else o.

(** The filter predicate of [buildStyle]:
    [v !== null && v !== undefined && v !== ""]. *)
Definition kept (kv : string * jsval) : Prop :=
  kv.2 ≠ JNull ∧ kv.2 ≠ JUndefined ∧ kv.2 ≠ JStr "".

#[global] Instance kept_dec kv : Decision (kept kv).
Proof. unfold kept. apply _. Defined.

Definition declaration (kv : string * jsval) : string :=
  kv.1 +:+ ": " +:+ to_str kv.2.

(** [function buildStyle(styleObj)]. *)
Definition buildStyle (styleObj : list (string * jsval)) : string :=
  String.concat "; " (declaration <$> filter kept styleObj).

End Util.

(** ** Numbers *)

Module Numbers.

(** [Math.round]: the nearest integer, halves rounded towards plus
    infinity. *)
Definition Math_round (x : Q) : Z := Qfloor (x + (1 # 2))%Q.

(** [Math.pow(r, k)] for the positive integer exponents the program uses. *)
Definition Math_pow (r : Q) (k : positive) : Q := Qpower r (Z.pos k).

(** Digits after the decimal point by long division: [r] is the current
    remainder, [d] the denominator. *)
Fixpoint frac_digits (fuel : nat) (r d : Z) : string :=
  match fuel with
  | O => ""
  | S fuel' =>
      if (r =? 0)%Z then ""
      else pretty (r * 10 / d)%Z +:+ frac_digits fuel' ((r * 10) mod d)%Z d
  end.

(** Number-to-string conversion of a template literal, for values whose
    decimal expansion is short and finite (integers print without a
    fractional part); exponent notation is outside the model. *)
Definition number_to_string (q : Q) : string :=
  let n := Qnum q in
  let d := Z.pos (Qden q) in
  let a := Z.abs n in
  (if (n <? 0)%Z then "-" else "")
  +:+ pretty (a / d)%Z
  +:+ (if (a mod d =? 0)%Z then "" else "." +:+ frac_digits 20 (a mod d)%Z d).

(** The result of [parseFloat]. *)
Inductive jsnum :=
  | NaN
  | Infinity (negative : bool)
  | Num (q : Q).

Definition digit_of (c : ascii) : option Z :=
  let n := nat_of_ascii c in
  if decide (48 ≤ n ≤ 57)%nat then Some (Z.of_nat n - 48)%Z else None.

Definition is_space (c : ascii) : bool :=
  let n := nat_of_ascii c in
  bool_decide (n = 32 ∨ 9 ≤ n ≤ 13)%nat.

Fixpoint skip_spaces (s : list ascii) : list ascii :=
  match s with
  | c :: s' => if is_space c then skip_spaces s' else s
  | [] => []
  end.

(** Reads a run of decimal digits: the value read, the number of digits and
    the rest of the input. *)
Fixpoint take_digits (s : list ascii) (acc : Z) (count : nat)
  : Z * nat * list ascii :=
  match s with
  | c :: s' =>
      match digit_of c with
      | Some d => take_digits s' (acc * 10 + d)%Z (S count)
      | None => (acc, count, s)
      end
  | [] => (acc, count, [])
  end.

Definition take_sign (s : list ascii) : bool * list ascii :=
  match s with
  | "-"%char :: s' => (true, s')
  | "+"%char :: s' => (false, s')
  | _ => (false, s)
  end.

Definition starts_with (p : string) (s : list ascii) : bool :=
  bool_decide (take (String.length p) s = list_ascii_of_string p).

(** [parseFloat]: the longest prefix that is a decimal literal. *)
Definition parseFloat (str : string) : jsnum :=
  let '(neg, s) := take_sign (skip_spaces (list_ascii_of_string str)) in
  if starts_with "Infinity" s then Infinity neg
  else
    let '(ip, ni, s1) := take_digits s 0 0 in
    let '(fp, nf, s2) :=
      match s1 with
      | "."%char :: s' => take_digits s' 0 0
      | _ => (0%Z, 0%nat, s1)
      end in
    if decide (ni + nf = 0)%nat then NaN
    else
      let e :=
        match s2 with
        | c :: s' =>
            if bool_decide (c = "e"%char ∨ c = "E"%char) then
              let '(eneg, s'') := take_sign s' in
              let '(ev, ne, _) := take_digits s'' 0 0 in
              if decide (ne = 0)%nat then 0%Z
              else if eneg then (- ev)%Z else ev
            else 0%Z
        | [] => 0%Z
        end in
      let mant := (inject_Z ip + inject_Z fp / Qpower 10 (Z.of_nat nf))%Q in
      let v := (mant * Qpower 10 e)%Q in
      Num (Qred (if neg then - v else v)%Q).

(** [parseInt(str, 10)]: the longest prefix that is a signed run of
    digits; [None] is [NaN]. *)
Definition parseInt (str : string) : option Z :=
  let '(neg, s) := take_sign (skip_spaces (list_ascii_of_string str)) in
  let '(v, n, _) := take_digits s 0 0 in
  if decide (n = 0)%nat then None
  else Some (if neg then (- v)%Z else v).

Fixpoint pad_left (fuel width : nat) (s : string) : string :=
  match fuel with
  | O => s
  | S fuel' => if decide (String.length s < width)%nat
               then pad_left fuel' width ("0" +:+ s) else s
  end.

(** [x.toFixed(6)] on a rational. *)
Definition toFixed6 (q : Q) : string :=
  let n := Math_round (Qabs q * 1000000)%Q in
  (if Qlt_le_dec q 0 then (if (n =? 0)%Z then "" else "-") else "")
  +:+ pretty (n / 1000000)%Z +:+ "."
  +:+ pad_left 6 6 (pretty (n mod 1000000)%Z).

(** [x / 16 + "em"]. *)
Definition div16_em (x : jsnum) : string :=
  match x with
  | NaN => "NaN"
  | Infinity neg => if neg then "-Infinity" else "Infinity"
  | Num q => number_to_string (Qred (q / 16)%Q)
  end +:+ "em".

End Numbers.

(** ** Styleguide manager *)

Module Styleguide.
Import Numbers.

Record Color := { color_id : string; hex : string }.

Record PaintTheme := {
  theme_id : string;
  backgroundColorId : string;
  headlineColorId : string;
  subheadlineColorId : string;
  contentColorId : string;
  iconColorId : string;
  linkColorId : option string
}.

Record Typography := {
  baseSize : option Q;
  scaleRatio : option Q;
  headlineFont : option string;
  subheadlineFont : option string;
  contentFont : option string
}.

(** The styleguide document. A catalog is kept as the list of its ids: the
    other parameters of an entry are read by the stylesheet generator only. *)
Record StyleguideData := {
  colors : option (list Color);
  paintThemes : option (list PaintTheme);
  typography : option Typography;
  shadows : option (list string);
  borders : option (list string);
  corners : option (list string);
  buttons : option (list string)
}.

(** [getColorHex(colorId)]. *)
Definition getColorHex (data : option StyleguideData) (colorId : string)
  : string :=
  match data with
  | Some d =>
      match colors d with
      | Some cs =>
          match find (λ c, bool_decide (color_id c = colorId)) cs with
          | Some c => hex c
          | None => "#000000"
          end
      | None => "#000000"
      end
  | None => "#000000"
  end.

(** The [scale] object of [getTypescale]. *)
Record Scale := {
  n3 : Z; n2 : Z; n1 : Z;
  base : Q;
  p1 : Z; p2 : Z; p3 : Z; p4 : Z; p5 : Z; p6 : Z; p7 : Z; p8 : Z
}.

Definition scale_of (b r : Q) : Scale := {|
  n3 := Math_round (b / Math_pow r 3);
  n2 := Math_round (b / Math_pow r 2);
  n1 := Math_round (b / r);
  base := b;
  p1 := Math_round (b * r);
  p2 := Math_round (b * Math_pow r 2);
  p3 := Math_round (b * Math_pow r 3);
  p4 := Math_round (b * Math_pow r 4);
  p5 := Math_round (b * Math_pow r 5);
  p6 := Math_round (b * Math_pow r 6);
  p7 := Math_round (b * Math_pow r 7);
  p8 := Math_round (b * Math_pow r 8)
|}.

Definition px (z : Z) : string := pretty z +:+ "px".
Definition pxq (q : Q) : string := number_to_string q +:+ "px".

Record Typescale := {
  headline : gmap string string;
  subheadline : gmap string string;
  paragraph : gmap string string
}.

Definition typescale_of (s : Scale) : Typescale := {|
  headline := list_to_map
    [ ("5xl", px (p8 s)); ("4xl", px (p7 s)); ("3xl", px (p6 s));
      ("2xl", px (p5 s)); ("xl", px (p4 s)); ("l", px (p3 s));
      ("lg", px (p3 s)); ("m", px (p2 s)); ("md", px (p2 s));
      ("s", px (p1 s)); ("sm", px (p1 s)); ("xs", pxq (base s)) ];
  subheadline := list_to_map
    [ ("5xl", px (p7 s)); ("4xl", px (p6 s)); ("3xl", px (p5 s));
      ("2xl", px (p4 s)); ("xl", px (p3 s)); ("l", px (p2 s));
      ("lg", px (p2 s)); ("m", px (p1 s)); ("md", px (p1 s));
      ("s", pxq (base s)); ("sm", pxq (base s)); ("xs", px (n1 s)) ];
  paragraph := list_to_map
    [ ("5xl", px (p6 s)); ("4xl", px (p5 s)); ("3xl", px (p4 s));
      ("2xl", px (p3 s)); ("xl", px (p2 s)); ("l", px (p1 s));
      ("lg", px (p1 s)); ("m", pxq (base s)); ("md", pxq (base s));
      ("s", px (n1 s)); ("sm", px (n1 s)); ("xs", px (n2 s)) ]
|}.

(** [getTypescale()]: [null] without typography; [baseSize] and
    [scaleRatio] default to 16 and 1.25. *)
Definition getTypescale (data : option StyleguideData) : option Typescale :=
  match data with
  | Some d =>
      match typography d with
      | Some t =>
          let b := default (16 # 1)%Q (baseSize t) in
          let r := default (5 # 4)%Q (scaleRatio t) in
          Some (typescale_of (scale_of b r))
      | None => None
      end
  | None => None
  end.

Inductive ElementType := Headline | Subheadline | Paragraph.

Definition elementScale (ts : Typescale) (e : ElementType)
  : gmap string string :=
  match e with
  | Headline => headline ts
  | Subheadline => subheadline ts
  | Paragraph => paragraph ts
  end.

(** [resolveSize(size, elementType)]. *)
Definition resolveSize (data : option StyleguideData) (size : string)
  (elementType : ElementType) : option string :=
  match getTypescale data with
  | Some typescale =>
      let v := elementScale typescale elementType !! size in
      if Util.truthy v then v else None
  | None => None
  end.

Inductive RefType := RPaint | RShadow | RBorder | RCorner | RButton.

Definition has_id (ids : option (list string)) (value : string) : bool :=
  match ids with
  | Some l => bool_decide (value ∈ l)
  | None => false
  end.

(** [isStyleguideRef(value, type)]. *)
Definition isStyleguideRef (data : option StyleguideData)
  (value : option string) (type : RefType) : bool :=
  match data with
  | Some d =>
      if Util.truthy value then
        match value with
        | Some v =>
            match type with
            | RPaint => has_id (fmap (M:=list) theme_id <$> paintThemes d) v
            | RShadow => has_id (shadows d) v
            | RBorder => has_id (borders d) v
            | RCorner => has_id (corners d) v
            | RButton => has_id (buttons d) v
            end
        | None => false
        end
      else false
  | None => false
  end.

End Styleguide.

(** ** Brand assets manager *)

Module BrandAssets.

(** [hasAsset(assetType)]. *)
Definition hasAsset (data : option (gmap string (list string)))
  (assetType : string) : bool :=
  match data with
  | Some d =>
      match d !! assetType with
      | Some (_ :: _) => true
      | _ => false
      end
  | None => false
  end.

(** [getAssetUrl(assetType)]: the first URL of the list, or [null]. *)
Definition getAssetUrl (data : option (gmap string (list string)))
  (assetType : string) : option string :=
  match data with
  | Some d =>
      match d !! assetType with
      | Some (u :: _) => Some u
      | _ => None
      end
  | None => None
  end.

(** [getAssetUrls(assetType)]: the list of the type, or the empty list. *)
Definition getAssetUrls (data : option (gmap string (list string)))
  (assetType : string) : list string :=
  match data with
  | Some d =>
      match d !! assetType with
      | Some l => l
      | None => []
      end
  | None => []
  end.

End BrandAssets.

(** ** Style assemblers: the [render] method of each tag

    A renderer is modelled by what it resolves: the attribute list it writes
    on the output element (in the order the source appends them; a value is
    assumed free of double quotes) and the style objects it hands to
    [buildStyle]. The surrounding markup template is not modelled. *)

Module Assembler.
Import Util Presets Numbers Styleguide.



(** [dataAttrs] is the attribute list of the output element that carries
    [data-type]; [innerAttrs] that of the inner element a column renders
    (empty for every other tag); [styleObjs] are the style objects passed to
    [buildStyle], the first one for the element that carries [data-type];
    [literalStyles] are the declarations a template writes out literally,
    one list per style attribute. *)
Record Resolved := {
  dataAttrs : list (string * string);
  innerAttrs : list (string * string);
  styleObjs : list (string * list (string * jsval));
  literalStyles : list (list (string * string))
}.

(** The style object named [part] of a resolved element. *)
Definition styles_of (r : Resolved) (part : string)
  : list (string * jsval) :=
  default [] (snd <$> find (λ p, bool_decide (p.1 = part)) (styleObjs r)).

(** A property is declared inline when some style object of the element
    emits a declaration for it. *)
Definition declares (r : Resolved) (prop : string) : Prop :=
  ∃ part o, (part, o) ∈ styleObjs r ∧
    ∃ v, (prop, v) ∈ filter kept o.

(** The value of an attribute in an attribute list; as in HTML, the first
    occurrence of a name is the one that counts. *)
Definition attr_of (l : list (string * string)) (name : string)
  : option string :=
  snd <$> find (λ p, bool_decide (p.1 = name)) l.

(** The value of a data-attribute on the output: on the element that
    carries [data-type], or else on its inner element. *)
Definition data_of (r : Resolved) (name : string) : option string :=
  attr_of (dataAttrs r ++ innerAttrs r) name.

(** [function attr(el, name, fallback = null)]. *)
Definition attr (el : gmap string string) (name : string)
  (fallback : option string) : option string :=
  match el !! name with
  | Some val => Some val
  | None => fallback
  end.

Definition hasAttribute (el : gmap string string) (name : string) : bool :=
  bool_decide (is_Some (el !! name)).

(** A string-or-null value inside a template literal. *)
Definition tpl (v : option string) : string := to_str (of_opt v).

(** [if (c) dataAttrs += ` name="value"`]. *)
Definition add_if (c : bool) (name : string) (value : string)
  (l : list (string * string)) : list (string * string) :=
  if c then l ++ [(name, value)] else l.

Definition add (name : string) (value : string)
  (l : list (string * string)) : list (string * string) :=
  l ++ [(name, value)].

(** [v !== "lit"] for a string-or-null [v]. *)
Definition differs (v : option string) (lit : string) : bool :=
  bool_decide (v ≠ Some lit).

Definition is_lit (v : option string) (lit : string) : bool :=
  bool_decide (v = Some lit).

Definition ends_with (suffix s : string) : bool :=
  let l := list_ascii_of_string s in
  bool_decide
    (drop (length l - String.length suffix) l = list_ascii_of_string suffix).

Definition starts_with (p : string) (s : option string) : bool :=
  match s with
  | Some s => String.prefix p s
  | None => false
  end.

(** [function getBgStyleClass(bgStyle)]. *)
Definition getBgStyleClass (bgStyle : option string) : option string :=
  if truthy bgStyle then
    match bgStyle with
    | Some k => js_or (BG_STYLE_CLASSES !! k) bgStyle
    | None => None
    end
  else Some "bgCoverCenter".

(** [function buildAnimationAttrs(el)]. *)
Definition buildAnimationAttrs (el : gmap string string)
  : list (string * string) :=
  let animation := attr el "animation" None in
  if truthy animation then
    let time := attr el "animation-time" (Some "1000") in
    let delay := attr el "animation-delay" (Some "0") in
    let trigger := attr el "animation-trigger" (Some "load") in
    let timing := attr el "animation-timing" (Some "ease") in
    let direction := attr el "animation-direction" (Some "normal") in
    let once := attr el "animation-once" (Some "true") in
    let loop := attr el "animation-loop" (Some "false") in
    [ ("data-skip-animation-settings", "false");
      ("data-animation-type", tpl animation);
      ("data-animation-time", tpl time);
      ("data-animation-delay", tpl delay);
      ("data-animation-trigger", tpl trigger);
      ("data-animation-timing-function", tpl timing);
      ("data-animation-direction", tpl direction);
      ("data-animation-once", if is_lit once "true" then "true" else "false");
      ("data-animation-loop", if is_lit loop "true" then "true" else "false") ]
  else [].

(** The literal styles of the overlay layer and of the wrapper it puts
    around the content. *)
Definition overlay_literals (overlay : option string) (rounded : bool)
  (wrapper : list (string * string)) : list (list (string * string)) :=
  if truthy overlay then
    [ [ ("position", "absolute"); ("inset", "0");
        ("background", tpl overlay); ("pointer-events", "none");
        ("z-index", "1") ]
      ++ (if rounded then [("border-radius", "inherit")] else []);
      [ ("position", "relative"); ("z-index", "2") ] ++ wrapper ]
  else [].

(** The literal style of the icon next to a heading text. *)
Definition icon_literals (el : gmap string string)
  : list (list (string * string)) :=
  let icon := attr el "icon" None in
  let iconAlign := attr el "icon-align" (Some "left") in
  if truthy icon then
    [ [ (if is_lit iconAlign "left" then "margin-right" else "margin-left",
         "8px") ] ]
  else [].

Section Renderers.

(** The state the renderers read: the styleguide and the brand assets. The
    YouTube id extraction (a regular expression match on the URL) is kept
    abstract. *)
Variable sg : option StyleguideData.
Variable brand : option (gmap string (list string)).
Variable extractYouTubeVideoId : option string → option string.

(** [if (brandAsset && hasAsset(brandAsset)) { url = getAssetUrl(..);
    if (url) image = url }]. *)
Definition brand_swap (brandAsset image : option string) : option string :=
  match brandAsset with
  | Some a =>
      if truthy brandAsset && BrandAssets.hasAsset brand a then
        let url := BrandAssets.getAssetUrl brand a in
        if truthy url then url else image
      else image
  | None => image
  end.

(** [if (!paint) { if (gradient) background = gradient;
    else if (bg) background-color = bg }]. *)
Definition apply_background (paint gradient bg : option string)
  (o : list (string * jsval)) : list (string * jsval) :=
  if truthy paint then o
  else if truthy gradient then set_prop "background" (of_opt gradient) o
  else set_if (truthy bg) "background-color" (of_opt bg) o.

(** [if (shadow && !isShadowStyleguide)
      box-shadow = resolve(shadow, SHADOWS) || shadow]. *)
Definition apply_shadow (shadow : option string) (isShadowStyleguide : bool)
  (o : list (string * jsval)) : list (string * jsval) :=
  set_if (truthy shadow && negb isShadowStyleguide) "box-shadow"
    (of_opt (js_or (resolve shadow SHADOWS) shadow)) o.

(** [if (corner && isCornerStyleguide) {} else if (rounded)
      border-radius = resolve(rounded, RADIUS) || rounded]. *)
Definition apply_corner (corner rounded : option string)
  (isCornerStyleguide : bool) (o : list (string * jsval))
  : list (string * jsval) :=
  if truthy corner && isCornerStyleguide then o
  else set_if (truthy rounded) "border-radius"
         (of_opt (js_or (resolve rounded RADIUS) rounded)) o.

(** [if (!isCornerStyleguide && (rounded || corner))
      border-radius = resolve(rounded || corner, RADIUS) || rounded || corner]. *)
Definition apply_corner_or (corner rounded : option string)
  (isCornerStyleguide : bool) (o : list (string * jsval))
  : list (string * jsval) :=
  set_if (negb isCornerStyleguide && truthy (js_or rounded corner))
    "border-radius"
    (of_opt (js_or (js_or (resolve (js_or rounded corner) RADIUS) rounded)
               corner)) o.

(** [if (border && !isBorderStyleguide) { border-width = resolve(border,
    BORDER_WIDTHS) || border; border-style = borderStyle }
    if (borderColor) border-color = borderColor]. *)
Definition apply_border (border borderStyle borderColor : option string)
  (isBorderStyleguide : bool) (o : list (string * jsval))
  : list (string * jsval) :=
  (if truthy border && negb isBorderStyleguide then
     o |> set_prop "border-width"
            (of_opt (js_or (resolve border BORDER_WIDTHS) border))
       |> set_prop "border-style" (of_opt borderStyle)
   else o)
  |> set_if (truthy borderColor) "border-color" (of_opt borderColor).

(** The styleguide data-attributes every catalog-aware renderer appends. *)
Definition add_styleguide_refs (shadow border corner : option string)
  (isShadow isBorder isCorner : bool) (l : list (string * string))
  : list (string * string) :=
  l |> add_if isShadow "data-style-guide-shadow" (tpl shadow)
    |> add_if isBorder "data-style-guide-border" (tpl border)
    |> add_if isCorner "data-style-guide-corner" (tpl corner).

(** [CFSection.render]. *)
Definition CFSection_render (el : gmap string string) : Resolved :=
  let elementId := attr el "element-id" None in
  let container := attr el "container" (Some "full") in
  let bg := attr el "bg" None in
  let bgImage0 := attr el "bg-image" None in
  let bgStyle := attr el "bg-style" None in
  let gradient := attr el "gradient" None in
  let overlay := attr el "overlay" None in
  let paint := attr el "paint" None in
  let pt := attr el "pt" (Some "64px") in
  let pb := attr el "pb" (Some "64px") in
  let px := attr el "px" (Some "0") in
  let mt := attr el "mt" None in
  let shadow := attr el "shadow" None in
  let popupRounded := attr el "data-popup-rounded" None in
  let rounded := js_or (attr el "rounded" None) popupRounded in
  let corner := attr el "corner" None in
  let border := attr el "border" None in
  let borderStyle := attr el "border-style" (Some "solid") in
  let borderColor := attr el "border-color" None in
  let show := attr el "show" None in
  let brandAsset := attr el "brand-asset" None in
  let videoBg := attr el "video-bg" None in
  let videoBgOverlay := attr el "video-bg-overlay" None in
  let videoBgHideMobile := attr el "video-bg-hide-mobile" (Some "true") in
  let videoBgStyle := attr el "video-bg-style" (Some "fill") in
  let bgImage := brand_swap brandAsset bgImage0 in
  let containerWidth :=
    js_or (resolve container CONTAINER_WIDTHS) (Some "1170px") in
  let isShadowStyleguide :=
    truthy shadow && isStyleguideRef sg shadow RShadow in
  let isBorderStyleguide :=
    truthy border && isStyleguideRef sg border RBorder in
  let isCornerStyleguide :=
    truthy corner && isStyleguideRef sg corner RCorner in
  let styles :=
    [ ("width", JStr "100%");
      ("max-width", of_opt containerWidth);
      ("margin-left", JStr "auto");
      ("margin-right", JStr "auto");
      ("position", JStr "relative");
      ("padding-top", of_opt pt);
      ("padding-bottom", of_opt pb);
      ("padding-left", of_opt px);
      ("padding-right", of_opt px);
      ("box-sizing", JStr "border-box") ]
    |> apply_background paint gradient bg
    |> set_if (truthy bgImage) "background-image"
         (JStr ("url(" +:+ tpl bgImage +:+ ")"))
    |> set_if (truthy mt) "margin-top" (of_opt mt)
    |> apply_shadow shadow isShadowStyleguide
    |> apply_corner corner rounded isCornerStyleguide
    |> apply_border border borderStyle borderColor isBorderStyleguide in
  let bgStyleClass :=
    if truthy bgImage then getBgStyleClass bgStyle else Some "" in
  let originalBgImage := attr el "bg-image" None in
  let videoId := extractYouTubeVideoId videoBg in
  let videoOverlayColor :=
    let c := js_or videoBgOverlay overlay in
    if negb (truthy c) && truthy bg && starts_with "rgba" bg then bg else c in
  let data :=
    [ ("data-type", "SectionContainer/V1") ]
    |> add "data-container" (tpl container)
    |> add_if (truthy show) "data-show" (tpl show)
    |> add_if (truthy bgStyleClass) "data-bg-style" (tpl bgStyleClass)
    |> add_if (truthy overlay) "data-overlay" (tpl overlay)
    |> add_if (truthy originalBgImage) "data-bg-image" (tpl originalBgImage)
    |> add_if (truthy brandAsset) "data-brand-asset" (tpl brandAsset)
    |> add_if (truthy paint) "data-paint-colors" (tpl paint)
    |> add_styleguide_refs shadow border corner
         isShadowStyleguide isBorderStyleguide isCornerStyleguide
    |> (λ l,
         if truthy videoBg && truthy videoId then
           l |> add "data-video-bg-url" (tpl videoBg)
             |> add "data-video-bg-type" "youtube"
             |> add "data-video-bg-thumbnail"
                  ("https://img.youtube.com/vi/" +:+ tpl videoId
                   +:+ "/maxresdefault.jpg")
             |> add "data-video-bg-hide-mobile"
                  (if is_lit videoBgHideMobile "true" then "true"
                   else "false")
             |> add "data-video-bg-style" (tpl videoBgStyle)
             |> add_if (truthy videoOverlayColor) "data-video-bg-overlay"
                  (tpl videoOverlayColor)
         else l) in
  let idAttr :=
    if truthy elementId then [("id", tpl elementId)] else [] in
  let classAttr :=
    if truthy bgStyleClass then [("class", tpl bgStyleClass)] else [] in
  {| dataAttrs := idAttr ++ classAttr ++ data;
     innerAttrs := [];
     styleObjs := [("section", styles)];
     literalStyles := overlay_literals overlay true [] |}.

(** [CFRow.render]. *)
Definition CFRow_render (el : gmap string string) : Resolved :=
  let elementId := attr el "element-id" None in
  let width := attr el "width" (Some "wide") in
  let bg := attr el "bg" None in
  let bgImage0 := attr el "bg-image" None in
  let bgStyle := attr el "bg-style" None in
  let gradient := attr el "gradient" None in
  let overlay := attr el "overlay" None in
  let paint := attr el "paint" None in
  let pt := attr el "pt" None in
  let pb := attr el "pb" None in
  let px := attr el "px" None in
  let mt := attr el "mt" None in
  let shadow := attr el "shadow" None in
  let rounded := attr el "rounded" None in
  let corner := attr el "corner" None in
  let border := attr el "border" None in
  let borderStyle := attr el "border-style" (Some "solid") in
  let borderColor := attr el "border-color" None in
  let brandAsset := attr el "brand-asset" None in
  let show := attr el "show" None in
  let bgImage := brand_swap brandAsset bgImage0 in
  let maxWidth := js_or (resolve width ROW_WIDTHS) width in
  let isShadowStyleguide :=
    truthy shadow && isStyleguideRef sg shadow RShadow in
  let isBorderStyleguide :=
    truthy border && isStyleguideRef sg border RBorder in
  let isCornerStyleguide :=
    truthy corner && isStyleguideRef sg corner RCorner in
  let styles :=
    [ ("display", JStr "flex");
      ("flex-wrap", JStr "wrap");
      ("width", of_opt maxWidth);
      ("max-width", JStr "100%");
      ("margin-left", JStr "auto");
      ("margin-right", JStr "auto");
      ("position", JStr "relative");
      ("box-sizing", JStr "border-box");
      ("margin-top", of_opt (js_or mt (Some "0"))) ]
    |> apply_background paint gradient bg
    |> set_if (truthy bgImage) "background-image"
         (JStr ("url(" +:+ tpl bgImage +:+ ")"))
    |> set_if (truthy pt) "padding-top" (of_opt pt)
    |> set_if (truthy pb) "padding-bottom" (of_opt pb)
    |> set_if (truthy px) "padding-left" (of_opt px)
    |> set_if (truthy px) "padding-right" (of_opt px)
    |> apply_shadow shadow isShadowStyleguide
    |> apply_corner corner rounded isCornerStyleguide
    |> apply_border border borderStyle borderColor isBorderStyleguide in
  let bgStyleClass :=
    if truthy bgImage then getBgStyleClass bgStyle else Some "" in
  let originalBgImage := attr el "bg-image" None in
  let data :=
    [ ("data-type", "RowContainer/V1") ]
    |> add "data-width" (tpl width)
    |> add_if (truthy show) "data-show" (tpl show)
    |> add_if (truthy bgStyleClass) "data-bg-style" (tpl bgStyleClass)
    |> add_if (truthy overlay) "data-overlay" (tpl overlay)
    |> add_if (truthy originalBgImage) "data-bg-image" (tpl originalBgImage)
    |> add_if (truthy brandAsset) "data-brand-asset" (tpl brandAsset)
    |> add_if (truthy paint) "data-paint-colors" (tpl paint)
    |> add_styleguide_refs shadow border corner
         isShadowStyleguide isBorderStyleguide isCornerStyleguide
    |> (λ l, l ++ buildAnimationAttrs el) in
  let idAttr :=
    if truthy elementId then [("id", tpl elementId)] else [] in
  let classAttr :=
    if truthy bgStyleClass then [("class", tpl bgStyleClass)] else [] in
  {| dataAttrs := idAttr ++ classAttr ++ data;
     innerAttrs := [];
     styleObjs := [("row", styles)];
     literalStyles :=
       overlay_literals overlay true
         [("display", "flex"); ("flex-wrap", "wrap"); ("width", "100%")] |}.

(** [CFCol.render]. *)
Definition CFCol_render (el : gmap string string) : Resolved :=
  let elementId := attr el "element-id" None in
  let span := parseInt (tpl (attr el "span" (Some "12"))) in
  let align := attr el "align" (Some "left") in
  let show := attr el "show" None in
  let widthPercent :=
    match span with
    | Some n => toFixed6 (inject_Z n / 12 * 100)%Q
    | None => "NaN"
    end +:+ "%" in
  let bg := attr el "bg" None in
  let bgImage0 := attr el "bg-image" None in
  let bgStyle := attr el "bg-style" None in
  let gradient := attr el "gradient" None in
  let overlay := attr el "overlay" None in
  let paint := attr el "paint" None in
  let pt := attr el "pt" None in
  let pb := attr el "pb" None in
  let px := attr el "px" None in
  let mx := attr el "mx" (Some "16px") in
  let shadow := attr el "shadow" None in
  let rounded := attr el "rounded" None in
  let corner := attr el "corner" None in
  let roundedTl := attr el "rounded-tl" None in
  let roundedTr := attr el "rounded-tr" None in
  let roundedBl := attr el "rounded-bl" None in
  let roundedBr := attr el "rounded-br" None in
  let border := attr el "border" None in
  let borderStyle := attr el "border-style" (Some "solid") in
  let borderColor := attr el "border-color" None in
  let brandAsset := attr el "brand-asset" None in
  let bgImage := brand_swap brandAsset bgImage0 in
  let isShadowStyleguide :=
    truthy shadow && isStyleguideRef sg shadow RShadow in
  let isBorderStyleguide :=
    truthy border && isStyleguideRef sg border RBorder in
  let isCornerStyleguide :=
    truthy corner && isStyleguideRef sg corner RCorner in
  let hasColInnerStyling :=
    truthy bg || truthy bgImage || truthy gradient || truthy overlay
    || truthy paint || truthy pt || truthy pb || truthy px || truthy mx
    || truthy shadow || truthy rounded || truthy corner || truthy roundedTl
    || truthy roundedTr || truthy roundedBl || truthy roundedBr
    || truthy border || truthy borderColor in
  let colStyles :=
    [ ("width", JStr widthPercent);
      ("position", JStr "relative");
      ("min-height", JStr "1px");
      ("box-sizing", JStr "border-box");
      ("z-index", JStr "2") ] in
  let corner_of (v : option string) := of_opt (js_or (resolve v RADIUS) v) in
  let innerStyles :=
    [ ("height", JStr "100%");
      ("position", JStr "relative");
      ("text-align", of_opt align);
      ("box-sizing", JStr "border-box") ]
    |> set_if (truthy pt) "padding-top" (of_opt pt)
    |> set_if (truthy pb) "padding-bottom" (of_opt pb)
    |> set_if (truthy px) "padding-left" (of_opt px)
    |> set_if (truthy px) "padding-right" (of_opt px)
    |> set_if (truthy mx) "margin-left" (of_opt mx)
    |> set_if (truthy mx) "margin-right" (of_opt mx)
    |> apply_background paint gradient bg
    |> set_if (truthy bgImage) "background-image"
         (JStr ("url(" +:+ tpl bgImage +:+ ")"))
    |> apply_shadow shadow isShadowStyleguide
    |> apply_corner corner rounded isCornerStyleguide
    |> set_if (truthy roundedTl) "border-top-left-radius" (corner_of roundedTl)
    |> set_if (truthy roundedTr) "border-top-right-radius"
         (corner_of roundedTr)
    |> set_if (truthy roundedBl) "border-bottom-left-radius"
         (corner_of roundedBl)
    |> set_if (truthy roundedBr) "border-bottom-right-radius"
         (corner_of roundedBr)
    |> apply_border border borderStyle borderColor isBorderStyleguide in
  let bgStyleClass :=
    if truthy bgImage then getBgStyleClass bgStyle else Some "" in
  let classes :=
    ["col-inner"]
    ++ (if truthy bgStyleClass then [tpl bgStyleClass] else [])
    ++ (if isShadowStyleguide then ["sg-shadow-" +:+ tpl shadow] else [])
    ++ (if isBorderStyleguide then ["sg-border-" +:+ tpl border] else [])
    ++ (if isCornerStyleguide then ["sg-corner-" +:+ tpl corner] else []) in
  let originalBgImage := attr el "bg-image" None in
  let hasSeparateCorners :=
    truthy roundedTl || truthy roundedTr || truthy roundedBl
    || truthy roundedBr in
  let data :=
    [ ("class", String.concat " " classes) ]
    |> add_if (truthy overlay) "data-overlay" (tpl overlay)
    |> add_if (truthy bg && negb (truthy paint)) "data-bg" (tpl bg)
    |> add_if (truthy originalBgImage) "data-bg-image" (tpl originalBgImage)
    |> add_if (truthy brandAsset) "data-brand-asset" (tpl brandAsset)
    |> add_if (truthy bgStyleClass) "data-bg-style" (tpl bgStyleClass)
    |> add_if (truthy paint) "data-paint-colors" (tpl paint)
    |> add_styleguide_refs shadow border corner
         isShadowStyleguide isBorderStyleguide isCornerStyleguide
    |> add_if hasSeparateCorners "data-separate-corners" "true" in
  let idAttr :=
    if truthy elementId then [("id", tpl elementId)] else [] in
  {| dataAttrs :=
       [ ("data-type", "ColContainer/V1");
         ("data-span",
          match span with Some n => pretty n | None => "NaN" end);
         ("data-col-direction", tpl align) ]
       |> add_if (truthy show) "data-show" (tpl show);
     innerAttrs :=
       if hasColInnerStyling then idAttr ++ data
       else idAttr ++ [("class", "col-inner")];
     styleObjs := [("col", colStyles); ("col-inner", innerStyles)];
     literalStyles := overlay_literals overlay true [] |}.

(** The inline lookup tables of [CFFlex.render]. *)
Definition FLEX_DIRECTION : gmap string string := list_to_map
  [ ("row", "row"); ("col", "column"); ("row-reverse", "row-reverse");
    ("col-reverse", "column-reverse") ].

Definition FLEX_JUSTIFY : gmap string string := list_to_map
  [ ("start", "flex-start"); ("center", "center"); ("end", "flex-end");
    ("between", "space-between"); ("around", "space-around");
    ("evenly", "space-evenly") ].

Definition FLEX_ITEMS : gmap string string := list_to_map
  [ ("start", "flex-start"); ("center", "center"); ("end", "flex-end");
    ("stretch", "stretch"); ("baseline", "baseline") ].

(** [{...}[key] || fallback]. *)
Definition lookup_or (t : gmap string string) (key : option string)
  (fallback : string) : option string :=
  js_or (key ≫= λ k, t !! k) (Some fallback).

(** The [gap] of a flex container: an absolute pixel length becomes a
    font-relative one, sixteen pixels to the em. *)
Definition flex_gap (gap : option string) : string :=
  if truthy gap then
    if ends_with "px" (tpl gap) then div16_em (parseFloat (tpl gap))
    else tpl gap
  else "1.5em".

(** [CFFlex.render]. *)
Definition CFFlex_render (el : gmap string string) : Resolved :=
  let elementId := attr el "element-id" None in
  let direction := attr el "direction" (Some "row") in
  let justify := attr el "justify" (Some "start") in
  let items := attr el "items" (Some "start") in
  let wrap := attr el "wrap" None in
  let gap := attr el "gap" None in
  let bg := attr el "bg" None in
  let gradient := attr el "gradient" None in
  let paint := attr el "paint" None in
  let p := attr el "p" None in
  let px := attr el "px" None in
  let py := attr el "py" None in
  let pt := attr el "pt" None in
  let pb := attr el "pb" None in
  let mt := attr el "mt" None in
  let shadow := attr el "shadow" None in
  let rounded := attr el "rounded" None in
  let corner := attr el "corner" None in
  let border := attr el "border" None in
  let borderStyle := attr el "border-style" (Some "solid") in
  let borderColor := attr el "border-color" None in
  let width := attr el "width" None in
  let height := attr el "height" None in
  let show := attr el "show" None in
  let isShadowStyleguide :=
    truthy shadow && isStyleguideRef sg shadow RShadow in
  let isBorderStyleguide :=
    truthy border && isStyleguideRef sg border RBorder in
  let isCornerStyleguide :=
    truthy corner && isStyleguideRef sg corner RCorner in
  let flexDirection := lookup_or FLEX_DIRECTION direction "row" in
  let justifyContent := lookup_or FLEX_JUSTIFY justify "flex-start" in
  let alignItems := lookup_or FLEX_ITEMS items "center" in
  let wraps := is_lit wrap "true" || is_lit wrap "" in
  let styles :=
    [ ("display", JStr "flex");
      ("flex-direction", of_opt flexDirection);
      ("justify-content", of_opt justifyContent);
      ("align-items", of_opt alignItems);
      ("box-sizing", JStr "border-box");
      ("margin-left", JStr "auto");
      ("margin-right", JStr "auto") ]
    |> set_if wraps "flex-wrap" (JStr "wrap")
    |> set_prop "gap" (JStr (flex_gap gap))
    |> apply_background paint gradient bg
    |> set_if (truthy p) "padding-top" (of_opt p)
    |> set_if (truthy p) "padding-bottom" (of_opt p)
    |> set_if (truthy p) "padding-left" (of_opt p)
    |> set_if (truthy p) "padding-right" (of_opt p)
    |> set_if (truthy px) "padding-left" (of_opt px)
    |> set_if (truthy px) "padding-right" (of_opt px)
    |> set_if (truthy py) "padding-top" (of_opt py)
    |> set_if (truthy py) "padding-bottom" (of_opt py)
    |> set_if (truthy pt) "padding-top" (of_opt pt)
    |> set_if (truthy pb) "padding-bottom" (of_opt pb)
    |> set_if (truthy mt) "margin-top" (of_opt mt)
    |> apply_shadow shadow isShadowStyleguide
    |> apply_corner_or corner rounded isCornerStyleguide
    |> apply_border border borderStyle borderColor isBorderStyleguide
    |> set_if (truthy width) "width" (of_opt width)
    |> set_if (truthy height) "height" (of_opt height) in
  let gapValue := to_str (default JUndefined (snd <$>
    find (λ kv, bool_decide (kv.1 = "gap")) styles)) in
  let data :=
    [ ("data-type", "FlexContainer/V1") ]
    |> add_if (truthy show) "data-show" (tpl show)
    |> add "data-direction" (tpl direction)
    |> add "data-justify" (tpl justify)
    |> add "data-items" (tpl items)
    |> add_if wraps "data-wrap" "true"
    |> add "data-gap" gapValue
    |> add_if (truthy width) "data-width" (tpl width)
    |> add_if (truthy height) "data-height" (tpl height)
    |> add_if (truthy paint) "data-paint-colors" (tpl paint)
    |> add_styleguide_refs shadow border corner
         isShadowStyleguide isBorderStyleguide isCornerStyleguide in
  let idAttr :=
    if truthy elementId then [("id", tpl elementId)] else [] in
  {| dataAttrs := idAttr ++ data;
     innerAttrs := [];
     styleObjs := [("flex", styles)];
     literalStyles := [] |}.

(** [styleguideManager.resolveSize(size, type) || resolve(size, FONT_SIZES)
    || size]. *)
Definition resolvedSize_of (size : option string) (type : ElementType)
  : option string :=
  js_or
    (js_or (size ≫= λ s, resolveSize sg s type) (resolve size FONT_SIZES))
    size.

(** The [textStyles] object shared by the three text renderers. *)
Definition text_styles (el : gmap string string) (type : ElementType)
  (size weight align leading : option string) : list (string * jsval) :=
  let font := attr el "font" None in
  let color := attr el "color" None in
  let hasExplicitColor := hasAttribute el "color" in
  let tracking := attr el "tracking" None in
  let transform := attr el "transform" None in
  [ ("margin", JStr "0");
    ("font-size", of_opt (resolvedSize_of size type));
    ("font-weight", of_opt (js_or (resolve weight FONT_WEIGHTS) weight));
    ("text-align", of_opt align);
    ("line-height", of_opt (js_or (resolve leading LINE_HEIGHTS) leading)) ]
  |> set_if (hasExplicitColor && truthy color) "color"
       (JStr (tpl color +:+ " !important"))
  |> set_if (truthy font) "font-family" (of_opt font)
  |> set_if (truthy tracking) "letter-spacing" (of_opt tracking)
  |> set_if (truthy transform) "text-transform" (of_opt transform).

(** The data-attributes the three text renderers share, up to and
    including [data-mt]. *)
Definition text_data (el : gmap string string) (dataType : string)
  (size weight align leading pt pb mt : option string)
  : list (string * string) :=
  let font := attr el "font" None in
  let color := attr el "color" None in
  let hasExplicitColor := hasAttribute el "color" in
  let tracking := attr el "tracking" None in
  let transform := attr el "transform" None in
  [ ("data-type", dataType) ]
  |> add "data-size" (tpl size)
  |> add "data-weight" (tpl weight)
  |> add_if (hasExplicitColor && truthy color) "data-color" (tpl color)
  |> add_if (hasExplicitColor && truthy color) "data-color-explicit" "true"
  |> add "data-align" (tpl align)
  |> add "data-leading" (tpl leading)
  |> add_if (truthy font) "data-font" (tpl font)
  |> add_if (truthy tracking) "data-tracking" (tpl tracking)
  |> add_if (truthy transform) "data-transform" (tpl transform)
  |> add_if (differs pt "0") "data-pt" (tpl pt)
  |> add_if (differs pb "0") "data-pb" (tpl pb)
  |> add_if (differs mt "0") "data-mt" (tpl mt).

Definition icon_data (el : gmap string string) (l : list (string * string))
  : list (string * string) :=
  let icon := attr el "icon" None in
  let iconAlign := attr el "icon-align" (Some "left") in
  l |> add_if (truthy icon) "data-icon" (tpl icon)
    |> add_if (truthy icon && differs iconAlign "left") "data-icon-align"
         (tpl iconAlign).

(** [CFHeadline.render]. *)
Definition CFHeadline_render (el : gmap string string) : Resolved :=
  let size := attr el "size" (Some "48px") in
  let weight := attr el "weight" (Some "bold") in
  let align := attr el "align" (Some "center") in
  let leading := attr el "leading" (Some "tight") in
  let pt := attr el "pt" (Some "0") in
  let pb := attr el "pb" (Some "0") in
  let mt := attr el "mt" (Some "0") in
  let wrapperStyles :=
    [ ("padding-top", of_opt pt);
      ("padding-bottom", of_opt pb);
      ("margin-top", of_opt (js_or mt (Some "20px")));
      ("box-sizing", JStr "border-box") ] in
  {| dataAttrs :=
       text_data el "Headline/V1" size weight align leading pt pb mt
       |> icon_data el
       |> (λ l, l ++ buildAnimationAttrs el);
     innerAttrs := [];
     styleObjs :=
       [ ("wrapper", wrapperStyles);
         ("text", text_styles el Headline size weight align leading) ];
     literalStyles := icon_literals el |}.

(** [CFSubheadline.render]. *)
Definition CFSubheadline_render (el : gmap string string) : Resolved :=
  let size := attr el "size" (Some "24px") in
  let weight := attr el "weight" (Some "normal") in
  let align := attr el "align" (Some "center") in
  let leading := attr el "leading" (Some "relaxed") in
  let pt := attr el "pt" (Some "0") in
  let pb := attr el "pb" (Some "0") in
  let mt := attr el "mt" (Some "0") in
  let wrapperStyles :=
    [ ("padding-top", of_opt pt);
      ("padding-bottom", of_opt pb);
      ("margin-top", of_opt mt);
      ("box-sizing", JStr "border-box") ] in
  {| dataAttrs :=
       text_data el "SubHeadline/V1" size weight align leading pt pb mt
       |> icon_data el
       |> (λ l, l ++ buildAnimationAttrs el);
     innerAttrs := [];
     styleObjs :=
       [ ("wrapper", wrapperStyles);
         ("text", text_styles el Subheadline size weight align leading) ];
     literalStyles := icon_literals el |}.

(** [CFParagraph.render]. *)
Definition CFParagraph_render (el : gmap string string) : Resolved :=
  let size := attr el "size" (Some "16px") in
  let weight := attr el "weight" (Some "normal") in
  let align := attr el "align" (Some "center") in
  let leading := attr el "leading" (Some "relaxed") in
  let pt := attr el "pt" (Some "0") in
  let pb := attr el "pb" (Some "0") in
  let px := attr el "px" None in
  let mt := attr el "mt" (Some "0") in
  let bg := attr el "bg" None in
  let wrapperStyles :=
    [ ("padding-top", of_opt pt);
      ("padding-bottom", of_opt pb);
      ("margin-top", of_opt mt);
      ("box-sizing", JStr "border-box") ]
    |> set_if (truthy bg) "background-color" (of_opt bg)
    |> set_if (truthy px) "padding-left" (of_opt px)
    |> set_if (truthy px) "padding-right" (of_opt px) in
  {| dataAttrs :=
       text_data el "Paragraph/V1" size weight align leading pt pb mt
       |> add_if (truthy px) "data-px" (tpl px)
       |> add_if (truthy bg) "data-bg" (tpl bg)
       |> icon_data el
       |> (λ l, l ++ buildAnimationAttrs el);
     innerAttrs := [];
     styleObjs :=
       [ ("wrapper", wrapperStyles);
         ("text", text_styles el Paragraph size weight align leading) ];
     literalStyles := icon_literals el |}.

(** [CFImage.render]. *)
Definition CFImage_render (el : gmap string string) : Resolved :=
  let src0 := attr el "src" (Some "") in
  let alt := attr el "alt" (Some "") in
  let width := attr el "width" (Some "100%") in
  let height := attr el "height" None in
  let align := attr el "align" (Some "center") in
  let rounded := attr el "rounded" None in
  let corner := attr el "corner" None in
  let shadow := attr el "shadow" None in
  let border := attr el "border" None in
  let borderStyle := attr el "border-style" (Some "solid") in
  let borderColor := attr el "border-color" None in
  let objectFit := attr el "object-fit" None in
  let pt := attr el "pt" (Some "0") in
  let pb := attr el "pb" (Some "0") in
  let mt := attr el "mt" (Some "0") in
  let brandAsset := attr el "brand-asset" None in
  let isShadowStyleguide :=
    truthy shadow && isStyleguideRef sg shadow RShadow in
  let isBorderStyleguide :=
    truthy border && isStyleguideRef sg border RBorder in
  let isCornerStyleguide :=
    truthy corner && isStyleguideRef sg corner RCorner in
  let src := brand_swap brandAsset src0 in
  let wrapperStyles :=
    [ ("text-align", of_opt align);
      ("padding-top", of_opt pt);
      ("padding-bottom", of_opt pb);
      ("margin-top", of_opt mt);
      ("box-sizing", JStr "border-box") ] in
  let hasInlineRadius :=
    negb isCornerStyleguide && truthy (js_or rounded corner) in
  let hasInlineShadow := truthy shadow && negb isShadowStyleguide in
  let needsInnerContainer := hasInlineRadius && hasInlineShadow in
  let resolvedRadius :=
    if truthy (js_or rounded corner) then
      js_or (js_or (resolve (js_or rounded corner) RADIUS) rounded) corner
    else None in
  let resolvedShadow :=
    if truthy shadow then js_or (resolve shadow SHADOWS) shadow else None in
  let innerContainerStyles :=
    [ ("display", JStr "inline-block");
      ("border-radius", of_opt resolvedRadius);
      ("overflow", JStr "hidden");
      ("box-shadow", of_opt resolvedShadow);
      ("max-width", JStr "100%") ] in
  let imgStyles :=
    [ ("display",
       JStr (if needsInnerContainer then "block" else "inline-block"));
      ("vertical-align", JStr "top");
      ("max-width", JStr "100%");
      ("width", of_opt width) ]
    |> set_if (truthy height) "height" (of_opt height)
    |> set_if (negb needsInnerContainer && negb isCornerStyleguide
               && truthy (js_or rounded corner))
         "border-radius" (of_opt resolvedRadius)
    |> set_if (negb needsInnerContainer && truthy shadow
               && negb isShadowStyleguide)
         "box-shadow" (of_opt resolvedShadow)
    |> apply_border border borderStyle borderColor isBorderStyleguide
    |> set_if (truthy objectFit) "object-fit" (of_opt objectFit) in
  let originalSrc := attr el "src" (Some "") in
  let data :=
    [ ("data-type", "Image/V2") ]
    |> add "data-src" (tpl originalSrc)
    |> add_if (truthy alt) "data-alt" (tpl alt)
    |> add_if (differs width "100%") "data-width" (tpl width)
    |> add_if (truthy height) "data-height" (tpl height)
    |> add_if (differs align "center") "data-align" (tpl align)
    |> add_if (truthy rounded) "data-rounded" (tpl rounded)
    |> add_if (truthy corner) "data-corner" (tpl corner)
    |> add_if (truthy shadow) "data-shadow" (tpl shadow)
    |> add_if (truthy border) "data-border" (tpl border)
    |> add_if (differs borderStyle "solid") "data-border-style"
         (tpl borderStyle)
    |> add_if (truthy borderColor) "data-border-color" (tpl borderColor)
    |> add_if (truthy objectFit) "data-object-fit" (tpl objectFit)
    |> add_if (truthy brandAsset) "data-brand-asset" (tpl brandAsset)
    |> add_styleguide_refs shadow border corner
         isShadowStyleguide isBorderStyleguide isCornerStyleguide
    |> (λ l, l ++ buildAnimationAttrs el) in
  {| dataAttrs := data;
     innerAttrs := [];
     styleObjs :=
       [ ("wrapper", wrapperStyles) ]
       ++ (if needsInnerContainer then [("inner", innerContainerStyles)]
           else [])
       ++ [ ("img", imgStyles) ];
     literalStyles := [] |}.

(** [CFIcon.render]. *)
Definition CFIcon_render (el : gmap string string) : Resolved :=
  let icon := attr el "icon" (Some "fas fa-star") in
  let size := attr el "size" (Some "48px") in
  let color := attr el "color" None in
  let hasExplicitColor := hasAttribute el "color" in
  let align := attr el "align" (Some "center") in
  let opacity := attr el "opacity" None in
  let pt := attr el "pt" (Some "12px") in
  let pb := attr el "pb" (Some "12px") in
  let mt := attr el "mt" (Some "0") in
  let wrapperStyles :=
    [ ("text-align", of_opt align);
      ("padding-top", of_opt pt);
      ("padding-bottom", of_opt pb);
      ("margin-top", of_opt mt);
      ("box-sizing", JStr "border-box") ] in
  let iconStyles :=
    [ ("display", JStr "inline-block");
      ("font-size", of_opt size) ]
    |> set_if (hasExplicitColor && truthy color) "color"
         (JStr (tpl color +:+ " !important"))
    |> set_if (truthy opacity) "opacity" (of_opt opacity) in
  let data :=
    [ ("data-type", "Icon/V1") ]
    |> add "data-icon" (tpl icon)
    |> add_if (differs size "48px") "data-size" (tpl size)
    |> add_if (hasExplicitColor && truthy color) "data-color" (tpl color)
    |> add_if (hasExplicitColor && truthy color) "data-color-explicit" "true"
    |> add_if (differs align "center") "data-align" (tpl align)
    |> add_if (truthy opacity) "data-opacity" (tpl opacity)
    |> add_if (differs pt "12px") "data-pt" (tpl pt)
    |> add_if (differs pb "12px") "data-pb" (tpl pb)
    |> add_if (differs mt "0") "data-mt" (tpl mt)
    |> (λ l, l ++ buildAnimationAttrs el) in
  {| dataAttrs := data;
     innerAttrs := [];
     styleObjs := [("wrapper", wrapperStyles); ("icon", iconStyles)];
     literalStyles := [] |}.

(** [CFVideo.render]. *)
Definition CFVideo_render (el : gmap string string) : Resolved :=
  let url := attr el "url" (Some "") in
  let rounded := attr el "rounded" (Some "lg") in
  let corner := attr el "corner" None in
  let shadow := attr el "shadow" (Some "lg") in
  let border := attr el "border" None in
  let borderStyle := attr el "border-style" (Some "solid") in
  let borderColor := attr el "border-color" None in
  let bg := attr el "bg" (Some "#000") in
  let pt := attr el "pt" (Some "0") in
  let pb := attr el "pb" (Some "0") in
  let px := attr el "px" None in
  let mt := attr el "mt" (Some "0") in
  let isShadowStyleguide :=
    truthy shadow && isStyleguideRef sg shadow RShadow in
  let isBorderStyleguide :=
    truthy border && isStyleguideRef sg border RBorder in
  let isCornerStyleguide :=
    truthy corner && isStyleguideRef sg corner RCorner in
  let wrapperStyles :=
    [ ("padding-top", of_opt pt);
      ("padding-bottom", of_opt pb);
      ("margin-top", of_opt mt);
      ("box-sizing", JStr "border-box") ]
    |> set_if (truthy px) "padding-left" (of_opt px)
    |> set_if (truthy px) "padding-right" (of_opt px) in
  let containerStyles :=
    [ ("width", JStr "100%");
      ("aspect-ratio", JStr "16/9");
      ("position", JStr "relative");
      ("overflow", JStr "hidden");
      ("background-color", of_opt bg) ]
    |> apply_corner_or corner rounded isCornerStyleguide
    |> apply_shadow shadow isShadowStyleguide
    |> apply_border border borderStyle borderColor isBorderStyleguide in
  let data :=
    [ ("data-type", "Video/V1"); ("data-video-type", "youtube") ]
    |> add "data-video-url" (tpl url)
    |> add_if (differs rounded "lg") "data-rounded" (tpl rounded)
    |> add_if (truthy corner) "data-corner" (tpl corner)
    |> add_if (differs shadow "lg") "data-shadow" (tpl shadow)
    |> add_if (truthy border) "data-border" (tpl border)
    |> add_if (differs borderStyle "solid") "data-border-style"
         (tpl borderStyle)
    |> add_if (truthy borderColor) "data-border-color" (tpl borderColor)
    |> add_if (differs bg "#000") "data-bg" (tpl bg)
    |> add_styleguide_refs shadow border corner
         isShadowStyleguide isBorderStyleguide isCornerStyleguide in
  {| dataAttrs := data;
     innerAttrs := [];
     styleObjs :=
       [("wrapper", wrapperStyles); ("container", containerStyles)];
     literalStyles :=
       [ [ ("width", "100%"); ("height", "100%"); ("border", "none") ] ] |}.

Definition DIVIDER_MARGIN : gmap string string := list_to_map
  [ ("left", "0 auto 0 0"); ("center", "0 auto"); ("right", "0 0 0 auto") ].

(** [CFDivider.render]. *)
Definition CFDivider_render (el : gmap string string) : Resolved :=
  let color := attr el "color" (Some "#e2e8f0") in
  let width := attr el "width" (Some "100%") in
  let thickness := attr el "thickness" (Some "1px") in
  let borderStyle := attr el "style" (Some "solid") in
  let align := attr el "align" (Some "center") in
  let shadow := attr el "shadow" None in
  let pt := attr el "pt" (Some "16px") in
  let pb := attr el "pb" (Some "16px") in
  let px := attr el "px" None in
  let mt := attr el "mt" None in
  let wrapperStyles :=
    [ ("padding-top", of_opt pt);
      ("padding-bottom", of_opt pb);
      ("box-sizing", JStr "border-box") ]
    |> set_if (truthy px) "padding-left" (of_opt px)
    |> set_if (truthy px) "padding-right" (of_opt px)
    |> set_if (truthy mt) "margin-top" (of_opt mt) in
  let alignMargin := lookup_or DIVIDER_MARGIN align "0 auto" in
  let lineStyles :=
    [ ("border-top",
       JStr (tpl thickness +:+ " " +:+ tpl borderStyle +:+ " " +:+ tpl color));
      ("border-right", JStr "none");
      ("border-bottom", JStr "none");
      ("border-left", JStr "none");
      ("width", of_opt width);
      ("margin", of_opt alignMargin) ]
    |> set_if (truthy shadow) "box-shadow"
         (of_opt (js_or (resolve shadow SHADOWS) shadow)) in
  let data :=
    [ ("data-type", "Divider/V1") ]
    |> add_if (differs color "#e2e8f0") "data-color" (tpl color)
    |> add_if (differs width "100%") "data-width" (tpl width)
    |> add_if (differs thickness "1px") "data-thickness" (tpl thickness)
    |> add_if (differs borderStyle "solid") "data-style" (tpl borderStyle)
    |> add_if (differs align "center") "data-align" (tpl align)
    |> add_if (truthy shadow) "data-shadow" (tpl shadow)
    |> add "data-skip-shadow-settings"
         (if truthy shadow then "false" else "true") in
  {| dataAttrs := data;
     innerAttrs := [];
     styleObjs := [("wrapper", wrapperStyles); ("line", lineStyles)];
     literalStyles := [] |}.

(** The [href] a button action maps to. *)
Definition button_href (action scrollTarget href : option string)
  : option string :=
  if is_lit action "submit" then Some "#submit-form"
  else if is_lit action "popup" then Some "#open-popup"
  else if is_lit action "scroll" && truthy scrollTarget
       then Some ("#scroll-" +:+ tpl scrollTarget)
  else if is_lit action "show-hide" then Some "#show-hide"
  else if is_lit action "next-step" then Some "?next_funnel_step=true"
  else if is_lit action "oto" || is_lit action "one-click-upsell"
       then Some "#submit-oto"
  else href.

(** [CFButton.render]. *)
Definition CFButton_render (el : gmap string string) : Resolved :=
  let action := attr el "action" (Some "link") in
  let target := attr el "target" (Some "_self") in
  let scrollTarget := attr el "scroll-target" None in
  let showIds := attr el "show-ids" None in
  let hideIds := attr el "hide-ids" None in
  let href := button_href action scrollTarget (attr el "href" (Some "#")) in
  let buttonStyleRef := attr el "style" None in
  let isStyleguideButton :=
    truthy buttonStyleRef && isStyleguideRef sg buttonStyleRef RButton in
  let bg := attr el "bg" (Some "#3b82f6") in
  let color := attr el "color" (Some "#ffffff") in
  let size := attr el "size" (Some "20px") in
  let weight := attr el "weight" (Some "bold") in
  let px := attr el "px" (Some "32px") in
  let py := attr el "py" (Some "16px") in
  let pt := attr el "pt" (Some "0") in
  let pb := attr el "pb" None in
  let mt := attr el "mt" (Some "0") in
  let rounded := attr el "rounded" (Some "default") in
  let shadow := attr el "shadow" None in
  let borderColor := attr el "border-color" None in
  let borderWidth := attr el "border-width" (Some "0") in
  let align := attr el "align" (Some "center") in
  let fullWidth := attr el "full-width" None in
  let subtext := attr el "subtext" None in
  let subtextColor := attr el "subtext-color" (Some "rgba(255,255,255,0.8)") in
  let icon := attr el "icon" None in
  let iconPosition := attr el "icon-position" (Some "left") in
  let iconColor := attr el "icon-color" color in
  let full := is_lit fullWidth "true" || is_lit fullWidth "" in
  let wrapperStyles :=
    [ ("text-align", of_opt align);
      ("padding-top", of_opt pt);
      ("margin-top", of_opt mt);
      ("box-sizing", JStr "border-box") ]
    |> set_if (truthy pb) "padding-bottom" (of_opt pb) in
  let buttonStyles :=
    [ ("display", JStr "inline-flex");
      ("flex-direction", JStr "column");
      ("align-items", JStr "center");
      ("justify-content", JStr "center");
      ("text-decoration", JStr "none");
      ("cursor", JStr "pointer");
      ("padding-left", of_opt px);
      ("padding-right", of_opt px);
      ("padding-top", of_opt py);
      ("padding-bottom", of_opt py);
      ("box-sizing", JStr "border-box") ]
    |> (λ o,
         if isStyleguideButton then o
         else
           o |> set_if (truthy bg) "background-color" (of_opt bg)
             |> set_if (truthy rounded) "border-radius"
                  (of_opt (js_or (resolve rounded RADIUS) rounded))
             |> set_prop "border-style" (JStr "solid")
             |> set_prop "border-width" (of_opt borderWidth)
             |> set_prop "border-color"
                  (of_opt (js_or borderColor (Some "transparent")))
             |> set_if (truthy shadow) "box-shadow"
                  (of_opt (js_or (resolve shadow SHADOWS) shadow)))
    |> set_if full "width" (JStr "100%") in
  let textStyles :=
    [ ("display", JStr "inline-flex");
      ("align-items", JStr "center");
      ("justify-content", JStr "center");
      ("font-size", of_opt size);
      ("font-weight", of_opt (js_or (resolve weight FONT_WEIGHTS) weight)) ]
    |> set_if (negb isStyleguideButton && truthy color) "color"
         (of_opt color) in
  let iconStyles :=
    [] |> set_if (negb isStyleguideButton && truthy iconColor) "color"
            (of_opt iconColor) in
  let subtextStyles :=
    [ ("display", JStr "block");
      ("text-align", JStr "center");
      ("font-size", JStr "14px");
      ("margin-top", JStr "4px") ]
    |> set_if (negb isStyleguideButton) "color" (of_opt subtextColor) in
  let data :=
    [ ("data-type", "Button/V1");
      ("data-href", tpl href);
      ("data-target", tpl target);
      ("data-action", tpl action) ]
    |> add_if isStyleguideButton "data-style-guide-button"
         (tpl buttonStyleRef)
    |> add_if (truthy bg) "data-bg" (tpl bg)
    |> add_if (truthy color) "data-color" (tpl color)
    |> add_if (truthy rounded) "data-rounded" (tpl rounded)
    |> add_if (truthy shadow) "data-shadow" (tpl shadow)
    |> add_if (truthy borderColor) "data-border-color" (tpl borderColor)
    |> add_if (differs borderWidth "0") "data-border-width" (tpl borderWidth)
    |> add_if (truthy iconColor && bool_decide (iconColor ≠ color))
         "data-icon-color" (tpl iconColor)
    |> add "data-size" (tpl size)
    |> add "data-weight" (tpl weight)
    |> add "data-px" (tpl px)
    |> add "data-py" (tpl py)
    |> add_if (differs align "center") "data-align" (tpl align)
    |> add_if full "data-full-width" "true"
    |> add_if (truthy subtext) "data-subtext" (tpl subtext)
    |> add_if (differs subtextColor "rgba(255,255,255,0.8)")
         "data-subtext-color" (tpl subtextColor)
    |> add_if (truthy icon) "data-icon" (tpl icon)
    |> add_if (truthy icon) "data-icon-position" (tpl iconPosition)
    |> add_if (is_lit action "show-hide") "data-elbuttontype" "showHide"
    |> add_if (is_lit action "show-hide" && truthy showIds) "data-show-ids"
         (tpl showIds)
    |> add_if (is_lit action "show-hide" && truthy hideIds) "data-hide-ids"
         (tpl hideIds)
    |> add_if (is_lit action "scroll" && truthy scrollTarget)
         "data-scroll-target" (tpl scrollTarget)
    |> (λ l, l ++ buildAnimationAttrs el) in
  {| dataAttrs := data;
     innerAttrs := [];
     styleObjs :=
       [ ("wrapper", wrapperStyles); ("button", buttonStyles);
         ("text", textStyles) ]
       ++ (if truthy icon
              && (is_lit iconPosition "left" || is_lit iconPosition "right")
              && bool_decide (iconStyles ≠ [])
           then [("icon", iconStyles)] else [])
       ++ (if truthy subtext then [("subtext", subtextStyles)] else []);
     literalStyles :=
       if truthy icon && is_lit iconPosition "left"
       then [[("margin-right", "10px")]]
       else if truthy icon && is_lit iconPosition "right"
       then [[("margin-left", "10px")]]
       else [] |}.

Definition LIST_JUSTIFY : gmap string string := list_to_map
  [ ("left", "flex-start"); ("center", "center"); ("right", "flex-end") ].

(** [CFBulletList.render]. *)
Definition CFBulletList_render (el : gmap string string) : Resolved :=
  let icon := attr el "icon" (Some "fas fa-check") in
  let iconColor := attr el "icon-color" None in
  let hasExplicitIconColor := hasAttribute el "icon-color" in
  let textColor := attr el "text-color" None in
  let hasExplicitTextColor := hasAttribute el "text-color" in
  let iconSize := attr el "icon-size" (Some "16px") in
  let size := attr el "size" (Some "m") in
  let gap := attr el "gap" (Some "12px") in
  let itemGap := attr el "item-gap" (Some "8px") in
  let align := attr el "align" (Some "left") in
  let pt := attr el "pt" (Some "0") in
  let pb := attr el "pb" (Some "0") in
  let mt := attr el "mt" (Some "0") in
  let resolvedSize := resolvedSize_of size Paragraph in
  let justifyContent := lookup_or LIST_JUSTIFY align "flex-start" in
  let wrapperStyles :=
    [ ("width", JStr "100%");
      ("padding-top", of_opt pt);
      ("padding-bottom", of_opt pb);
      ("margin-top", of_opt mt);
      ("box-sizing", JStr "border-box") ] in
  let listStyles :=
    [ ("list-style", JStr "none");
      ("padding", JStr "0");
      ("margin", JStr "0");
      ("display", JStr "flex");
      ("flex-direction", JStr "column");
      ("gap", of_opt itemGap) ] in
  let itemStyles :=
    [ ("display", JStr "flex");
      ("align-items", JStr "flex-start");
      ("justify-content", of_opt justifyContent) ] in
  let iconStyles :=
    [ ("flex-shrink", JStr "0");
      ("font-size", of_opt iconSize);
      ("line-height", JStr "1.5");
      ("margin-top", JStr "2px");
      ("margin-right", of_opt gap) ]
    |> set_if (hasExplicitIconColor && truthy iconColor) "color"
         (JStr (tpl iconColor +:+ " !important")) in
  let textStyles :=
    [ ("font-size", of_opt resolvedSize);
      ("line-height", JStr "1.5") ]
    |> set_if (hasExplicitTextColor && truthy textColor) "color"
         (JStr (tpl textColor +:+ " !important")) in
  let data :=
    [ ("data-type", "BulletList/V1") ]
    |> add "data-icon" (tpl icon)
    |> add_if (hasExplicitIconColor && truthy iconColor) "data-icon-color"
         (tpl iconColor)
    |> add_if (hasExplicitIconColor && truthy iconColor)
         "data-icon-color-explicit" "true"
    |> add_if (hasExplicitTextColor && truthy textColor) "data-text-color"
         (tpl textColor)
    |> add_if (hasExplicitTextColor && truthy textColor)
         "data-text-color-explicit" "true"
    |> add "data-icon-size" (tpl iconSize)
    |> add "data-size" (tpl size)
    |> add "data-gap" (tpl gap)
    |> add "data-item-gap" (tpl itemGap)
    |> add_if (differs align "left") "data-align" (tpl align) in
  {| dataAttrs := data;
     innerAttrs := [];
     styleObjs :=
       [ ("wrapper", wrapperStyles); ("list", listStyles);
         ("item", itemStyles); ("icon", iconStyles); ("text", textStyles) ];
     literalStyles := [] |}.

(** [CFCheckbox.render]. *)
Definition CFCheckbox_render (el : gmap string string) : Resolved :=
  let name := attr el "name" (Some "agree") in
  let checked := attr el "checked" None in
  let required := attr el "required" None in
  let labelColor := attr el "label-color" (Some "#334155") in
  let labelSize := attr el "label-size" (Some "16px") in
  let boxSize := attr el "box-size" (Some "20px") in
  let boxBg := attr el "box-bg" (Some "#ffffff") in
  let boxBorderColor := attr el "box-border-color" (Some "#d1d5db") in
  let checkColor := attr el "check-color" (Some "#ffffff") in
  let gap := attr el "gap" (Some "12px") in
  let mt := attr el "mt" None in
  let data :=
    [ ("data-type", "Checkbox/V1"); ("data-name", tpl name) ]
    |> add_if (is_lit checked "true" || is_lit checked "") "data-checked"
         "true"
    |> add_if (is_lit required "true" || is_lit required "") "data-required"
         "true" in
  let wrapperStyles :=
    [ ("width", JStr "100%");
      ("box-sizing", JStr "border-box") ]
    |> set_if (truthy mt) "margin-top" (of_opt mt) in
  let labelStyles :=
    [ ("display", JStr "flex");
      ("align-items", JStr "center");
      ("gap", of_opt gap);
      ("cursor", JStr "pointer") ] in
  let boxStyles :=
    [ ("flex-shrink", JStr "0");
      ("width", of_opt boxSize);
      ("height", of_opt boxSize);
      ("border", JStr ("2px solid " +:+ tpl boxBorderColor));
      ("border-radius", JStr "4px");
      ("background-color", of_opt boxBg);
      ("display", JStr "flex");
      ("align-items", JStr "center");
      ("justify-content", JStr "center") ] in
  let textStyles :=
    [ ("font-size", of_opt labelSize);
      ("line-height", JStr "1.5");
      ("color", of_opt labelColor) ] in
  {| dataAttrs := data;
     innerAttrs := [];
     styleObjs :=
       [ ("wrapper", wrapperStyles); ("label", labelStyles);
         ("box", boxStyles); ("text", textStyles) ];
     literalStyles :=
       [ [ ("position", "absolute"); ("opacity", "0"); ("width", "0");
           ("height", "0") ];
         [ ("color", tpl checkColor);
           ("font-size", "calc(" +:+ tpl boxSize +:+ " * 0.6)");
           ("display", "none") ] ] |}.

End Renderers.

End Assembler.

(** ** The YouTube id extraction

    The regular expression of [extractYouTubeVideoId], on strings whose
    characters are code units below 256. *)

Module Video.
Import Util.

(** [\s] on the code units below 256: tab, line feed, vertical tab, form
    feed, carriage return, space and no-break space. *)
Definition white_space (c : ascii) : bool :=
  bool_decide (nat_of_ascii c ∈ [9; 10; 11; 12; 13; 32; 160]%nat).

(** The character class [[^&\s?]]. *)
Definition id_char (c : ascii) : bool :=
  negb (bool_decide (c = "&"%char) || white_space c
        || bool_decide (c = "?"%char)).

(** The greedy [[^&\s?]+] at the start of [s]: the longest run of class
    characters (empty when the first character is not in the class). *)
Fixpoint id_run (s : string) : string :=
  match s with
  | String c s' => if id_char c then String c (id_run s') else ""
  | "" => ""
  end.

(** The literal [p] at the start of [s]: what follows it. *)
Fixpoint literal (p s : string) : option string :=
  match p with
  | "" => Some s
  | String a p' =>
      match s with
      | String b s' => if decide (a = b) then literal p' s' else None
      | "" => None
      end
  end.

(** The alternatives of the non-capturing group, in order. *)
Definition url_prefixes : list string :=
  ["youtube.com/watch?v="; "youtu.be/"; "youtube.com/embed/"].

(** One alternative followed by the capturing group, at the start of
    [s]. *)
Definition attempt (s p : string) : option string :=
  match literal p s with
  | Some rest =>
      let id := id_run rest in if decide (id = "") then None else Some id
  | None => None
  end.

(** The pattern at the start of [s]: the alternatives are tried in order,
    and the next one is tried when the group after one fails. *)
Definition match_here (s : string) : option string :=
  head (omap (attempt s) url_prefixes).

(** [url.match(...)] without the global flag: the match at the leftmost
    position that has one; the result is the capturing group. *)
Fixpoint search (s : string) : option string :=
  match match_here s with
  | Some id => Some id
  | None =>
      match s with
      | String _ s' => search s'
      | "" => None
      end
  end.

(** [function extractYouTubeVideoId(url)]:
    [if (!url) return null;
     const match = url.match(
       /(?:youtube\.com\/watch\?v=|youtu\.be\/|youtube\.com\/embed\/)([^&\s?]+)/);
     return match ? match[1] : null;]
    [extractYouTubeVideoIdForBackground] has the same body. *)
Definition extractYouTubeVideoId (url : option string) : option string :=
  if truthy url then search (default "" url) else None.

End Video.

(** ** The document tree

    A document is the forest of nodes below the body. An element carries an
    identity [id] (the object identity of the DOM node), its tag, its
    attribute map and its children. A position in the forest is the path of
    child indices leading to it; document order is the preorder of paths. *)

Module Dom.

Inductive TagKind :=
  | cf_icon | cf_divider | cf_image | cf_video | cf_headline
  | cf_subheadline | cf_paragraph | cf_button | cf_input | cf_textarea
  | cf_select | cf_checkbox | cf_bullet_list | cf_progress_bar
  | cf_video_popup | cf_countdown
  | cf_checkout_placeholder | cf_order_summary_placeholder
  | cf_confirmation_placeholder
  | cf_flex | cf_col_inner | cf_col | cf_row | cf_section | cf_popup
  | cf_page.

#[global] Instance TagKind_eq_dec : EqDecision TagKind.
Proof. solve_decision. Defined.

Inductive tag :=
  | Cf (k : TagKind)
  | Html (name : string).

#[global] Instance tag_eq_dec : EqDecision tag.
Proof. solve_decision. Defined.

#[local] Set Warnings "-register-all".

Inductive node :=
  | Text (s : string)
  | Elem (id : nat) (t : tag) (attrs : gmap string string)
      (kids : list node).

Fixpoint get_in (n : node) (p : list nat) : option node :=
  match p with
  | [] => Some n
  | i :: p' =>
      match n with
      | Elem _ _ _ kids => kids !! i ≫= λ c, get_in c p'
      | Text _ => None
      end
  end.

Definition get (d : list node) (p : list nat) : option node :=
  match p with
  | [] => None
  | i :: p' => d !! i ≫= λ c, get_in c p'
  end.

Definition attrs_of (n : node) : option (gmap string string) :=
  match n with
  | Elem _ _ a _ => Some a
  | Text _ => None
  end.

(** [el.getAttribute(name)] and [el.hasAttribute(name)] for the element at
    path [p]. *)
Definition getAttribute (d : list node) (p : list nat) (name : string)
  : option string :=
  match get d p ≫= attrs_of with
  | Some a => a !! name
  | None => None
  end.

Definition hasAttribute (d : list node) (p : list nat) (name : string)
  : bool :=
  bool_decide (is_Some (getAttribute d p name)).

(** The elements of a subtree, as relative paths in document order. *)
Fixpoint elements_in (n : node) : list (list nat) :=
  match n with
  | Text _ => []
  | Elem _ _ _ kids =>
      [] :: (fix go (i : nat) (l : list node) : list (list nat) :=
               match l with
               | [] => []
               | c :: l' => (cons i <$> elements_in c) ++ go (S i) l'
               end) 0 kids
  end.

(** The elements of a forest whose first tree has index [i]. *)
Fixpoint elements_from (i : nat) (l : list node) : list (list nat) :=
  match l with
  | [] => []
  | c :: l' => (cons i <$> elements_in c) ++ elements_from (S i) l'
  end.

Definition elements (d : list node) : list (list nat) := elements_from 0 d.

(** [el.setAttribute(name, value)] for the element at path [p]. *)
Fixpoint setAttribute_in (n : node) (p : list nat) (name value : string)
  : node :=
  match n with
  | Text s => Text s
  | Elem id t a kids =>
      match p with
      | [] => Elem id t (<[name := value]> a) kids
      | i :: p' =>
          Elem id t a (alter (λ c, setAttribute_in c p' name value) i kids)
      end
  end.

Definition setAttribute (d : list node) (p : list nat) (name value : string)
  : list node :=
  match p with
  | [] => d
  | i :: p' => alter (λ c, setAttribute_in c p' name value) i d
  end.

(** Selectors: [[name="value"]] and [[name]]. *)
Definition attr_is (d : list node) (name value : string) (p : list nat)
  : Prop :=
  getAttribute d p name = Some value.

#[global] Instance attr_is_dec d name value p
  : Decision (attr_is d name value p).
Proof. unfold attr_is. apply _. Defined.

(** [document.querySelectorAll(sel)]: the matching elements in document
    order. *)
Definition querySelectorAll (d : list node) (sel : list nat → Prop)
  `{∀ p, Decision (sel p)} : list (list nat) :=
  filter sel (elements d).

(** [c] is a proper ancestor of [p]. *)
Definition descends (c p : list nat) : Prop := c `prefix_of` p ∧ c ≠ p.

(** [container.querySelectorAll(sel)]: the matching proper descendants of
    the container, in document order. *)
Definition querySelectorAll_in (d : list node) (container : list nat)
  (sel : list nat → Prop) `{∀ p, Decision (sel p)} : list (list nat) :=
  filter (λ p, descends container p ∧ sel p) (elements d).

(** The element itself and its ancestors, nearest first. *)
Definition ancestors_or_self (p : list nat) : list (list nat) :=
  (λ n, take n p) <$> reverse (seq 1 (length p)).

(** [el.closest('[name]')]. *)
Definition closest (d : list node) (name : string) (p : list nat)
  : option (list nat) :=
  find (λ q, hasAttribute d q name) (ancestors_or_self p).

End Dom.

(** ** The paint cascade *)

Module Cascade.
Import Util Styleguide Dom.

(** [isDirectPaintDescendant(el, paintContainer)]. *)
Definition isDirectPaintDescendant (d : list node) (el container : list nat)
  : bool :=
  bool_decide (closest d "data-paint-colors" el = Some container).

(** [if (!el.hasAttribute(marker)) el.setAttribute(name, value)], for
    [g = (marker, name, value)]. *)
Definition guard_step (el : list nat) (d : list node)
  (g : string * string * string) : list node :=
  if hasAttribute d el g.1.1 then d else setAttribute d el g.1.2 g.2.

(** The body of one [forEach] over the elements of a type: the guarded
    assignments in order, then
    [if (linkColor) el.setAttribute('data-link-color', linkColor)]; all of it
    only for a direct paint descendant. *)
Definition paint_element (container : list nat)
  (guarded : list (string * string * string)) (linkColor : option string)
  (d : list node) (el : list nat) : list node :=
  if isDirectPaintDescendant d el container then
    let d1 := foldl (guard_step el) d guarded in
    if truthy linkColor
    then setAttribute d1 el "data-link-color" (default "" linkColor)
    else d1
  else d.

(** [container.querySelectorAll('[data-type="T"]').forEach(...)]. *)
Definition paint_type (container : list nat) (type : string)
  (guarded : list (string * string * string)) (linkColor : option string)
  (d : list node) : list node :=
  foldl (paint_element container guarded linkColor) d
    (querySelectorAll_in d container (attr_is d "data-type" type)).

(** The body of [containers.forEach(container => ...)]. *)
Definition paint_container (data : option StyleguideData)
  (theme : PaintTheme) (d : list node) (container : list nat) : list node :=
  let headlineColor := getColorHex data (headlineColorId theme) in
  let subheadlineColor := getColorHex data (subheadlineColorId theme) in
  let contentColor := getColorHex data (contentColorId theme) in
  let iconColor := getColorHex data (iconColorId theme) in
  let linkColor :=
    if truthy (linkColorId theme)
    then getColorHex data <$> linkColorId theme else None in
  let d := paint_type container "Headline/V1"
             [("data-color-explicit", "data-color", headlineColor)]
             linkColor d in
  let d := paint_type container "SubHeadline/V1"
             [("data-color-explicit", "data-color", subheadlineColor)]
             linkColor d in
  let d := paint_type container "Paragraph/V1"
             [("data-color-explicit", "data-color", contentColor)]
             linkColor d in
  let d := paint_type container "Icon/V1"
             [("data-color-explicit", "data-color", iconColor)]
             None d in
  paint_type container "BulletList/V1"
    [ ("data-text-color-explicit", "data-text-color", contentColor);
      ("data-icon-color-explicit", "data-icon-color", iconColor) ]
    linkColor d.

(** The body of [paintThemes.forEach(theme => ...)]. *)
Definition paint_theme (data : option StyleguideData) (d : list node)
  (theme : PaintTheme) : list node :=
  foldl (paint_container data theme) d
    (querySelectorAll d (attr_is d "data-paint-colors" (theme_id theme))).

(** [document.querySelectorAll('[data-type="T"]:not([data-font])')
      .forEach(el => el.setAttribute('data-font', font))]. *)
Definition apply_font (type : string) (font : option string) (d : list node)
  : list node :=
  if truthy font then
    foldl (λ d el, setAttribute d el "data-font" (default "" font)) d
      (querySelectorAll d
         (λ p, attr_is d "data-type" type p
               ∧ ¬ hasAttribute d p "data-font"))
  else d.

(** [applyFontDataAttributes()]. *)
Definition applyFontDataAttributes (data : option StyleguideData)
  (d : list node) : list node :=
  match data with
  | None => d
  | Some sd =>
      let d1 :=
        match typography sd with
        | Some t =>
            d |> apply_font "Headline/V1" (headlineFont t)
              |> apply_font "SubHeadline/V1" (subheadlineFont t)
              |> apply_font "Paragraph/V1" (contentFont t)
        | None => d
        end in
      foldl (paint_theme data) d1 (default [] (paintThemes sd))
  end.

End Cascade.

(** ** The rendering scheduler *)

Module Scheduler.
Import Util Assembler Dom.

(** [tagOrder] of [initFunnelWind]. *)
Definition tagOrder : list TagKind :=
  [ cf_icon; cf_divider; cf_image; cf_video; cf_headline; cf_subheadline;
    cf_paragraph; cf_button; cf_input; cf_textarea; cf_select; cf_checkbox;
    cf_bullet_list; cf_progress_bar; cf_video_popup; cf_countdown;
    cf_checkout_placeholder; cf_order_summary_placeholder;
    cf_confirmation_placeholder;
    cf_flex; cf_col_inner; cf_col; cf_row; cf_section; cf_popup; cf_page ].

(** The structural containers, and the atomic tags that come before them. *)
Definition container (k : TagKind) : bool :=
  bool_decide
    (k ∈ [cf_flex; cf_col_inner; cf_col; cf_row; cf_section; cf_popup;
          cf_page]).


(** The tags of the [elements] table, for which [customElements.define]
    installs a [render] method: every tag except [cf-col-inner], whose entry
    is commented out. *)
Definition registered (k : TagKind) : bool :=
  bool_decide (k ≠ cf_col_inner).

(** The renderers whose output embeds [getContent(this)]. *)
Definition keeps_content (k : TagKind) : bool :=
  bool_decide
    (k ∈ [cf_page; cf_section; cf_row; cf_col; cf_col_inner; cf_flex;
          cf_popup; cf_headline; cf_subheadline; cf_paragraph; cf_button;
          cf_select; cf_checkbox; cf_bullet_list]).

(** The element with identity [i], if it is in the tree. *)
Fixpoint find_in (i : nat) (n : node) : option node :=
  match n with
  | Text _ => None
  | Elem j _ _ kids =>
      if decide (i = j) then Some n
      else (fix go (l : list node) : option node :=
              match l with
              | [] => None
              | c :: l' =>
                  match find_in i c with
                  | Some r => Some r
                  | None => go l'
                  end
              end) kids
  end.

Fixpoint find_by_id (i : nat) (l : list node) : option node :=
  match l with
  | [] => None
  | c :: l' =>
      match find_in i c with
      | Some r => Some r
      | None => find_by_id i l'
      end
  end.

(** [el.outerHTML = ...]: the element with identity [i] is replaced by the
    nodes [new]. *)
Fixpoint replace_in (i : nat) (new : list node) (n : node) : list node :=
  match n with
  | Text s => [Text s]
  | Elem j t a kids =>
      if decide (i = j) then new
      else [Elem j t a
              ((fix go (l : list node) : list node :=
                  match l with
                  | [] => []
                  | c :: l' => replace_in i new c ++ go l'
                  end) kids)]
  end.

Fixpoint replace_by_id (i : nat) (new : list node) (l : list node)
  : list node :=
  match l with
  | [] => []
  | c :: l' => replace_in i new c ++ replace_by_id i new l'
  end.

(** The identities of the elements of kind [k], in document order:
    [document.querySelectorAll(tag)]. *)
Fixpoint ids_of_kind_in (k : TagKind) (n : node) : list nat :=
  match n with
  | Text _ => []
  | Elem j t _ kids =>
      (if decide (t = Cf k) then [j] else [])
      ++ (fix go (l : list node) : list nat :=
            match l with
            | [] => []
            | c :: l' => ids_of_kind_in k c ++ go l'
            end) kids
  end.

Fixpoint ids_of_kind (k : TagKind) (l : list node) : list nat :=
  match l with
  | [] => []
  | c :: l' => ids_of_kind_in k c ++ ids_of_kind k l'
  end.

(** Parsing markup creates new elements: every element of the parsed
    content gets a fresh identity, counted up from [next]. *)
Fixpoint renumber_in (n : node) (next : nat) : node * nat :=
  match n with
  | Text s => (Text s, next)
  | Elem _ t a kids =>
      let r :=
        (fix go (l : list node) (nx : nat) : list node * nat :=
           match l with
           | [] => ([], nx)
           | c :: l' =>
               let r1 := renumber_in c nx in
               let r2 := go l' r1.2 in
               (r1.1 :: r2.1, r2.2)
           end) kids (S next) in
      (Elem next t a r.1, r.2)
  end.

Fixpoint renumber (l : list node) (next : nat) : list node * nat :=
  match l with
  | [] => ([], next)
  | c :: l' =>
      let r1 := renumber_in c next in
      let r2 := renumber l' r1.2 in
      (r1.1 :: r2.1, r2.2)
  end.

(** One [render()] call, as the scheduler sees it. *)
Record event := {
  ev_id : nat;
  ev_kind : TagKind;
  ev_attached : bool;
  ev_content : list node
}.

(** The document, the next fresh identity, the identities whose [_rendered]
    flag is set, and the calls made so far (oldest first).
    [CFElement.connectedCallback] defers a render call to the next animation
    frame, guarded by [parentNode]; those calls run outside [initFunnelWind].
    What they have done before a pass starts is in the state the pass starts
    from: the document, and the [flagged] identities. *)
Record state := {
  doc : list node;
  next : nat;
  flagged : list nat;
  trace : list event
}.

Section Scheduler.

(** What [el.render()] resolves for a tag and its attributes. *)
Variable render : TagKind → gmap string string → Resolved.

Definition style_at (r : Resolved) (n : nat) : string :=
  buildStyle (default [] (snd <$> styleObjs r !! n)).

(** The markup [render()] assigns to [outerHTML], around the captured
    [content]: the element that carries the data-attributes and, for a
    column, its inner element. Other markup of the template is not
    modelled. *)
Definition output (r : Resolved) (next : nat) (content : list node)
  : list node :=
  let outer := list_to_map (dataAttrs r ++ [("style", style_at r 0)]) in
  match innerAttrs r with
  | [] => [Elem next (Html "div") outer content]
  | ia =>
      [Elem next (Html "div") outer
         [Elem (S next) (Html "div")
            (list_to_map (ia ++ [("style", style_at r 1)])) content]]
  end.

(** [el.render(); el._rendered = true] for the element with identity [i],
    which the query found as an element of kind [k]. The content is captured
    as it is at this moment and parsed back into new elements. An element
    that is no longer in the document renders without effect on it. *)
Definition render_element (k : TagKind) (s : state) (i : nat) : state :=
  match find_by_id i (doc s) with
  | Some (Elem _ _ a kids) =>
      let content := if keeps_content k then kids else [] in
      let r := renumber content (S (S (next s))) in
      {| doc := replace_by_id i (output (render k a) (next s) r.1) (doc s);
         next := r.2;
         flagged := i :: flagged s;
         trace := trace s ++ [{| ev_id := i; ev_kind := k;
                                 ev_attached := true;
                                 ev_content := content |}] |}
  | _ =>
      {| doc := doc s;
         next := next s;
         flagged := i :: flagged s;
         trace := trace s ++ [{| ev_id := i; ev_kind := k;
                                 ev_attached := false;
                                 ev_content := [] |}] |}
  end.

(** [if (el.render && !el._rendered) { el.render(); el._rendered = true }]. *)
Definition visit (k : TagKind) (s : state) (i : nat) : state :=
  if registered k && bool_decide (i ∉ flagged s) then render_element k s i
  else s.

(** [document.querySelectorAll(tag).forEach(...)]: the list of elements is
    fixed when the loop starts. *)
Definition process_kind (s : state) (k : TagKind) : state :=
  foldl (visit k) s (ids_of_kind k (doc s)).

(** The rendering loop of [initFunnelWind]. *)
Definition render_pass (s : state) : state := foldl process_kind s tagOrder.

(** [page.setAttribute('data-rendered', 'true')] on every [cf-page]. *)
Fixpoint mark_pages_in (n : node) : node :=
  match n with
  | Text s => Text s
  | Elem j t a kids =>
      Elem j t
        (if decide (t = Cf cf_page) then <["data-rendered" := "true"]> a
         else a)
        ((fix go (l : list node) : list node :=
            match l with
            | [] => []
            | c :: l' => mark_pages_in c :: go l'
            end) kids)
  end.

(** [initFunnelWind()], up to the point where it hands over to the next
    animation frame. *)
Definition initFunnelWind (s : state) : state :=
  let s' := render_pass s in
  {| doc := mark_pages_in <$> doc s';
     next := next s';
     flagged := flagged s';
     trace := trace s' |}.

End Scheduler.

End Scheduler.

(** ** Initialisation *)

Module Pipeline.
Import Util Styleguide Assembler Dom Cascade Scheduler.

(** The outcome of a call that may throw. *)
Inductive outcome (A : Type) :=
  | Returns (a : A)
  | Throws (e : string).
Arguments Returns {A} a.
Arguments Throws {A} e.

(** [try { body } catch (e) { handler }]. *)
Definition try_catch {A} (body : outcome A) (handler : string → outcome A)
  : outcome A :=
  match body with
  | Returns a => Returns a
  | Throws e => handler e
  end.

Definition bind {A B} (x : outcome A) (f : A → outcome B) : outcome B :=
  match x with
  | Returns a => f a
  | Throws e => Throws e
  end.

(** The fields of the styleguide manager. *)
Record Manager := {
  data : option StyleguideData;
  styleElement : bool
}.

(** The [constructor]. *)
Definition new_StyleguideManager : Manager :=
  {| data := None; styleElement := false |}.

(** [injectCSS()]: the stylesheet is generated and attached, then the
    cascade runs over the document as it is at that moment. *)
Definition injectCSS (m : Manager) (d : list node) : Manager * list node :=
  match data m with
  | None => (m, d)
  | Some _ =>
      ({| data := data m; styleElement := true |},
       applyFontDataAttributes (data m) d)
  end.

Section Init.

(** [JSON.parse] on the text of the embedded script elements. *)
Variable JSON_parse : string → outcome StyleguideData.
Variable JSON_parse_assets : string → outcome (gmap string (list string)).

(** [StyleguideManager.init(styleguideData = null)]; [scriptEl] is the text
    of the element with id [cf-styleguide-data], if there is one. The result
    [None] of the first part is the early [return] of the [catch] block. *)
Definition init (m : Manager) (styleguideData : option StyleguideData)
  (scriptEl : option string) (d : list node)
  : outcome (Manager * list node) :=
  bind
    (match styleguideData with
     | Some sd =>
         Returns (Some {| data := Some sd; styleElement := styleElement m |})
     | None =>
         match scriptEl with
         | Some text =>
             try_catch
               (bind (JSON_parse text) (λ sd,
                  Returns (Some {| data := Some sd;
                                   styleElement := styleElement m |})))
               (λ _, Returns None)
         | None => Returns (Some m)
         end
     end)
    (λ r,
       match r with
       | None => Returns (m, d)
       | Some m' => Returns (injectCSS m' d)
       end).

(** [BrandAssetsManager.init(brandAssets = null)]. *)
Definition init_assets (b : option (gmap string (list string)))
  (brandAssets : option (gmap string (list string)))
  (scriptEl : option string)
  : outcome (option (gmap string (list string))) :=
  match brandAssets with
  | Some a => Returns (Some a)
  | None =>
      match scriptEl with
      | Some text =>
          try_catch (bind (JSON_parse_assets text) (λ a, Returns (Some a)))
            (λ _, Returns b)
      | None => Returns b
      end
  end.

(** The renderer table: the tags whose assembler is modelled, and [other]
    for the rest. *)
Definition renderers (sg : option StyleguideData)
  (brand : option (gmap string (list string)))
  (extractYouTubeVideoId : option string → option string)
  (other : TagKind → gmap string string → Resolved)
  (k : TagKind) : gmap string string → Resolved :=
  match k with
  | cf_section => CFSection_render sg brand extractYouTubeVideoId
  | cf_row => CFRow_render sg brand
  | cf_col => CFCol_render sg brand
  | cf_flex => CFFlex_render sg
  | cf_headline => CFHeadline_render sg
  | cf_subheadline => CFSubheadline_render sg
  | cf_paragraph => CFParagraph_render sg
  | cf_button => CFButton_render sg
  | cf_image => CFImage_render sg brand
  | cf_icon => CFIcon_render
  | cf_video => CFVideo_render sg
  | cf_divider => CFDivider_render
  | cf_bullet_list => CFBulletList_render sg
  | cf_checkbox => CFCheckbox_render
  | _ => other k
  end.

Variable extractYouTubeVideoId : option string → option string.
Variable other : TagKind → gmap string string → Resolved.

(** The handler that runs when the document is ready:
    [loadGoogleFonts(); styleguideManager.init(); brandAssetsManager.init();
    initFunnelWind();]. Font loading does not touch the document model. *)
Definition auto_init (styleguideScript assetsScript : option string)
  (s : state) : outcome (Manager * state) :=
  bind (init new_StyleguideManager None styleguideScript (doc s)) (λ md,
  bind (init_assets None None assetsScript) (λ brand,
  Returns
    (md.1,
     initFunnelWind
       (renderers (data md.1) brand extractYouTubeVideoId other)
       {| doc := md.2; next := next s; flagged := flagged s;
          trace := trace s |}))).

End Init.

End Pipeline.

(** ** Statements

    The notions the properties below are stated with. *)

Module Statements.
Import Util Presets Numbers Styleguide Assembler Dom Cascade Scheduler.
Import Pipeline.

(** The declarations a style object gives rise to, as the specification
    has it: the properties whose value is a non-empty string, in order. *)
Definition emitted (o : list (string * jsval)) : list (string * string) :=
  omap (λ kv, match kv.2 with
              | JStr s => if decide (s = "") then None else Some (kv.1, s)
              | _ => None
              end) o.

(** The declarations of every style attribute of a resolved element: those
    that [buildStyle] forms from the style objects, and those the template
    writes literally. *)
Definition object_declarations (o : list (string * jsval))
  : list (string * string) :=
  (λ kv : string * jsval, (kv.1, to_str kv.2)) <$> filter kept o.

Definition inline_declarations (r : Resolved) : list (string * string) :=
  concat ((λ po : string * list (string * jsval), object_declarations po.2)
            <$> styleObjs r)
  ++ concat (literalStyles r).

(** The value of a property in a style object. *)
Definition property (o : list (string * jsval)) (name : string)
  : option jsval :=
  snd <$> find (λ kv, bool_decide (kv.1 = name)) o.









(** The renderers that consult the styleguide catalogs for [shadow],
    [border] and [corner]. *)
Inductive CatalogTag := TSection | TRow | TCol | TFlex | TImage | TVideo.

Definition catalog_render (sg : option StyleguideData)
  (brand : option (gmap string (list string)))
  (extractYouTubeVideoId : option string → option string)
  (t : CatalogTag) : gmap string string → Resolved :=
  match t with
  | TSection => CFSection_render sg brand extractYouTubeVideoId
  | TRow => CFRow_render sg brand
  | TCol => CFCol_render sg brand
  | TFlex => CFFlex_render sg
  | TImage => CFImage_render sg brand
  | TVideo => CFVideo_render sg
  end.

(** The properties a button takes from its catalog style. *)
Definition button_properties : list string :=
  [ "background-color"; "border-radius"; "border-style"; "border-width";
    "border-color"; "box-shadow"; "color" ].

(** A small styleguide, for the examples. *)
Definition sample_styleguide : StyleguideData := {|
  colors := Some [ {| color_id := "c-white"; hex := "#ffffff" |};
                   {| color_id := "c-ink"; hex := "#0f172a" |} ];
  paintThemes := Some
    [ {| theme_id := "dark"; backgroundColorId := "c-ink";
         headlineColorId := "c-white"; subheadlineColorId := "c-white";
         contentColorId := "c-white"; iconColorId := "c-white";
         linkColorId := None |};
      {| theme_id := "light"; backgroundColorId := "c-white";
         headlineColorId := "c-ink"; subheadlineColorId := "c-ink";
         contentColorId := "c-ink"; iconColorId := "c-ink";
         linkColorId := Some "c-ink" |} ];
  typography := Some {| baseSize := Some 16%Q; scaleRatio := Some (5 # 4)%Q;
                        headlineFont := None; subheadlineFont := None;
                        contentFont := None |};
  shadows := Some ["style1"; "style2"];
  borders := Some ["style1"];
  corners := Some ["style1"];
  buttons := Some ["style1"]
|}.





(** *** The paint cascade *)

(** The attributes the cascade writes. *)
Definition painted : list string :=
  [ "data-color"; "data-link-color"; "data-text-color"; "data-icon-color";
    "data-font" ].

(** Two documents with the same elements, which agree on every attribute
    the cascade does not write. *)
Definition stable (d d' : list node) : Prop :=
  elements d' = elements d
  ∧ ∀ p name, name ∉ painted → getAttribute d' p name = getAttribute d p name.

(** Markers are not written, and what is written is not the link colour. *)
Definition guards_ok (guarded : list (string * string * string)) : Prop :=
  Forall (λ g, (g.1.1 ∉ painted) ∧ (g.1.2 ∈ painted)
               ∧ (g.1.2 ≠ "data-link-color")) guarded.

(** The value the guarded assignments leave in attribute [name], if they
    assign it, given which markers the element [has]. *)
Fixpoint painted_value (guarded : list (string * string * string))
  (has : string → bool) (name : string) : option string :=
  match guarded with
  | [] => None
  | g :: gs =>
      match painted_value gs has name with
      | Some v => Some v
      | None =>
          if negb (has g.1.1) && bool_decide (g.1.2 = name) then Some g.2
          else None
      end
  end.

(** An attribute after the guarded assignments: the assigned value, if
    there is one, else the old value. *)
Definition repaint (v old : option string) : option string :=
  match v with
  | Some x => Some x
  | None => old
  end.

(** The guarded assignments of [paint_container] for a [data-type]. *)
Definition guards_of (data : option StyleguideData) (th : PaintTheme)
  (T : string) : list (string * string * string) :=
  if decide (T = "Headline/V1") then
    [("data-color-explicit", "data-color",
      getColorHex data (headlineColorId th))]
  else if decide (T = "SubHeadline/V1") then
    [("data-color-explicit", "data-color",
      getColorHex data (subheadlineColorId th))]
  else if decide (T = "Paragraph/V1") then
    [("data-color-explicit", "data-color",
      getColorHex data (contentColorId th))]
  else if decide (T = "Icon/V1") then
    [("data-color-explicit", "data-color", getColorHex data (iconColorId th))]
  else if decide (T = "BulletList/V1") then
    [("data-text-color-explicit", "data-text-color",
      getColorHex data (contentColorId th));
     ("data-icon-color-explicit", "data-icon-color",
      getColorHex data (iconColorId th))]
  else [].

(** The types the cascade looks for. *)
Definition painted_types : list string :=
  [ "Headline/V1"; "SubHeadline/V1"; "Paragraph/V1"; "Icon/V1";
    "BulletList/V1" ].



(** A renderer that writes nothing, for the tags that are not modelled. *)
Definition bare : TagKind → gmap string string → Resolved :=
  λ _ _, {| dataAttrs := []; innerAttrs := []; styleObjs := [];
            literalStyles := [] |}.

(** Two sibling sections with different paint themes. *)
Definition two_sections : state :=
  {| doc :=
       [ Elem 0 (Cf cf_section) {[ "paint" := "dark" ]}
           [ Elem 1 (Cf cf_headline) ∅ [Text "A"];
             Elem 2 (Cf cf_headline) {[ "color" := "#ff0000" ]} [Text "B"];
             Elem 3 (Cf cf_bullet_list) {[ "text-color" := "#ff0000" ]} [] ];
         Elem 4 (Cf cf_section) {[ "paint" := "light" ]}
           [ Elem 5 (Cf cf_headline) ∅ [Text "C"] ] ];
     next := 6; flagged := []; trace := [] |}.

Definition rendered_sections : list node :=
  doc (initFunnelWind
         (renderers (Some sample_styleguide) None (λ _, None) bare)
         two_sections).

(** A painted section with one headline, as written by the author. *)
Definition painted_section : state :=
  {| doc := [Elem 0 (Cf cf_section) {[ "paint" := "dark" ]}
               [Elem 1 (Cf cf_headline) ∅ [Text "Hi"]]];
     next := 2; flagged := []; trace := [] |}.

(** *** The rendering scheduler *)

(** The identities of the elements of a forest, in document order. *)
Fixpoint ids_in (n : node) : list nat :=
  match n with
  | Text _ => []
  | Elem j _ _ kids =>
      j :: (fix go (l : list node) : list nat :=
              match l with
              | [] => []
              | c :: l' => ids_in c ++ go l'
              end) kids
  end.

Fixpoint ids (l : list node) : list nat :=
  match l with
  | [] => []
  | c :: l' => ids_in c ++ ids l'
  end.







(** The names [buildAnimationAttrs] writes. *)
Definition animation_names : list string :=
  [ "data-skip-animation-settings"; "data-animation-type";
    "data-animation-time"; "data-animation-delay"; "data-animation-trigger";
    "data-animation-timing-function"; "data-animation-direction";
    "data-animation-once"; "data-animation-loop" ].

(** *** The cascade, attribute by attribute *)

(** The typography font the cascade gives to an element of type [T]. *)
Definition typography_font (sd : StyleguideData) (T : string)
  : option string :=
  match typography sd with
  | Some t =>
      let f :=
        if decide (T = "Headline/V1") then headlineFont t
        else if decide (T = "SubHeadline/V1") then subheadlineFont t
        else if decide (T = "Paragraph/V1") then contentFont t
        else None in
      if truthy f then f else None
  | None => None
  end.




(** [if (linkColor) el.setAttribute('data-link-color', linkColor)] on the
    value of the attribute. *)
Definition relink (link old : option string) : option string :=
  if truthy link then Some (default "" link) else old.

(** *** The whole pass *)


(** No registered tag is left in the forest. *)
Definition resolved_tags (d : list node) : Prop :=
  ∀ k, registered k = true → ids_of_kind k d = [].

(** *** Video ids *)

Import Video.

(** Every character of [s] is in the class of the capturing group. *)
Fixpoint id_chars (s : string) : bool :=
  match s with
  | String c s' => id_char c && id_chars s'
  | "" => true
  end.

(** What the capturing group can hold. *)
Definition video_id (s : string) : Prop := s ≠ "" ∧ id_chars s = true.

(** Where the capturing group stops: at the end of the string, or before a
    character outside the class. *)
Definition id_end (rest : string) : Prop :=
  match rest with
  | String c _ => id_char c = false
  | "" => True
  end.

(** The character [c] occurs in [s]. *)
Fixpoint occurs (c : ascii) (s : string) : bool :=
  match s with
  | String b s' => bool_decide (b = c) || occurs c s'
  | "" => false
  end.

(** *** Documents up to attributes *)

(** A node without its attributes. *)
Fixpoint skeleton_in (n : node) : node :=
  match n with
  | Text s => Text s
  | Elem i t _ kids =>
      Elem i t ∅
        ((fix go (l : list node) : list node :=
            match l with
            | [] => []
            | c :: l' => skeleton_in c :: go l'
            end) kids)
  end.

(** A document without its attributes: what the cascade cannot change. *)
Definition skeleton (d : list node) : list node := skeleton_in <$> d.

(** *** Explicit colours *)

(** A colour attribute with value [c] (null when the tag does not carry
    it) is recorded on the output [r]: the marker [markerName] and the
    attribute [dataName] are written exactly when [c] is a non-empty string,
    and then the style object [part] declares the colour with
    [!important]. *)
Definition explicit_marker (r : Resolved) (c : option string)
  (part dataName markerName : string) : Prop :=
  data_of r markerName = (if truthy c then Some "true" else None)
  ∧ data_of r dataName = (if truthy c then c else None)
  ∧ property (styles_of r part) "color"
    = (if truthy c then Some (JStr (default "" c +:+ " !important"))
       else None).

(** *** Backgrounds *)

(** The background declarations of a style object, given the [paint],
    [gradient] and [bg] attributes: [gradient] is declared as [background]
    unless [paint] is set, [bg] as [background-color] unless [paint] or
    [gradient] is. *)
Definition background_precedence (o : list (string * jsval))
  (paint gradient bg : option string) : Prop :=
  property o "background"
  = (if negb (truthy paint) && truthy gradient then Some (of_opt gradient)
     else None)
  ∧ property o "background-color"
    = (if negb (truthy paint) && negb (truthy gradient) && truthy bg
       then Some (of_opt bg) else None).

End Statements.

(** * Properties *)

Import Statements.

(** ** Video ids *)

Section VideoId.
Import Util Video.

Lemma append_cons (c : ascii) (r s : string) :
  String c r +:+ s = String c (r +:+ s).
Proof. reflexivity. Qed.

Lemma append_nil (s : string) : "" +:+ s = s.
Proof. reflexivity. Qed.

Lemma literal_Some (p s r : string) : literal p s = Some r ↔ s = p +:+ r.
Proof.
  revert s. induction p as [|a p IH]; intros s; cbn [literal].
  - rewrite append_nil. split; [by intros [= ->]|by intros ->].
  - rewrite append_cons. destruct s as [|b s]; [done|]. case_decide as Hab.
    + subst b. rewrite IH. split; [by intros ->|by intros [= ->]].
    + split; [done|]. intros [= -> _]. done.
Qed.

Lemma id_run_split (r : string) :
  ∃ rest, r = id_run r +:+ rest ∧ id_chars (id_run r) = true ∧ id_end rest.
Proof.
  induction r as [|c r (rest & Hr & Hid & He)]; [by exists ""|].
  cbn [id_run]. destruct (id_char c) eqn:Hc.
  - exists rest. cbn [id_chars]. by rewrite append_cons, Hc, Hid, <- Hr.
  - exists (String c r). done.
Qed.

Lemma id_run_app (id rest : string) :
  id_chars id = true → id_end rest → id_run (id +:+ rest) = id.
Proof.
  intros Hid He. induction id as [|c id IH].
  - rewrite append_nil. destruct rest as [|c rest]; [done|].
    cbn in *. by rewrite He.
  - cbn [id_chars] in Hid. apply andb_prop in Hid as [Hc Hid].
    rewrite append_cons. cbn [id_run]. by rewrite Hc, IH.
Qed.

Lemma app_assoc_s (a b c : string) : (a +:+ b) +:+ c = a +:+ b +:+ c.
Proof.
  induction a as [|x a IH]; [done|]. by rewrite !append_cons, IH.
Qed.

Lemma attempt_Some (s p id : string) :
  attempt s p = Some id →
  ∃ rest, s = p +:+ id +:+ rest ∧ video_id id ∧ id_end rest.
Proof.
  unfold attempt. destruct (literal p s) as [r|] eqn:Hl; [|done].
  apply literal_Some in Hl as ->. cbn zeta. case_decide as Hne; [done|].
  intros [= <-]. destruct (id_run_split r) as (rest & Hr & Hid & He).
  exists rest. split; [by f_equal|]. by repeat split.
Qed.

Lemma attempt_occurrence (p c rest : string) (a : ascii) :
  id_char a = true → attempt (p +:+ String a rest) p ≠ None.
Proof.
  intros Ha. unfold attempt.
  rewrite (proj2 (literal_Some p _ (String a rest)) eq_refl).
  cbn [id_run]. by rewrite Ha.
Qed.

Lemma match_here_Some (s id : string) :
  match_here s = Some id → ∃ p, p ∈ url_prefixes ∧ attempt s p = Some id.
Proof.
  unfold match_here. intros Hh.
  assert (id ∈ omap (attempt s) url_prefixes) as Hin.
  { destruct (omap (attempt s) url_prefixes) as [|x l]; [done|].
    injection Hh as ->. apply list_elem_of_here. }
  by apply list_elem_of_omap in Hin.
Qed.

Lemma match_here_None (s p : string) :
  match_here s = None → p ∈ url_prefixes → attempt s p = None.
Proof.
  unfold match_here. intros Hh Hp.
  destruct (attempt s p) as [id|] eqn:Ha; [|done].
  assert (id ∈ omap (attempt s) url_prefixes) as Hin
    by (apply list_elem_of_omap; by exists p).
  destruct (omap (attempt s) url_prefixes); [by apply elem_of_nil in Hin|done].
Qed.

Lemma search_Some (s id : string) :
  search s = Some id →
  ∃ pre p rest, s = pre +:+ p +:+ id +:+ rest ∧ p ∈ url_prefixes
                ∧ video_id id ∧ id_end rest.
Proof.
  induction s as [|c s IH].
  - cbn [search]. destruct (match_here "") as [x|] eqn:Hm; [|done].
    intros [= ->]. apply match_here_Some in Hm as (p & Hp & Ha).
    apply attempt_Some in Ha as (rest & Hs & Hid & He).
    by exists "", p, rest.
  - cbn [search]. destruct (match_here (String c s)) as [x|] eqn:Hm.
    + intros [= ->]. apply match_here_Some in Hm as (p & Hp & Ha).
      apply attempt_Some in Ha as (rest & Hs & Hid & He).
      by exists "", p, rest.
    + intros (pre & p & rest & -> & Hp & Hid & He)%IH.
      by exists (String c pre), p, rest.
Qed.

Lemma search_None (pre p rest : string) (a : ascii) :
  p ∈ url_prefixes → id_char a = true →
  search (pre +:+ p +:+ String a rest) ≠ None.
Proof.
  intros Hp Ha. induction pre as [|c pre IH].
  - rewrite append_nil.
    assert (match_here (p +:+ String a rest) ≠ None) as Hm.
    { intros Hm. by eapply attempt_occurrence, match_here_None. }
    destruct (p +:+ String a rest); cbn [search];
      by destruct (match_here _).
  - rewrite append_cons. cbn [search]. by destruct (match_here _).
Qed.

Lemma match_here_other (c : ascii) (s : string) :
  c ≠ "y"%char → match_here (String c s) = None.
Proof.
  intros Hc. unfold match_here, url_prefixes. cbn [omap list_omap].
  unfold attempt. cbn [literal]. by rewrite !decide_False by congruence.
Qed.

Lemma search_skip (pre s : string) :
  occurs "y" pre = false → search (pre +:+ s) = search s.
Proof.
  induction pre as [|c pre IH]; [done|]. cbn [occurs].
  intros [Hc Hpre]%orb_false_elim. rewrite append_cons. cbn [search].
  rewrite match_here_other by (by case_bool_decide). by apply IH.
Qed.

Lemma attempt_prefix (p id rest : string) :
  video_id id → id_end rest → attempt (p +:+ id +:+ rest) p = Some id.
Proof.
  intros [Hne Hid] He. unfold attempt.
  rewrite (proj2 (literal_Some p _ (id +:+ rest)) eq_refl). cbn zeta.
  by rewrite id_run_app, decide_False.
Qed.

Lemma match_here_prefix (p id rest : string) :
  p ∈ url_prefixes → video_id id → id_end rest →
  match_here (p +:+ id +:+ rest) = Some id.
Proof.
  intros Hp Hid He. unfold match_here, url_prefixes in *.
  repeat (apply elem_of_cons in Hp as [->|Hp]);
    [..|by apply elem_of_nil in Hp]; cbn [omap list_omap].
  - by rewrite attempt_prefix.
  - rewrite attempt_prefix by done. unfold attempt at 1.
    by assert (literal "youtube.com/watch?v=" ("youtu.be/" +:+ id +:+ rest)
               = None) as -> by by vm_compute.
  - rewrite attempt_prefix by done. unfold attempt.
    assert (literal "youtube.com/watch?v="
              ("youtube.com/embed/" +:+ id +:+ rest) = None) as ->
      by by vm_compute.
    by assert (literal "youtu.be/" ("youtube.com/embed/" +:+ id +:+ rest)
               = None) as -> by by vm_compute.
Qed.

Lemma extract_search (u : string) :
  extractYouTubeVideoId (Some u) = search u.
Proof. by destruct u. Qed.

(** X11. [extractYouTubeVideoId] returns an id exactly when the URL holds
    one of the three prefixes followed by a character that is not [&], [?]
    or white space. The id it returns is not empty, holds none of these
    characters, follows one of the prefixes in the URL, and runs up to the
    end of the URL or to the first such character. *)
Theorem video_id_extracted (url : option string) :
  (∀ id, extractYouTubeVideoId url = Some id →
     ∃ pre p rest, url = Some (pre +:+ p +:+ id +:+ rest)
                   ∧ p ∈ url_prefixes ∧ video_id id ∧ id_end rest)
  ∧ (extractYouTubeVideoId url = None ↔
     ∀ pre p a rest, p ∈ url_prefixes → id_char a = true →
                     url ≠ Some (pre +:+ p +:+ String a rest)).
Proof.
  destruct url as [u|]; [|done]. rewrite extract_search. split.
  - intros id (pre & p & rest & -> & ?)%search_Some. by exists pre, p, rest.
  - split.
    + intros Hn pre p a rest Hp Ha [= ->]. by eapply search_None.
    + intros Hno. destruct (search u) as [id|] eqn:Hs; [|done].
      apply search_Some in Hs as (pre & p & rest & -> & Hp & [Hne Hid] & He).
      destruct id as [|a id]; [done|]. cbn [id_chars] in Hid.
      apply andb_prop in Hid as [Ha _].
      by destruct (Hno pre p a (id +:+ rest) Hp Ha).
Qed.

(** X12. A URL made of a head without the letter [y], one of the three
    prefixes, an id, and a tail that is empty or starts with [&], [?] or
    white space, gives back the id. *)
Theorem video_id_round_trip (pre p id rest : string) :
  occurs "y" pre = false → p ∈ url_prefixes → video_id id → id_end rest →
  extractYouTubeVideoId (Some (pre +:+ p +:+ id +:+ rest)) = Some id.
Proof.
  intros Hpre Hp Hid He. rewrite extract_search, search_skip by done.
  pose proof (match_here_prefix p id rest Hp Hid He) as Hm.
  destruct (p +:+ id +:+ rest); cbn [search]; by rewrite Hm.
Qed.

Lemma video_id_round_trip_witness :
  extractYouTubeVideoId
    (Some "https://www.youtube.com/watch?v=dQw4w9WgXcQ&t=42s")
  = Some "dQw4w9WgXcQ".
Proof.
  apply (video_id_round_trip "https://www." "youtube.com/watch?v="
           "dQw4w9WgXcQ" "&t=42s"); [done|compute_done|by split|done].
Defined.

Lemma video_id_extracted_witness :
  ∃ pre p rest,
    Some "https://youtu.be/dQw4w9WgXcQ?t=1"
    = Some (pre +:+ p +:+ "dQw4w9WgXcQ" +:+ rest)
    ∧ p ∈ url_prefixes ∧ video_id "dQw4w9WgXcQ" ∧ id_end rest.
Proof.
  apply (proj1 (video_id_extracted
                  (Some "https://youtu.be/dQw4w9WgXcQ?t=1"))).
  by vm_compute.
Defined.

End VideoId.

(** ** Preset lookup *)

Section PresetLookup.
Import Presets Util.

Lemma truthy_Some (s : string) : truthy (Some s) = bool_decide (s ≠ "").
Proof.
  unfold truthy. destruct (String.eqb_spec s "") as [->|Hne]; [done|].
  symmetry. by apply bool_decide_eq_true_2.
Qed.

Lemma truthy_true (v : option string) :
  truthy v = true ↔ ∃ s, v = Some s ∧ s ≠ "".
Proof.
  destruct v as [s|]; simpl.
  - change (truthy (Some s) = true ↔ ∃ s0, Some s = Some s0 ∧ s0 ≠ "").
    rewrite truthy_Some, bool_decide_eq_true. split.
    + intros Hs. by exists s.
    + by intros (s0 & [= <-] & Hs).
  - split; [done|]. by intros (s0 & ? & _).
Qed.

Lemma truthy_tpl (v : option string) :
  truthy v = true → v = Some (to_str (of_opt v)).
Proof. intros (s & -> & _)%truthy_true. done. Qed.







Example resolve_lg : resolve (Some "lg") RADIUS = Some "16px".
Proof. reflexivity. Qed.

Example resolve_raw : resolve (Some "13px") RADIUS = Some "13px".
Proof. reflexivity. Qed.

Example resolve_empty : resolve (Some "") RADIUS = None.
Proof. reflexivity. Qed.





End PresetLookup.

(** ** The style string *)

Section StyleString.
Import Util Assembler.

Lemma kept_JStr (k s : string) : kept (k, JStr s) ↔ s ≠ "".
Proof.
  unfold kept; simpl. split.
  - intros (_ & _ & H) Hs. by subst.
  - intros Hs. repeat split; congruence.
Qed.

Lemma filter_kept_emitted (o : list (string * jsval)) :
  declaration <$> filter kept o
  = (λ d, d.1 +:+ ": " +:+ d.2) <$> emitted o.
Proof.
  induction o as [|[k v] o IH]; [done|].
  unfold emitted in *. rewrite filter_cons.
  destruct (decide (kept (k, v))) as [Hk|Hk]; destruct v as [| |s];
    cbn [omap list_omap snd fst]; try (by destruct Hk as (? & ? & ?)).
  - apply kept_JStr in Hk. rewrite decide_False by done.
    cbn. by rewrite IH.
  - done.
  - done.
  - rewrite kept_JStr in Hk. destruct (decide (s = "")); [done|].
    by destruct Hk.
Qed.

Lemma elem_of_emitted (o : list (string * jsval)) (k s : string) :
  (k, s) ∈ emitted o ↔ (k, JStr s) ∈ o ∧ s ≠ "".
Proof.
  unfold emitted. rewrite list_elem_of_omap. split.
  - intros ([k' v] & Hin & Hv). simpl in Hv. destruct v as [| |s']; try done.
    destruct (decide (s' = "")); simplify_eq. done.
  - intros [Hin Hs]. exists (k, JStr s). split; [done|]. simpl.
    by rewrite decide_False.
Qed.

(** C10, as stated, fails: the check mark of a checkbox is styled by a
    literal template, and an empty [check-color] attribute yields a
    declaration [color: ] with an empty value. *)
Lemma checkbox_empty_color_declared :
  ("color", "")
  ∈ inline_declarations (CFCheckbox_render {[ "check-color" := "" ]}).
Proof.
  apply elem_of_app. right. vm_compute.
  do 4 apply list_elem_of_further. apply list_elem_of_here.
Qed.

(** C10, amended. The style string [buildStyle] forms holds exactly the
    declarations [name: value] of the properties whose value is a non-empty
    string, joined by [; ]: a property whose value is null, undefined or the
    empty string is left out. *)
Theorem buildStyle_omits_empty (o : list (string * jsval)) :
  buildStyle o
  = String.concat "; " ((λ d, d.1 +:+ ": " +:+ d.2) <$> emitted o)
  ∧ (∀ k s, (k, s) ∈ emitted o ↔ (k, JStr s) ∈ o ∧ s ≠ "").
Proof.
  split.
  - unfold buildStyle. by rewrite filter_kept_emitted.
  - apply elem_of_emitted.
Qed.

Example buildStyle_sample :
  buildStyle [("color", JStr "red"); ("margin", JNull); ("gap", JStr "");
              ("width", JUndefined); ("top", JStr "0")]
  = "color: red; top: 0".
Proof. reflexivity. Qed.

End StyleString.

(** ** The typographic scale *)

Section Typescale.
Import Util Presets Numbers Styleguide Assembler.








End Typescale.

(** ** Font-size precedence *)

Section FontSize.
Import Util Presets Numbers Styleguide Assembler.




Lemma property_set_prop_ne (o : list (string * jsval)) (k k' : string)
  (v : jsval) :
  k ≠ k' → property (set_prop k v o) k' = property o k'.
Proof.
  intros Hne. unfold property. induction o as [|[k0 v0] o IH]; simpl.
  - by rewrite bool_decide_eq_false_2.
  - destruct (decide (k = k0)) as [->|Hk0]; simpl.
    + by rewrite !bool_decide_eq_false_2.
    + destruct (bool_decide (k0 = k')); [done|apply IH].
Qed.

Lemma property_set_if_ne (o : list (string * jsval)) (c : bool)
  (k k' : string) (v : jsval) :
  k ≠ k' → property (set_if c k v o) k' = property o k'.
Proof. destruct c; [apply property_set_prop_ne|done]. Qed.



End FontSize.

(** ** Data-attributes and catalog references *)

Section DataAttributes.
Import Util Presets Numbers Styleguide Assembler Dom Pipeline.

Lemma attr_of_app (l1 l2 : list (string * string)) (name : string) :
  attr_of (l1 ++ l2) name
  = match attr_of l1 name with
    | Some v => Some v
    | None => attr_of l2 name
    end.
Proof.
  unfold attr_of. induction l1 as [|[k v] l1 IH]; simpl; [done|].
  destruct (bool_decide (k = name)); [done|apply IH].
Qed.

Lemma attr_of_add (l : list (string * string)) (n v name : string) :
  attr_of (add n v l) name
  = match attr_of l name with
    | Some x => Some x
    | None => if String.eqb n name then Some v else None
    end.
Proof.
  unfold add. rewrite attr_of_app. destruct (attr_of l name); [done|].
  unfold attr_of; simpl. destruct (String.eqb_spec n name).
  - by rewrite bool_decide_eq_true_2.
  - by rewrite bool_decide_eq_false_2.
Qed.

Lemma attr_of_add_if (l : list (string * string)) (c : bool)
  (n v name : string) :
  attr_of (add_if c n v l) name
  = match attr_of l name with
    | Some x => Some x
    | None => if c && String.eqb n name then Some v else None
    end.
Proof.
  destruct c; simpl.
  - apply attr_of_add.
  - by destruct (attr_of l name).
Qed.

Lemma attr_of_styleguide_refs (l : list (string * string))
  (shadow border corner : option string) (s b c : bool) (name : string) :
  attr_of (add_styleguide_refs shadow border corner s b c l) name
  = match attr_of l name with
    | Some x => Some x
    | None =>
        if s && String.eqb "data-style-guide-shadow" name
        then Some (tpl shadow)
        else if b && String.eqb "data-style-guide-border" name
        then Some (tpl border)
        else if c && String.eqb "data-style-guide-corner" name
        then Some (tpl corner)
        else None
    end.
Proof.
  unfold add_styleguide_refs. rewrite !attr_of_add_if.
  destruct (attr_of l name); [done|].
  by destruct (s && String.eqb "data-style-guide-shadow" name),
    (b && String.eqb "data-style-guide-border" name),
    (c && String.eqb "data-style-guide-corner" name).
Qed.

Lemma attr_of_cons (l : list (string * string)) (n v name : string) :
  attr_of ((n, v) :: l) name
  = if String.eqb n name then Some v else attr_of l name.
Proof.
  unfold attr_of; simpl. destruct (String.eqb_spec n name).
  - by rewrite bool_decide_eq_true_2.
  - by rewrite bool_decide_eq_false_2.
Qed.

Lemma attr_of_animation (el : gmap string string) (name : string) :
  existsb (String.eqb name) animation_names = false →
  attr_of (buildAnimationAttrs el) name = None.
Proof.
  intros Hn. unfold buildAnimationAttrs.
  destruct (truthy (attr el "animation" None)); [|done].
  unfold animation_names in Hn. simpl in Hn.
  repeat (apply orb_false_elim in Hn as [?%String.eqb_neq Hn]).
  rewrite !attr_of_cons.
  repeat (match goal with
          | |- context [String.eqb ?a name] =>
              destruct (String.eqb_spec a name); [congruence|]
          end).
  done.
Qed.

Lemma tpl_attr (el : gmap string string) (name : string)
  (fallback : option string) (w : string) :
  attr el name fallback = Some w → tpl (attr el name fallback) = w.
Proof. by intros ->. Qed.

Lemma truthy_attr (el : gmap string string) (name : string)
  (fallback : option string) :
  truthy (attr el name fallback) = true →
  attr el name fallback = Some (tpl (attr el name fallback)).
Proof. apply truthy_tpl. Qed.

Lemma differs_attr (el : gmap string string) (name lit : string)
  (fallback : string) :
  attr el name (Some fallback) = Some (tpl (attr el name (Some fallback))).
Proof. unfold attr. by destruct (el !! name). Qed.

Lemma attr_of_add_ne (l : list (string * string)) (n v name : string) :
  String.eqb n name = false → attr_of (add n v l) name = attr_of l name.
Proof. intros H. rewrite attr_of_add, H. by destruct (attr_of l name). Qed.

Lemma attr_of_add_if_ne (l : list (string * string)) (c : bool)
  (n v name : string) :
  String.eqb n name = false → attr_of (add_if c n v l) name = attr_of l name.
Proof.
  intros H. rewrite attr_of_add_if, H, andb_false_r.
  by destruct (attr_of l name).
Qed.

Lemma attr_of_if (c : bool) (l1 l2 : list (string * string))
  (name : string) :
  attr_of (if c then l1 else l2) name
  = if c then attr_of l1 name else attr_of l2 name.
Proof. by destruct c. Qed.

Lemma if_same {A} (c : bool) (x : A) : (if c then x else x) = x.
Proof. by destruct c. Qed.

Lemma opt_or_none {A} (o : option A) :
  match o with Some x => Some x | None => None end = o.
Proof. by destruct o. Qed.

Lemma property_set_prop_eq (o : list (string * jsval)) (k : string)
  (v : jsval) :
  property (set_prop k v o) k = Some v.
Proof.
  unfold property. induction o as [|[k0 v0] o IH]; simpl.
  - by rewrite bool_decide_eq_true_2.
  - destruct (decide (k = k0)) as [->|Hk0]; simpl.
    + by rewrite bool_decide_eq_true_2.
    + rewrite bool_decide_eq_false_2 by done. apply IH.
Qed.


Lemma property_apply_shadow (shadow : option string) (isS : bool)
  (o : list (string * jsval)) (name : string) :
  name ≠ "box-shadow" →
  property (apply_shadow shadow isS o) name = property o name.
Proof. intros. by apply property_set_if_ne. Qed.

Lemma property_apply_corner_or (corner rounded : option string) (isC : bool)
  (o : list (string * jsval)) (name : string) :
  name ≠ "border-radius" →
  property (apply_corner_or corner rounded isC o) name = property o name.
Proof. intros. by apply property_set_if_ne. Qed.

Lemma property_apply_border (border borderStyle borderColor : option string)
  (isB : bool) (o : list (string * jsval)) (name : string) :
  name ≠ "border-width" → name ≠ "border-style" → name ≠ "border-color" →
  property (apply_border border borderStyle borderColor isB o) name
  = property o name.
Proof.
  intros. unfold apply_border. rewrite property_set_if_ne by done.
  destruct (truthy border && negb isB); [|done].
  by rewrite !property_set_prop_ne.
Qed.

Ltac unfold_data :=
  unfold data_of, CFHeadline_render, CFSubheadline_render,
    CFParagraph_render, CFImage_render, CFFlex_render, CFSection_render,
    CFRow_render, CFCol_render, CFVideo_render, CFButton_render,
    CFDivider_render, text_data, icon_data;
  cbn [dataAttrs innerAttrs]; rewrite ?app_nil_r.

Ltac push_attr :=
  repeat first [ rewrite attr_of_add_if_ne by reflexivity
               | rewrite attr_of_add_ne by reflexivity
               | rewrite attr_of_add_if | rewrite attr_of_add
               | rewrite attr_of_styleguide_refs | rewrite attr_of_if
               | rewrite attr_of_cons | rewrite attr_of_app
               | rewrite attr_of_animation by reflexivity ];
  cbn [String.eqb Ascii.eqb Bool.eqb andb orb attr_of find fmap option_fmap
       option_map];
  rewrite ?andb_false_r, ?andb_true_r; cbn beta iota;
  rewrite ?if_same; cbn beta iota; rewrite ?opt_or_none.








Lemma isStyleguideRef_truthy (sg : option StyleguideData)
  (v : option string) (t : RefType) :
  isStyleguideRef sg v t = true → truthy v = true.
Proof.
  unfold isStyleguideRef. destruct sg; [|done]. by destruct (truthy v).
Qed.

Lemma attr_present (el : gmap string string) (name : string)
  (fallback : option string) :
  truthy (el !! name) = true → attr el name fallback = el !! name.
Proof. unfold attr. by destruct (el !! name). Qed.

Lemma elem_of_set_prop (k : string) (v : jsval) (o : list (string * jsval))
  (k' : string) (v' : jsval) :
  (k', v') ∈ set_prop k v o → k' = k ∨ (k', v') ∈ o.
Proof.
  induction o as [|[k0 v0] o IH]; simpl.
  - intros [= -> ->]%list_elem_of_singleton. by left.
  - destruct (decide (k = k0)) as [->|Hne].
    + intros [[= -> ->]|H]%elem_of_cons; [by left|].
      right. by apply list_elem_of_further.
    + intros [[= -> ->]|H]%elem_of_cons.
      * right. apply list_elem_of_here.
      * destruct (IH H) as [->|H']; [by left|].
        right. by apply list_elem_of_further.
Qed.

Lemma elem_of_set_if (c : bool) (k : string) (v : jsval)
  (o : list (string * jsval)) (k' : string) (v' : jsval) :
  (k', v') ∈ set_if c k v o → (k' = k ∧ c = true) ∨ (k', v') ∈ o.
Proof.
  destruct c; simpl; [|by right].
  intros [->|H]%elem_of_set_prop; [by left|by right].
Qed.

Lemma elem_of_apply_background (paint gradient bg : option string)
  (o : list (string * jsval)) (k' : string) (v' : jsval) :
  (k', v') ∈ apply_background paint gradient bg o →
  (k' = "background" ∨ k' = "background-color") ∨ (k', v') ∈ o.
Proof.
  unfold apply_background. destruct (truthy paint); [by right|].
  destruct (truthy gradient).
  - intros [->|H]%elem_of_set_prop; [left; by left|by right].
  - intros [[-> _]|H]%elem_of_set_if; [left; by right|by right].
Qed.

Lemma elem_of_apply_shadow (shadow : option string) (isS : bool)
  (o : list (string * jsval)) (k' : string) (v' : jsval) :
  (k', v') ∈ apply_shadow shadow isS o →
  (k' = "box-shadow" ∧ isS = false) ∨ (k', v') ∈ o.
Proof.
  unfold apply_shadow. intros [[-> Hc]|H]%elem_of_set_if; [left|by right].
  split; [done|]. apply andb_prop in Hc as [_ Hc]. by destruct isS.
Qed.

Lemma elem_of_apply_corner (corner rounded : option string) (isC : bool)
  (o : list (string * jsval)) (k' : string) (v' : jsval) :
  (k', v') ∈ apply_corner corner rounded isC o →
  (k' = "border-radius" ∧ truthy corner && isC = false) ∨ (k', v') ∈ o.
Proof.
  unfold apply_corner. destruct (truthy corner && isC); [by right|].
  intros [[-> Hc]|H]%elem_of_set_if; [by left|by right].
Qed.

Lemma elem_of_apply_corner_or (corner rounded : option string) (isC : bool)
  (o : list (string * jsval)) (k' : string) (v' : jsval) :
  (k', v') ∈ apply_corner_or corner rounded isC o →
  (k' = "border-radius" ∧ isC = false) ∨ (k', v') ∈ o.
Proof.
  unfold apply_corner_or. intros [[-> Hc]|H]%elem_of_set_if; [left|by right].
  split; [done|]. apply andb_prop in Hc as [Hc _]. by destruct isC.
Qed.

Lemma elem_of_apply_border (border borderStyle borderColor : option string)
  (isB : bool) (o : list (string * jsval)) (k' : string) (v' : jsval) :
  (k', v') ∈ apply_border border borderStyle borderColor isB o →
  ((k' = "border-width" ∨ k' = "border-style") ∧ isB = false)
  ∨ k' = "border-color" ∨ (k', v') ∈ o.
Proof.
  unfold apply_border. intros [[-> _]|H]%elem_of_set_if; [right; by left|].
  destruct (truthy border && negb isB) eqn:Hc; [|right; by right].
  apply andb_prop in Hc as [_ Hc].
  apply elem_of_set_prop in H as [->|H]; [left; split; [by right|by destruct isB]|].
  apply elem_of_set_prop in H as [->|H]; [left; split; [by left|by destruct isB]|].
  right. by right.
Qed.

(** Strips the updates of a style object one by one. *)
Ltac peel H :=
  repeat first
    [ apply elem_of_apply_background in H as [[?|?]|H]
    | apply elem_of_apply_shadow in H as [[? ?]|H]
    | apply elem_of_apply_corner in H as [[? ?]|H]
    | apply elem_of_apply_corner_or in H as [[? ?]|H]
    | apply elem_of_apply_border in H as [[[?|?] ?]|[?|H]]
    | apply elem_of_set_if in H as [[? ?]|H]
    | apply elem_of_set_prop in H as [?|H]
    | apply elem_of_cons in H as [?|H]
    | apply elem_of_nil in H ];
  try done.

Ltac unfold_catalog H :=
  unfold catalog_render, CFSection_render, CFRow_render, CFCol_render,
    CFFlex_render, CFImage_render, CFVideo_render, CFButton_render in H;
  cbn [styleObjs] in H.

Ltac simpl_guards H :=
  cbn [andb negb orb app] in H;
  rewrite ?andb_false_r, ?andb_false_l, ?andb_true_r, ?orb_true_r in H;
  cbn [andb negb orb app set_if] in H.

Ltac split_objects Hin :=
  repeat match type of Hin with
         | context [if ?c then _ else _] => destruct c
         end;
  cbn [app] in Hin;
  repeat (apply elem_of_cons in Hin as [Hin|Hin];
          [injection Hin as -> ->|]);
  try (by apply elem_of_nil in Hin).

Ltac undeclared el name Href :=
  let Ht := fresh "Ht" in
  let part := fresh "part" in
  let o := fresh "o" in
  let Hin := fresh "Hin" in
  let v := fresh "v" in
  let Hv := fresh "Hv" in
  pose proof (isStyleguideRef_truthy _ _ _ Href) as Ht;
  intros (part & o & Hin & v & Hv);
  unfold_catalog Hin;
  rewrite ?(attr_present el name) in Hin by done;
  rewrite ?Ht, ?Href in Hin; simpl_guards Hin;
  split_objects Hin;
  apply list_elem_of_filter in Hv as [_ Hv];
  simpl_guards Hv;
  peel Hv;
  try (rewrite Ht in *; done).

Ltac persisted el name Href :=
  let Ht := fresh "Ht" in
  pose proof (isStyleguideRef_truthy _ _ _ Href) as Ht;
  unfold catalog_render; unfold_data; push_attr;
  rewrite ?(attr_present el name) by done;
  rewrite ?Ht, ?Href; cbn [andb negb orb];
  rewrite ?orb_true_r; cbn [andb negb orb];
  repeat match goal with
         | |- context [if ?c then _ else _] => destruct c
         end;
  cbn [attr_of find fmap option_fmap option_map String.eqb Ascii.eqb
       Bool.eqb];
  symmetry; by apply truthy_tpl.

Lemma shadow_reference (sg : option StyleguideData)
  (brand : option (gmap string (list string)))
  (yt : option string → option string) (t : CatalogTag)
  (el : gmap string string) :
  isStyleguideRef sg (el !! "shadow") RShadow = true →
  ¬ declares (catalog_render sg brand yt t el) "box-shadow"
  ∧ data_of (catalog_render sg brand yt t el) "data-style-guide-shadow"
    = el !! "shadow".
Proof.
  intros Href. split.
  - destruct t; undeclared el "shadow" Href.
  - destruct t; persisted el "shadow" Href.
Qed.

Lemma border_reference (sg : option StyleguideData)
  (brand : option (gmap string (list string)))
  (yt : option string → option string) (t : CatalogTag)
  (el : gmap string string) :
  isStyleguideRef sg (el !! "border") RBorder = true →
  ¬ declares (catalog_render sg brand yt t el) "border-width"
  ∧ ¬ declares (catalog_render sg brand yt t el) "border-style"
  ∧ data_of (catalog_render sg brand yt t el) "data-style-guide-border"
    = el !! "border".
Proof.
  intros Href. repeat split.
  - destruct t; undeclared el "border" Href.
  - destruct t; undeclared el "border" Href.
  - destruct t; persisted el "border" Href.
Qed.

Lemma corner_reference (sg : option StyleguideData)
  (brand : option (gmap string (list string)))
  (yt : option string → option string) (t : CatalogTag)
  (el : gmap string string) :
  isStyleguideRef sg (el !! "corner") RCorner = true →
  ¬ declares (catalog_render sg brand yt t el) "border-radius"
  ∧ data_of (catalog_render sg brand yt t el) "data-style-guide-corner"
    = el !! "corner".
Proof.
  intros Href. split.
  - destruct t; undeclared el "corner" Href.
  - destruct t; persisted el "corner" Href.
Qed.

Lemma button_reference (sg : option StyleguideData)
  (el : gmap string string) :
  isStyleguideRef sg (el !! "style") RButton = true →
  Forall (λ p, ¬ declares (CFButton_render sg el) p) button_properties
  ∧ data_of (CFButton_render sg el) "data-style-guide-button"
    = el !! "style".
Proof.
  intros Href. split.
  - unfold button_properties.
    repeat (apply Forall_cons; split; [undeclared el "style" Href|]).
    apply Forall_nil_2.
  - persisted el "style" Href.
Qed.

(** C3, as stated, fails: the divider does not consult the catalog. With
    [style1] a shadow of the catalog, a divider with [shadow="style1"]
    declares [box-shadow: style1] inline and writes no
    [data-style-guide-shadow]. *)
Lemma divider_shadow_not_deferred :
  isStyleguideRef (Some sample_styleguide) (Some "style1") RShadow = true
  ∧ property
      (styles_of (CFDivider_render {[ "shadow" := "style1" ]}) "line")
      "box-shadow" = Some (JStr "style1")
  ∧ data_of (CFDivider_render {[ "shadow" := "style1" ]})
      "data-style-guide-shadow" = None.
Proof. repeat split; vm_compute; reflexivity. Qed.

(** C3, amended. For a section, row, column, flex container, image or
    video whose [shadow], [border] or [corner] attribute is an id of the
    catalog of that category, no style object of the output declares
    [box-shadow], respectively [border-width] and [border-style],
    respectively [border-radius], and the output carries the id as
    [data-style-guide-shadow], [data-style-guide-border] or
    [data-style-guide-corner]; for a button whose [style] attribute is an id
    of the button catalog, none of [button_properties] is declared and the
    id is carried as [data-style-guide-button]. The catalog reference wins
    over the inline resolution of that property. *)
Theorem catalog_reference_exclusive (sg : option StyleguideData)
  (brand : option (gmap string (list string)))
  (yt : option string → option string) (t : CatalogTag)
  (el : gmap string string) :
  (isStyleguideRef sg (el !! "shadow") RShadow = true →
     ¬ declares (catalog_render sg brand yt t el) "box-shadow"
     ∧ data_of (catalog_render sg brand yt t el) "data-style-guide-shadow"
       = el !! "shadow")
  ∧ (isStyleguideRef sg (el !! "border") RBorder = true →
       ¬ declares (catalog_render sg brand yt t el) "border-width"
       ∧ ¬ declares (catalog_render sg brand yt t el) "border-style"
       ∧ data_of (catalog_render sg brand yt t el) "data-style-guide-border"
         = el !! "border")
  ∧ (isStyleguideRef sg (el !! "corner") RCorner = true →
       ¬ declares (catalog_render sg brand yt t el) "border-radius"
       ∧ data_of (catalog_render sg brand yt t el) "data-style-guide-corner"
         = el !! "corner")
  ∧ (isStyleguideRef sg (el !! "style") RButton = true →
       Forall (λ p, ¬ declares (CFButton_render sg el) p) button_properties
       ∧ data_of (CFButton_render sg el) "data-style-guide-button"
         = el !! "style").
Proof.
  split; [apply shadow_reference|].
  split; [apply border_reference|].
  split; [apply corner_reference|apply button_reference].
Qed.

(** A section that names the catalog shadow [style1]. *)
Lemma catalog_reference_witness :
  isStyleguideRef (Some sample_styleguide)
    (({[ "shadow" := "style1" ]} : gmap string string) !! "shadow") RShadow
  = true
  ∧ ¬ declares
        (catalog_render (Some sample_styleguide) None (λ _, None) TSection
           {[ "shadow" := "style1" ]}) "box-shadow"
  ∧ data_of
      (catalog_render (Some sample_styleguide) None (λ _, None) TSection
         {[ "shadow" := "style1" ]}) "data-style-guide-shadow"
    = ({[ "shadow" := "style1" ]} : gmap string string) !! "shadow".
Proof.
  split; [vm_compute; reflexivity|].
  apply (proj1 (catalog_reference_exclusive (Some sample_styleguide) None
                  (λ _, None) TSection {[ "shadow" := "style1" ]})).
  vm_compute. reflexivity.
Defined.




Lemma explicit_guard (el : gmap string string) (name : string) :
  Assembler.hasAttribute el name && truthy (attr el name None)
  = truthy (el !! name).
Proof.
  unfold Assembler.hasAttribute, attr. destruct (el !! name) as [v|]; [|done].
  by rewrite bool_decide_eq_true_2.
Qed.

Lemma property_set_if_eq (o : list (string * jsval)) (c : bool)
  (k : string) (v : jsval) :
  property (set_if c k v o) k = if c then Some v else property o k.
Proof. destruct c; [apply property_set_prop_eq|done]. Qed.

Lemma tpl_truthy (el : gmap string string) (name : string) :
  truthy (el !! name) = true →
  tpl (attr el name None) = default "" (el !! name)
  ∧ el !! name = Some (default "" (el !! name)).
Proof. unfold attr. by destruct (el !! name). Qed.

Ltac marker_cases :=
  match goal with
  | |- context [truthy (?el !! ?n)] =>
      let Hc := fresh "Hc" in
      let Ht := fresh "Ht" in
      let He := fresh "He" in
      destruct (truthy (el !! n)) eqn:Hc; [|done];
      destruct (tpl_truthy el n Hc) as [Ht He];
      first [ done | by rewrite Ht | rewrite Ht; symmetry; exact He ]
  end.

Ltac marker_attr :=
  unfold_data; push_attr; rewrite ?explicit_guard; marker_cases.

Ltac marker_style :=
  unfold styles_of; cbn [styleObjs find fst snd];
  repeat first [ rewrite bool_decide_eq_false_2 by done
               | rewrite bool_decide_eq_true_2 by done ];
  cbn [default from_option id fmap option_fmap option_map snd];
  rewrite ?property_set_if_ne by done;
  rewrite property_set_if_eq, explicit_guard; marker_cases.

Ltac marker_data :=
  unfold data_of; cbn [dataAttrs innerAttrs]; rewrite ?app_nil_r;
  push_attr; rewrite ?explicit_guard; marker_cases.

(** X10. A headline, subheadline, paragraph or icon writes [data-color]
    and the marker [data-color-explicit="true"] exactly when its [color]
    attribute is a non-empty string, and then its text (icon) style declares
    that colour with [!important]; otherwise neither attribute is written and
    no colour is declared. A bullet list does the same with [text-color] and
    [icon-color], each with its own attribute and marker. *)
Theorem explicit_colour_marker (sg : option StyleguideData)
  (el : gmap string string) :
  explicit_marker (CFHeadline_render sg el) (el !! "color") "text"
    "data-color" "data-color-explicit"
  ∧ explicit_marker (CFSubheadline_render sg el) (el !! "color") "text"
      "data-color" "data-color-explicit"
  ∧ explicit_marker (CFParagraph_render sg el) (el !! "color") "text"
      "data-color" "data-color-explicit"
  ∧ explicit_marker (CFIcon_render el) (el !! "color") "icon"
      "data-color" "data-color-explicit"
  ∧ explicit_marker (CFBulletList_render sg el) (el !! "text-color") "text"
      "data-text-color" "data-text-color-explicit"
  ∧ explicit_marker (CFBulletList_render sg el) (el !! "icon-color") "icon"
      "data-icon-color" "data-icon-color-explicit".
Proof.
  unfold explicit_marker. split_and!.
  - marker_attr.
  - marker_attr.
  - unfold CFHeadline_render, text_styles. marker_style.
  - marker_attr.
  - marker_attr.
  - unfold CFSubheadline_render, text_styles. marker_style.
  - marker_attr.
  - marker_attr.
  - unfold CFParagraph_render, text_styles. marker_style.
  - unfold CFIcon_render. marker_data.
  - unfold CFIcon_render. marker_data.
  - unfold CFIcon_render. marker_style.
  - unfold CFBulletList_render. marker_data.
  - unfold CFBulletList_render. marker_data.
  - unfold CFBulletList_render. marker_style.
  - unfold CFBulletList_render. marker_data.
  - unfold CFBulletList_render. marker_data.
  - unfold CFBulletList_render. marker_style.
Qed.

(** X9. The three readers of the brand assets agree: a type has an asset
    exactly when its URL list is not empty, and its URL is the head of that
    list. A renderer replaces its image by that URL exactly when the
    [brand-asset] attribute is a non-empty string naming a type whose first
    URL is a non-empty string; in every other case the image is kept. *)
Theorem brand_asset_first_url (brand : option (gmap string (list string)))
  (brandAsset image : option string) (assetType : string) :
  (BrandAssets.hasAsset brand assetType = true
   ↔ BrandAssets.getAssetUrls brand assetType ≠ [])
  ∧ BrandAssets.getAssetUrl brand assetType
    = head (BrandAssets.getAssetUrls brand assetType)
  ∧ brand_swap brand brandAsset image
    = match
        (if truthy brandAsset
         then brandAsset ≫= (λ a, head (BrandAssets.getAssetUrls brand a)) else None)
      with
      | Some u => if decide (u = "") then image else Some u
      | None => image
      end.
Proof.
  split_and!.
  - unfold BrandAssets.hasAsset, BrandAssets.getAssetUrls. destruct brand as [d|]; [|done].
    by destruct (d !! assetType) as [[|u l]|].
  - unfold BrandAssets.getAssetUrl, BrandAssets.getAssetUrls.
    destruct brand as [d|]; [|done].
    by destruct (d !! assetType) as [[|u l]|].
  - unfold brand_swap, BrandAssets.hasAsset, BrandAssets.getAssetUrl,
      BrandAssets.getAssetUrls.
    destruct brandAsset as [a|]; [|done]. cbn [mbind option_bind].
    destruct (truthy (Some a)); [|done]. cbn [andb].
    destruct brand as [d|]; [|done].
    destruct (d !! a) as [[|u l]|]; cbn [head]; try done.
    rewrite truthy_Some. by case_decide; case_bool_decide.
Qed.

Lemma property_apply_corner (corner rounded : option string) (isC : bool)
  (o : list (string * jsval)) (name : string) :
  name ≠ "border-radius" →
  property (apply_corner corner rounded isC o) name = property o name.
Proof.
  intros. unfold apply_corner. destruct (truthy corner && isC); [done|].
  by apply property_set_if_ne.
Qed.

Lemma property_background (paint gradient bg : option string)
  (o : list (string * jsval)) :
  property o "background" = None → property o "background-color" = None →
  background_precedence (apply_background paint gradient bg o)
    paint gradient bg.
Proof.
  intros H1 H2. unfold background_precedence, apply_background.
  destruct (truthy paint); [done|]. cbn [negb andb].
  destruct (truthy gradient).
  - by rewrite property_set_prop_eq, property_set_prop_ne.
  - rewrite property_set_if_ne by done. rewrite property_set_if_eq.
    by destruct (truthy bg).
Qed.

Ltac through_styles :=
  repeat first [ rewrite property_set_if_ne by done
               | rewrite property_set_prop_ne by done
               | rewrite property_apply_shadow by done
               | rewrite property_apply_corner by done
               | rewrite property_apply_corner_or by done
               | rewrite property_apply_border by done ].

Ltac part_styles :=
  unfold styles_of; cbn [styleObjs find fst snd];
  repeat first [ rewrite bool_decide_eq_false_2 by done
               | rewrite bool_decide_eq_true_2 by done ];
  cbn [default from_option id fmap option_fmap option_map snd].

Ltac background_case :=
  part_styles; unfold background_precedence; through_styles;
  apply property_background; through_styles; reflexivity.

Lemma attr_None (el : gmap string string) (name : string) :
  attr el name None = el !! name.
Proof. unfold attr. by destruct (el !! name). Qed.

(** X20. On a section, a row, the inner element of a column and a flex
    container, a non-empty [paint] attribute suppresses the inline
    background: neither [background] nor [background-color] is declared.
    Without [paint], a non-empty [gradient] is declared as [background] and
    suppresses [bg]; [bg] is declared as [background-color] only when both
    [paint] and [gradient] are absent or empty. No later step of the style
    assembly changes either property. *)
Theorem paint_overrides_background (sg : option StyleguideData)
  (brand : option (gmap string (list string)))
  (yt : option string → option string) (el : gmap string string) :
  let precedence (r : Resolved) (part : string) :=
    background_precedence (styles_of r part)
      (el !! "paint") (el !! "gradient") (el !! "bg") in
  precedence (CFSection_render sg brand yt el) "section"
  ∧ precedence (CFRow_render sg brand el) "row"
  ∧ precedence (CFCol_render sg brand el) "col-inner"
  ∧ precedence (CFFlex_render sg el) "flex".
Proof.
  cbn zeta. rewrite <- !attr_None. split_and!.
  - unfold CFSection_render. background_case.
  - unfold CFRow_render. background_case.
  - unfold CFCol_render. background_case.
  - unfold CFFlex_render. background_case.
Qed.

Import Video.

Lemma extract_truthy (url : option string) (id : string) :
  extractYouTubeVideoId url = Some id →
  truthy url = true ∧ truthy (Some id) = true.
Proof.
  unfold extractYouTubeVideoId. destruct (truthy url) eqn:Hu; [|done].
  intros Hs. split; [done|]. destruct url as [u|]; [|done]. cbn in Hs.
  apply search_Some in Hs as (_ & _ & _ & _ & _ & [Hne _] & _).
  rewrite truthy_Some. by apply bool_decide_eq_true_2.
Qed.

(** X19. A section writes its video background attributes exactly when
    [extractYouTubeVideoId] finds an id in its [video-bg] attribute: then
    [data-video-bg-type] is [youtube], [data-video-bg-url] is the attribute
    as written and [data-video-bg-thumbnail] is the thumbnail address built
    from the id; when no id is found, none of the three is written. *)
Theorem section_video_background (sg : option StyleguideData)
  (brand : option (gmap string (list string))) (el : gmap string string) :
  let r := CFSection_render sg brand extractYouTubeVideoId el in
  match extractYouTubeVideoId (el !! "video-bg") with
  | Some id =>
      data_of r "data-video-bg-type" = Some "youtube"
      ∧ data_of r "data-video-bg-url" = el !! "video-bg"
      ∧ data_of r "data-video-bg-thumbnail"
        = Some ("https://img.youtube.com/vi/" +:+ id
                +:+ "/maxresdefault.jpg")
  | None =>
      data_of r "data-video-bg-type" = None
      ∧ data_of r "data-video-bg-url" = None
      ∧ data_of r "data-video-bg-thumbnail" = None
  end.
Proof.
  cbn zeta.
  assert (attr el "video-bg" None = el !! "video-bg") as Ha
    by (unfold attr; by destruct (el !! "video-bg")).
  destruct (extractYouTubeVideoId (el !! "video-bg")) as [id|] eqn:He.
  - destruct (extract_truthy _ _ He) as [Hu Hid].
    split_and!; unfold_data; push_attr; rewrite ?Ha, ?He, ?Hu, ?Hid;
      cbn [andb]; [done| |done].
    symmetry. by apply truthy_tpl.
  - split_and!; unfold_data; push_attr; rewrite ?Ha, ?He;
      by rewrite andb_false_r.
Qed.

Example section_video_thumbnail :
  data_of
    (CFSection_render None None extractYouTubeVideoId
       {[ "video-bg" := "https://youtu.be/dQw4w9WgXcQ?t=1" ]})
    "data-video-bg-thumbnail"
  = Some "https://img.youtube.com/vi/dQw4w9WgXcQ/maxresdefault.jpg".
Proof. by vm_compute. Qed.

End DataAttributes.

(** ** Malformed configuration *)

Section Configuration.
Import Util Styleguide Assembler Dom Scheduler Pipeline.








(** X15. When several colours of the palette share an id, [getColorHex]
    returns the hex of the first one. *)
Theorem getColorHex_first (sd : StyleguideData) (before after : list Color)
  (c : Color) :
  colors sd = Some (before ++ c :: after) →
  color_id c ∉ color_id <$> before →
  getColorHex (Some sd) (color_id c) = hex c.
Proof.
  intros Hcs Hn. unfold getColorHex. rewrite Hcs. clear Hcs.
  induction before as [|b before IH].
  - cbn [app find]. by rewrite bool_decide_eq_true_2.
  - rewrite fmap_cons in Hn. apply not_elem_of_cons in Hn as [Hne Hn].
    cbn [app find]. rewrite bool_decide_eq_false_2 by done. by apply IH.
Qed.

Lemma getColorHex_first_witness :
  getColorHex (Some sample_styleguide) "c-ink" = "#0f172a".
Proof.
  apply (getColorHex_first sample_styleguide
           [ {| color_id := "c-white"; hex := "#ffffff" |} ] []
           {| color_id := "c-ink"; hex := "#0f172a" |}); [done|].
  compute_done.
Defined.

End Configuration.

(** ** The document model *)

Section Document.
Import Dom.

Lemma node_forall_ind (P : node → Prop) :
  (∀ s, P (Text s)) →
  (∀ id t a kids, Forall P kids → P (Elem id t a kids)) →
  ∀ n, P n.
Proof.
  intros HT HE. fix IH 1. intros [s|id t a kids]; [apply HT|].
  apply HE. induction kids as [|c kids IHk]; constructor; [apply IH|done].
Qed.

Lemma elements_in_Elem (id : nat) (t : tag) (a : gmap string string)
  (kids : list node) :
  elements_in (Elem id t a kids) = [] :: elements_from 0 kids.
Proof.
  cbn [elements_in]. f_equal.
Qed.

Lemma elements_in_setAttribute (n : node) (p : list nat) (name value : string) :
  elements_in (setAttribute_in n p name value) = elements_in n.
Proof.
  revert p. induction n as [s|id t a kids IH] using node_forall_ind;
    intros p; [done|].
  destruct p as [|i p]; cbn [setAttribute_in]; rewrite !elements_in_Elem;
    [done|].
  f_equal. generalize 0. revert i.
  induction IH as [|c kids Hc _ IHk]; intros i k; [done|].
  destruct i as [|i]; cbn [alter list_alter elements_from].
  - by rewrite Hc.
  - f_equal. apply IHk.
Qed.

Lemma elements_setAttribute (d : list node) (p : list nat)
  (name value : string) :
  elements (setAttribute d p name value) = elements d.
Proof.
  destruct p as [|i p]; [done|]. unfold elements, setAttribute.
  generalize 0. revert i.
  induction d as [|c d IH]; intros i k; [done|].
  destruct i as [|i]; cbn [alter list_alter elements_from].
  - by rewrite elements_in_setAttribute.
  - f_equal. apply IH.
Qed.

(** The attributes of the element at a path. *)
Lemma attrs_in_setAttribute (n : node) (q p : list nat) (name value : string) :
  get_in (setAttribute_in n q name value) p ≫= attrs_of
  = if decide (q = p) then <[name := value]> <$> (get_in n p ≫= attrs_of)
    else get_in n p ≫= attrs_of.
Proof.
  revert n p. induction q as [|j q IH]; intros n p.
  - destruct n as [s|id t a kids]; cbn [setAttribute_in].
    + destruct p; cbn; by case_decide.
    + destruct p as [|i p]; [by rewrite decide_True|].
      by rewrite decide_False.
  - destruct n as [s|id t a kids]; cbn [setAttribute_in].
    + destruct p; cbn; by case_decide.
    + destruct p as [|i p]; [by rewrite decide_False|].
      cbn [get_in]. destruct (decide (j = i)) as [->|Hne].
      * rewrite list_lookup_alter_eq.
        destruct (kids !! i) as [c|]; cbn [fmap option_fmap option_map mbind option_bind].
        -- rewrite IH. destruct (decide (q = p)) as [->|Hq].
           ++ by rewrite decide_True.
           ++ rewrite decide_False; [done|congruence].
        -- by case_decide.
      * rewrite list_lookup_alter_ne by done.
        rewrite decide_False; [done|congruence].
Qed.

Lemma attrs_setAttribute (d : list node) (q p : list nat) (name value : string) :
  get (setAttribute d q name value) p ≫= attrs_of
  = if decide (q = p) then <[name := value]> <$> (get d p ≫= attrs_of)
    else get d p ≫= attrs_of.
Proof.
  destruct q as [|j q]; cbn [setAttribute].
  - destruct p as [|i p]; [by rewrite decide_True|by rewrite decide_False].
  - destruct p as [|i p]; [by rewrite decide_False|].
    cbn [get]. destruct (decide (j = i)) as [->|Hne].
    + rewrite list_lookup_alter_eq.
      destruct (d !! i) as [c|]; cbn [fmap option_fmap option_map mbind option_bind].
      * rewrite attrs_in_setAttribute. destruct (decide (q = p)) as [->|Hq].
        -- by rewrite decide_True.
        -- rewrite decide_False; [done|congruence].
      * by case_decide.
    + rewrite list_lookup_alter_ne by done.
      rewrite decide_False; [done|congruence].
Qed.

Lemma getAttribute_setAttribute (d : list node) (q p : list nat)
  (n m value : string) :
  getAttribute (setAttribute d q n value) p m
  = if decide (q = p ∧ n = m) then
      (λ _ : gmap string string, value) <$> (get d p ≫= attrs_of)
    else getAttribute d p m.
Proof.
  unfold getAttribute. rewrite attrs_setAttribute.
  destruct (decide (q = p)) as [->|Hq].
  - destruct (get d p ≫= attrs_of) as [a|]; cbn [fmap option_fmap option_map].
    + destruct (decide (n = m)) as [->|Hn].
      * rewrite decide_True by done. by rewrite lookup_insert_eq.
      * rewrite decide_False by (by intros [_ ?]). by rewrite lookup_insert_ne.
    + by case_decide.
  - by rewrite decide_False by (by intros [? _]).
Qed.

Lemma elem_of_elements_from (l : list node) (k i : nat) (c : node)
  (p : list nat) :
  l !! i = Some c → p ∈ elements_in c → (k + i) :: p ∈ elements_from k l.
Proof.
  revert k i. induction l as [|c' l IH]; intros k i Hl Hp; [done|].
  cbn [elements_from]. apply elem_of_app. destruct i as [|i].
  - left. injection Hl as ->. rewrite Nat.add_0_r.
    by apply list_elem_of_fmap_2.
  - right. replace (k + S i) with (S k + i) by lia. by apply IH.
Qed.

Lemma elements_from_inv (l : list node) (k : nat) (q : list nat) :
  q ∈ elements_from k l →
  ∃ i c p, q = (k + i) :: p ∧ l !! i = Some c ∧ p ∈ elements_in c.
Proof.
  revert k. induction l as [|c' l IH]; intros k Hq.
  - by apply elem_of_nil in Hq.
  - cbn [elements_from] in Hq. apply elem_of_app in Hq as [Hq|Hq].
    + apply list_elem_of_fmap in Hq as (p & -> & Hp).
      exists 0, c', p. by rewrite Nat.add_0_r.
    + apply IH in Hq as (i & c & p & -> & Hl & Hp).
      exists (S i), c, p. split; [f_equal; lia|done].
Qed.

Lemma elem_of_elements_in (n : node) (p : list nat) :
  p ∈ elements_in n ↔ is_Some (get_in n p ≫= attrs_of).
Proof.
  revert n. induction p as [|i p IH]; intros n.
  - destruct n as [s|id t a kids]; cbn.
    + split; [by intros ?%elem_of_nil|by intros ?%is_Some_None].
    + split; [done|]. intros _. apply list_elem_of_here.
  - destruct n as [s|id t a kids].
    + cbn. split; [by intros ?%elem_of_nil|by intros ?%is_Some_None].
    + rewrite elements_in_Elem. cbn [get_in]. split.
      * intros Hq. apply elem_of_cons in Hq as [?|Hq]; [done|].
        apply elements_from_inv in Hq as (j & c & p' & Heq & Hl & Hp).
        cbn in Heq. injection Heq as -> ->. rewrite Hl. cbn.
        by apply IH.
      * intros Hs. destruct (kids !! i) as [c|] eqn:Hl;
          [|by apply is_Some_None in Hs].
        cbn in Hs. apply IH in Hs. apply list_elem_of_further.
        by apply (elem_of_elements_from kids 0 i c).
Qed.

Lemma elem_of_elements (d : list node) (p : list nat) :
  p ∈ elements d ↔ is_Some (get d p ≫= attrs_of).
Proof.
  unfold elements. split.
  - intros Hq. apply elements_from_inv in Hq as (j & c & p' & -> & Hl & Hp).
    cbn. rewrite Hl. cbn. by apply elem_of_elements_in.
  - destruct p as [|i p]; cbn [get]; [by intros ?%is_Some_None|].
    intros Hs. destruct (d !! i) as [c|] eqn:Hl;
      [|by apply is_Some_None in Hs].
    cbn in Hs. apply elem_of_elements_in in Hs.
    by apply (elem_of_elements_from d 0 i c).
Qed.

Lemma getAttribute_element (d : list node) (p : list nat) (m v : string) :
  getAttribute d p m = Some v → p ∈ elements d.
Proof.
  unfold getAttribute. intros H. apply elem_of_elements.
  by destruct (get d p ≫= attrs_of).
Qed.

Lemma getAttribute_setAttribute_eq (d : list node) (p : list nat)
  (n value : string) :
  p ∈ elements d → getAttribute (setAttribute d p n value) p n = Some value.
Proof.
  intros [a Ha]%elem_of_elements. rewrite getAttribute_setAttribute.
  rewrite decide_True by done. by rewrite Ha.
Qed.

Lemma getAttribute_setAttribute_ne (d : list node) (q p : list nat)
  (n m value : string) :
  q ≠ p ∨ n ≠ m →
  getAttribute (setAttribute d q n value) p m = getAttribute d p m.
Proof.
  intros H. rewrite getAttribute_setAttribute.
  by rewrite decide_False by (intros [? ?]; destruct H; congruence).
Qed.

End Document.

(** ** The paint cascade *)

Section PaintCascade.
Import Util Styleguide Assembler Dom Cascade Scheduler Pipeline.

Lemma stable_refl (d : list node) : stable d d.
Proof. by split. Qed.

Lemma stable_trans (d1 d2 d3 : list node) :
  stable d1 d2 → stable d2 d3 → stable d1 d3.
Proof.
  intros [He1 Ha1] [He2 Ha2]. split; [congruence|].
  intros p name Hn. by rewrite Ha2, Ha1.
Qed.

Lemma stable_setAttribute (d : list node) (p : list nat) (n v : string) :
  n ∈ painted → stable d (setAttribute d p n v).
Proof.
  intros Hn. split; [apply elements_setAttribute|].
  intros q m Hm. apply getAttribute_setAttribute_ne. right. congruence.
Qed.

Lemma stable_foldl {A} (f : list node → A → list node) (l : list A) :
  (∀ d x, stable d (f d x)) → ∀ d, stable d (foldl f d l).
Proof.
  intros Hf. induction l as [|x l IH]; intros d; [apply stable_refl|].
  cbn [foldl]. eapply stable_trans; [apply Hf|apply IH].
Qed.

Lemma stable_hasAttribute (d d' : list node) (p : list nat) (m : string) :
  stable d d' → m ∉ painted → hasAttribute d' p m = hasAttribute d p m.
Proof. intros [_ Ha] Hm. unfold hasAttribute. by rewrite Ha. Qed.

Lemma stable_closest (d d' : list node) (p : list nat) :
  stable d d' →
  closest d' "data-paint-colors" p = closest d "data-paint-colors" p.
Proof.
  intros Hs. unfold closest.
  induction (ancestors_or_self p) as [|q l IH]; [done|].
  cbn [find]. rewrite (stable_hasAttribute d d') by (done || compute_done).
  by rewrite IH.
Qed.

Lemma repaint_idem (v old : option string) :
  repaint v (repaint v old) = repaint v old.
Proof. by destruct v. Qed.

Lemma painted_value_ext (guarded : list (string * string * string))
  (has has' : string → bool) (name : string) :
  Forall (λ g, has g.1.1 = has' g.1.1) guarded →
  painted_value guarded has name = painted_value guarded has' name.
Proof.
  induction 1 as [|g gs Hg _ IH]; [done|].
  cbn [painted_value]. by rewrite IH, Hg.
Qed.

Lemma guard_step_stable (el : list nat) (d : list node)
  (g : string * string * string) :
  g.1.2 ∈ painted → stable d (guard_step el d g).
Proof.
  intros Hg. unfold guard_step. destruct (hasAttribute d el g.1.1).
  - apply stable_refl.
  - by apply stable_setAttribute.
Qed.

Lemma guards_stable (el : list nat) (guarded : list (string * string * string))
  (d : list node) :
  guards_ok guarded → stable d (foldl (guard_step el) d guarded).
Proof.
  intros Hok. revert d.
  induction Hok as [|g gs (_ & Hg & _) _ IH]; intros d; [apply stable_refl|].
  cbn [foldl]. eapply stable_trans; [by apply guard_step_stable|apply IH].
Qed.

Lemma guards_other (el p : list nat) (guarded : list (string * string * string))
  (d : list node) (m : string) :
  p ≠ el →
  getAttribute (foldl (guard_step el) d guarded) p m = getAttribute d p m.
Proof.
  intros Hne. revert d. induction guarded as [|g gs IH]; intros d; [done|].
  cbn [foldl]. rewrite IH. unfold guard_step.
  destruct (hasAttribute d el g.1.1); [done|].
  apply getAttribute_setAttribute_ne. left. congruence.
Qed.

Lemma guards_cell (el : list nat) (guarded : list (string * string * string))
  (d : list node) (m : string) :
  el ∈ elements d → guards_ok guarded →
  getAttribute (foldl (guard_step el) d guarded) el m
  = repaint (painted_value guarded (hasAttribute d el) m)
      (getAttribute d el m).
Proof.
  intros Hel Hok. revert d Hel.
  induction Hok as [|g gs (Hmk & Hg & _) Hgs IH]; intros d Hel; [done|].
  cbn [foldl painted_value].
  assert (stable d (guard_step el d g)) as Hs by by apply guard_step_stable.
  rewrite IH by (by rewrite (proj1 Hs)).
  rewrite (painted_value_ext gs _ (hasAttribute d el)).
  2:{ eapply Forall_impl; [exact Hgs|]. intros g' (Hmk' & _).
      by apply stable_hasAttribute. }
  destruct (painted_value gs (hasAttribute d el) m) as [v|]; [done|].
  cbn [repaint]. unfold guard_step.
  destruct (hasAttribute d el g.1.1); cbn [negb andb]; [done|].
  case_bool_decide as Hn.
  - rewrite <- Hn. by apply getAttribute_setAttribute_eq.
  - apply getAttribute_setAttribute_ne. by right.
Qed.

Lemma paint_element_stable (c : list nat)
  (guarded : list (string * string * string)) (link : option string)
  (d : list node) (el : list nat) :
  guards_ok guarded → stable d (paint_element c guarded link d el).
Proof.
  intros Hok. unfold paint_element.
  destruct (isDirectPaintDescendant d el c); [|apply stable_refl].
  cbn zeta. destruct (truthy link); [|by apply guards_stable].
  eapply stable_trans; [by apply guards_stable|].
  apply stable_setAttribute. compute_done.
Qed.

Lemma paint_element_other (c : list nat)
  (guarded : list (string * string * string)) (link : option string)
  (d : list node) (el p : list nat) (m : string) :
  p ≠ el →
  getAttribute (paint_element c guarded link d el) p m = getAttribute d p m.
Proof.
  intros Hne. unfold paint_element.
  destruct (isDirectPaintDescendant d el c); [|done].
  cbn zeta. destruct (truthy link).
  - rewrite getAttribute_setAttribute_ne by (left; congruence).
    by apply guards_other.
  - by apply guards_other.
Qed.

Lemma paint_element_not_direct (c : list nat)
  (guarded : list (string * string * string)) (link : option string)
  (d : list node) (el : list nat) :
  closest d "data-paint-colors" el ≠ Some c →
  paint_element c guarded link d el = d.
Proof.
  intros Hne. unfold paint_element, isDirectPaintDescendant.
  by rewrite bool_decide_eq_false_2.
Qed.

Lemma paint_element_cell (c : list nat)
  (guarded : list (string * string * string)) (link : option string)
  (d : list node) (el : list nat) (m : string) :
  el ∈ elements d → guards_ok guarded → m ≠ "data-link-color" →
  closest d "data-paint-colors" el = Some c →
  getAttribute (paint_element c guarded link d el) el m
  = repaint (painted_value guarded (hasAttribute d el) m)
      (getAttribute d el m).
Proof.
  intros Hel Hok Hm Hc. unfold paint_element, isDirectPaintDescendant. rewrite bool_decide_eq_true_2 by done.
  cbn zeta. destruct (truthy link).
  - rewrite getAttribute_setAttribute_ne by (right; congruence).
    by apply guards_cell.
  - by apply guards_cell.
Qed.

(** A fold whose steps leave a cell alone, except the steps at [x0], which
    apply an idempotent update. *)
Lemma foldl_cell {A V} `{EqDecision A} (I : list node → Prop)
  (f : list node → A → list node) (cell : list node → V) (g : V → V)
  (x0 : A) (l : list A) (d : list node) :
  (∀ d x, I d → I (f d x)) →
  (∀ d x, I d → x ≠ x0 → cell (f d x) = cell d) →
  (∀ d, I d → cell (f d x0) = g (cell d)) →
  (∀ v, g (g v) = g v) →
  I d →
  cell (foldl f d l) = if decide (x0 ∈ l) then g (cell d) else cell d.
Proof.
  intros Hinv Hother Hhit Hidem. revert d.
  induction l as [|x l IH]; intros d Hd.
  - by rewrite decide_False by apply not_elem_of_nil.
  - cbn [foldl]. rewrite IH by by apply Hinv.
    destruct (decide (x = x0)) as [->|Hne].
    + rewrite Hhit by done. rewrite Hidem.
      rewrite (decide_True (P := x0 ∈ x0 :: l)) by apply list_elem_of_here.
      by case_decide.
    + rewrite Hother by done.
      destruct (decide (x0 ∈ l)) as [Hl|Hl].
      * by rewrite decide_True by by apply list_elem_of_further.
      * rewrite decide_False; [done|].
        intros [?|?]%elem_of_cons; congruence.
Qed.

Lemma foldl_frame {A V} (I : list node → Prop)
  (f : list node → A → list node) (cell : list node → V)
  (l : list A) (d : list node) :
  (∀ d x, I d → I (f d x)) →
  (∀ d x, I d → cell (f d x) = cell d) →
  I d → cell (foldl f d l) = cell d.
Proof.
  intros Hinv Hf. revert d. induction l as [|x l IH]; intros d Hd; [done|].
  cbn [foldl]. rewrite IH by by apply Hinv. by apply Hf.
Qed.

Lemma closest_prefix (d : list node) (name : string) (p c : list nat) :
  closest d name p = Some c → c `prefix_of` p ∧ hasAttribute d c name = true.
Proof.
  unfold closest, ancestors_or_self. intros H.
  apply find_some in H as [Hin Hhas]. split; [|done].
  apply in_map_iff in Hin as (n & <- & _). apply prefix_take.
Qed.

Lemma paint_type_stable (c : list nat) (T : string)
  (guarded : list (string * string * string)) (link : option string)
  (d : list node) :
  guards_ok guarded → stable d (paint_type c T guarded link d).
Proof.
  intros Hok. unfold paint_type. apply stable_foldl.
  intros d' el. by apply paint_element_stable.
Qed.

Lemma paint_type_frame (c : list nat) (T : string)
  (guarded : list (string * string * string)) (link : option string)
  (d : list node) (p : list nat) (m : string) :
  guards_ok guarded →
  closest d "data-paint-colors" p ≠ Some c →
  getAttribute (paint_type c T guarded link d) p m = getAttribute d p m.
Proof.
  intros Hok Hc. unfold paint_type.
  apply (foldl_frame (stable d) _ (λ d, getAttribute d p m)).
  - intros d' el Hs. eapply stable_trans; [exact Hs|].
    by apply paint_element_stable.
  - intros d' el Hs. cbn beta.
    destruct (decide (p = el)) as [<-|Hne].
    + rewrite paint_element_not_direct; [done|].
      by rewrite (stable_closest d d').
    + by apply paint_element_other.
  - apply stable_refl.
Qed.

Lemma paint_type_cell (c : list nat) (T : string)
  (guarded : list (string * string * string)) (link : option string)
  (d : list node) (p : list nat) (m : string) :
  p ∈ elements d → guards_ok guarded → m ≠ "data-link-color" →
  closest d "data-paint-colors" p = Some c →
  getAttribute (paint_type c T guarded link d) p m
  = if decide (getAttribute d p "data-type" = Some T ∧ c ≠ p) then
      repaint (painted_value guarded (hasAttribute d p) m)
        (getAttribute d p m)
    else getAttribute d p m.
Proof.
  intros Hel Hok Hm Hc. unfold paint_type.
  rewrite (foldl_cell (stable d) _ (λ d, getAttribute d p m)
             (repaint (painted_value guarded (hasAttribute d p) m)) p).
  - unfold querySelectorAll_in.
    destruct (decide (getAttribute d p "data-type" = Some T ∧ c ≠ p))
      as [[HT Hne]|Hn].
    + rewrite decide_True; [done|]. apply list_elem_of_filter.
      split; [|done]. split; [|done]. split; [|done].
      by apply (closest_prefix d "data-paint-colors").
    + rewrite decide_False; [done|].
      intros [[[_ Hd] HT] _]%list_elem_of_filter. apply Hn. by split.
  - intros d' el Hs. eapply stable_trans; [exact Hs|].
    by apply paint_element_stable.
  - intros d' el Hs Hne. by apply paint_element_other.
  - intros d' Hs. cbn beta. rewrite paint_element_cell; try done.
    + f_equal. apply painted_value_ext.
      eapply Forall_impl; [exact Hok|]. intros g (Hmk & _).
      by apply stable_hasAttribute.
    + by rewrite (proj1 Hs).
    + by rewrite (stable_closest d d').
  - intros v. apply repaint_idem.
  - apply stable_refl.
Qed.

Lemma guards_of_ok (data : option StyleguideData) (th : PaintTheme)
  (T : string) : guards_ok (guards_of data th T).
Proof.
  unfold guards_of, guards_ok.
  repeat case_decide; repeat constructor; cbn; compute_done.
Qed.

Lemma paint_type_cell_from (d0 : list node) (c : list nat) (T : string)
  (guarded : list (string * string * string)) (link : option string)
  (d : list node) (p : list nat) (m : string) :
  stable d0 d →
  p ∈ elements d0 → guards_ok guarded → m ≠ "data-link-color" →
  closest d0 "data-paint-colors" p = Some c →
  getAttribute (paint_type c T guarded link d) p m
  = if decide (getAttribute d0 p "data-type" = Some T ∧ c ≠ p) then
      repaint (painted_value guarded (hasAttribute d0 p) m)
        (getAttribute d p m)
    else getAttribute d p m.
Proof.
  intros Hs Hel Hok Hm Hc. rewrite paint_type_cell; try done.
  - pose proof (proj2 Hs p "data-type" ltac:(compute_done)) as HT.
    rewrite (painted_value_ext guarded _ (hasAttribute d0 p)).
    + repeat case_decide; try done; exfalso; rewrite HT in *; tauto.
    + eapply Forall_impl; [exact Hok|]. intros g (Hmk & _).
      by apply stable_hasAttribute.
  - by rewrite (proj1 Hs).
  - by rewrite (stable_closest d0 d).
Qed.

Lemma paint_type_frame_from (d0 : list node) (c : list nat) (T : string)
  (guarded : list (string * string * string)) (link : option string)
  (d : list node) (p : list nat) (m : string) :
  stable d0 d → guards_ok guarded →
  closest d0 "data-paint-colors" p ≠ Some c →
  getAttribute (paint_type c T guarded link d) p m = getAttribute d p m.
Proof.
  intros Hs Hok Hc. apply paint_type_frame; [done|].
  by rewrite (stable_closest d0 d).
Qed.

Lemma paint_container_types (data : option StyleguideData) (th : PaintTheme)
  (d : list node) (c : list nat) :
  let link : option string :=
    if truthy (linkColorId th) then getColorHex data <$> linkColorId th
    else None in
  paint_container data th d c
  = (d |> paint_type c "Headline/V1" (guards_of data th "Headline/V1") link
       |> paint_type c "SubHeadline/V1" (guards_of data th "SubHeadline/V1")
            link
       |> paint_type c "Paragraph/V1" (guards_of data th "Paragraph/V1") link
       |> paint_type c "Icon/V1" (guards_of data th "Icon/V1") None
       |> paint_type c "BulletList/V1" (guards_of data th "BulletList/V1")
            link).
Proof. reflexivity. Qed.

Ltac stable_chain :=
  repeat first [ apply stable_refl
               | eapply stable_trans;
                 [|apply paint_type_stable, guards_of_ok] ].

Lemma paint_container_stable (data : option StyleguideData) (th : PaintTheme)
  (d : list node) (c : list nat) :
  stable d (paint_container data th d c).
Proof. rewrite paint_container_types. cbn zeta. stable_chain. Qed.

Lemma paint_container_frame (data : option StyleguideData) (th : PaintTheme)
  (d : list node) (c p : list nat) (m : string) :
  closest d "data-paint-colors" p ≠ Some c →
  getAttribute (paint_container data th d c) p m = getAttribute d p m.
Proof.
  intros Hc. rewrite paint_container_types. cbn zeta.
  repeat (rewrite (paint_type_frame_from d);
          [|stable_chain|apply guards_of_ok|done]).
  done.
Qed.


Lemma paint_container_kept (data : option StyleguideData) (th : PaintTheme)
  (d : list node) (c p : list nat) (m : string) :
  p ∈ elements d → m ≠ "data-link-color" →
  Forall (λ T, painted_value (guards_of data th T) (hasAttribute d p) m = None)
    painted_types →
  getAttribute (paint_container data th d c) p m = getAttribute d p m.
Proof.
  intros Hel Hm Hpv.
  destruct (decide (closest d "data-paint-colors" p = Some c)) as [Hc|Hc];
    [|by apply paint_container_frame].
  rewrite paint_container_types. cbn zeta.
  repeat (rewrite (paint_type_cell_from d);
          [|stable_chain|done|apply guards_of_ok|done|done]).
  unfold painted_types in Hpv.
  repeat (apply Forall_cons in Hpv as [-> Hpv]).
  cbn [repaint]. by repeat case_decide.
Qed.

Lemma paint_theme_stable (data : option StyleguideData) (d : list node)
  (th : PaintTheme) : stable d (paint_theme data d th).
Proof.
  unfold paint_theme. apply stable_foldl.
  intros d' c. apply paint_container_stable.
Qed.


Lemma paint_theme_kept (data : option StyleguideData) (d : list node)
  (th : PaintTheme) (p : list nat) (m : string) :
  p ∈ elements d → m ≠ "data-link-color" →
  Forall (λ T, painted_value (guards_of data th T) (hasAttribute d p) m = None)
    painted_types →
  getAttribute (paint_theme data d th) p m = getAttribute d p m.
Proof.
  intros Hel Hm Hpv. unfold paint_theme.
  apply (foldl_frame (stable d) _ (λ d, getAttribute d p m)).
  - intros d' c' Hs. eapply stable_trans; [exact Hs|].
    apply paint_container_stable.
  - intros d' c' Hs. cbn beta. apply paint_container_kept; try done.
    + by rewrite (proj1 Hs).
    + eapply Forall_impl; [exact Hpv|]. intros T HT. cbn beta in *.
      rewrite <- HT. apply painted_value_ext.
      eapply Forall_impl; [apply guards_of_ok|]. intros g (Hmk & _).
      by apply stable_hasAttribute.
  - apply stable_refl.
Qed.

Lemma paint_themes_stable (data : option StyleguideData)
  (themes : list PaintTheme) (d : list node) :
  stable d (foldl (paint_theme data) d themes).
Proof. apply stable_foldl. intros d' th. apply paint_theme_stable. Qed.

Lemma paint_themes_kept (data : option StyleguideData)
  (themes : list PaintTheme) (d : list node) (p : list nat) (m : string) :
  p ∈ elements d → m ≠ "data-link-color" →
  (∀ th, Forall (λ T, painted_value (guards_of data th T)
                        (hasAttribute d p) m = None) painted_types) →
  getAttribute (foldl (paint_theme data) d themes) p m = getAttribute d p m.
Proof.
  intros Hel Hm Hpv.
  apply (foldl_frame (stable d) _ (λ d, getAttribute d p m)).
  - intros d' th Hs. eapply stable_trans; [exact Hs|].
    apply paint_theme_stable.
  - intros d' th Hs. cbn beta. apply paint_theme_kept; try done.
    + by rewrite (proj1 Hs).
    + eapply Forall_impl; [exact (Hpv th)|]. intros T HT. cbn beta in *.
      rewrite <- HT. apply painted_value_ext.
      eapply Forall_impl; [apply guards_of_ok|]. intros g (Hmk & _).
      by apply stable_hasAttribute.
  - apply stable_refl.
Qed.


Lemma apply_font_stable (T : string) (font : option string) (d : list node) :
  stable d (apply_font T font d).
Proof.
  unfold apply_font. destruct (truthy font); [|apply stable_refl].
  apply stable_foldl. intros d' el. apply stable_setAttribute. compute_done.
Qed.

Lemma apply_font_frame (T : string) (font : option string) (d : list node)
  (p : list nat) (m : string) :
  m ≠ "data-font" →
  getAttribute (apply_font T font d) p m = getAttribute d p m.
Proof.
  intros Hm. unfold apply_font. destruct (truthy font); [|done].
  generalize (querySelectorAll d
                (λ p, attr_is d "data-type" T p
                      ∧ ¬ hasAttribute d p "data-font")).
  intros l. revert d. induction l as [|el l IH]; intros d; [done|].
  cbn [foldl]. rewrite IH.
  apply getAttribute_setAttribute_ne. right. congruence.
Qed.

Lemma fonts_stable (sd : StyleguideData) (d : list node) :
  stable d
    match typography sd with
    | Some t =>
        d |> apply_font "Headline/V1" (headlineFont t)
          |> apply_font "SubHeadline/V1" (subheadlineFont t)
          |> apply_font "Paragraph/V1" (contentFont t)
    | None => d
    end.
Proof.
  destruct (typography sd) as [t|]; [|apply stable_refl].
  repeat first [ apply stable_refl
               | eapply stable_trans; [|apply apply_font_stable] ].
Qed.

Lemma fonts_frame (sd : StyleguideData) (d : list node) (p : list nat)
  (m : string) :
  m ≠ "data-font" →
  getAttribute
    match typography sd with
    | Some t =>
        d |> apply_font "Headline/V1" (headlineFont t)
          |> apply_font "SubHeadline/V1" (subheadlineFont t)
          |> apply_font "Paragraph/V1" (contentFont t)
    | None => d
    end p m
  = getAttribute d p m.
Proof.
  intros Hm. destruct (typography sd) as [t|]; [|done].
  by rewrite !apply_font_frame.
Qed.

Lemma hasAttribute_element (d : list node) (p : list nat) (m : string) :
  hasAttribute d p m = true → p ∈ elements d.
Proof.
  unfold hasAttribute. intros [v Hv]%bool_decide_eq_true_1.
  by apply (getAttribute_element d p m v).
Qed.








Lemma cascade_stable (data : option StyleguideData) (d : list node) :
  stable d (applyFontDataAttributes data d).
Proof.
  destruct data as [sd|]; [|apply stable_refl].
  unfold applyFontDataAttributes.
  eapply stable_trans; [apply fonts_stable|apply paint_themes_stable].
Qed.

(** X1. The cascade adds and removes no element, and leaves every
    attribute other than [data-color], [data-link-color], [data-text-color],
    [data-icon-color] and [data-font] as it was, on every element. *)
Theorem cascade_writes_five_attributes (data : option StyleguideData)
  (d : list node) :
  elements (applyFontDataAttributes data d) = elements d
  ∧ ∀ p name, name ∉ painted →
      getAttribute (applyFontDataAttributes data d) p name
      = getAttribute d p name.
Proof. apply cascade_stable. Qed.

Lemma foldl_setAttribute (l : list (list nat)) (d : list node)
  (p : list nat) (n m v : string) :
  getAttribute (foldl (λ d el, setAttribute d el n v) d l) p m
  = if decide (p ∈ l ∧ n = m ∧ p ∈ elements d) then Some v
    else getAttribute d p m.
Proof.
  revert d. induction l as [|el l IH]; intros d.
  - cbn [foldl]. rewrite decide_False; [done|].
    by intros [?%elem_of_nil _].
  - cbn [foldl]. rewrite IH, elements_setAttribute.
    rewrite getAttribute_setAttribute.
    destruct (decide (el = p ∧ n = m)) as [[-> ->]|Hne].
    + destruct (decide (p ∈ elements d)) as [Hel|Hel].
      * destruct (proj1 (elem_of_elements d p) Hel) as [a Ha]. rewrite Ha.
        cbn [fmap option_fmap option_map].
        rewrite (decide_True (P := p ∈ p :: l ∧ m = m ∧ p ∈ elements d))
          by (split_and!; [apply list_elem_of_here|done..]).
        by destruct (decide _).
      * assert (get d p ≫= attrs_of = None) as Hn.
        { destruct (get d p ≫= attrs_of) eqn:E; [|done].
          exfalso. apply Hel, elem_of_elements. by rewrite E. }
        rewrite Hn. cbn [fmap option_fmap option_map].
        rewrite !decide_False by tauto. unfold getAttribute. by rewrite Hn.
    + destruct (decide (p ∈ l ∧ n = m ∧ p ∈ elements d)) as [(? & ? & ?)|H1].
      * rewrite decide_True; [done|]. split_and!; [|done..].
        by apply list_elem_of_further.
      * rewrite decide_False; [done|].
        intros ([->|?]%elem_of_cons & ? & ?); tauto.
Qed.

Lemma apply_font_typed (T0 : string) (font : option string) (d : list node)
  (p : list nat) (oT : option string) :
  getAttribute d p "data-type" = oT →
  getAttribute (apply_font T0 font d) p "data-font"
  = match getAttribute d p "data-font" with
    | Some f => Some f
    | None =>
        if decide (oT = Some T0) then (if truthy font then font else None)
        else None
    end.
Proof.
  intros HT. unfold apply_font. destruct (truthy font) eqn:Hfont.
  2:{ destruct (getAttribute d p "data-font"); [done|]. by case_decide. }
  rewrite foldl_setAttribute. unfold querySelectorAll.
  destruct (getAttribute d p "data-font") as [f|] eqn:Hf.
  - rewrite decide_False; [done|].
    intros ([[_ Hn] _]%list_elem_of_filter & _). apply Hn.
    unfold hasAttribute. rewrite Hf. by apply bool_decide_pack.
  - destruct (decide (oT = Some T0)) as [->|Hne].
    + rewrite decide_True.
      * destruct font as [s|]; [done|discriminate Hfont].
      * assert (p ∈ elements d)
          by by apply (getAttribute_element d p "data-type" T0).
        split_and!; [|done..]. apply list_elem_of_filter.
        split; [|done]. split; [done|].
        unfold hasAttribute. rewrite Hf.
        intros [? ?]%bool_decide_unpack. done.
    + rewrite decide_False; [done|].
      intros ([[Ha _] _]%list_elem_of_filter & _).
      unfold attr_is in Ha. congruence.
Qed.

Lemma apply_font_type (T : string) (font : option string) (d : list node)
  (p : list nat) :
  getAttribute (apply_font T font d) p "data-type"
  = getAttribute d p "data-type".
Proof. by apply apply_font_frame. Qed.

Lemma font_kept_by_paint (data : option StyleguideData)
  (themes : list PaintTheme) (d : list node) (p : list nat) :
  getAttribute (foldl (paint_theme data) d themes) p "data-font"
  = getAttribute d p "data-font".
Proof.
  destruct (decide (p ∈ elements d)) as [Hel|Hel].
  - apply paint_themes_kept; [done|done|].
    intros th. unfold painted_types. repeat constructor.
    all: unfold guards_of; repeat case_decide; try done.
    all: cbn [painted_value fst snd]; repeat case_bool_decide; try done.
    all: by rewrite ?andb_false_r.
  - pose proof (paint_themes_stable data themes d) as [He _].
    assert (∀ d', elements d' = elements d →
                  getAttribute d' p "data-font" = None) as Hnone.
    { intros d' Hd'. destruct (getAttribute d' p "data-font") eqn:E; [|done].
      exfalso. apply Hel. rewrite <- Hd'. by eapply getAttribute_element. }
    by rewrite !Hnone.
Qed.

Lemma fonts_cell (sd : StyleguideData) (d : list node) (p : list nat)
  (oT : option string) :
  getAttribute d p "data-type" = oT →
  getAttribute (applyFontDataAttributes (Some sd) d) p "data-font"
  = match getAttribute d p "data-font" with
    | Some f => Some f
    | None => oT ≫= typography_font sd
    end.
Proof.
  intros HT. unfold applyFontDataAttributes. rewrite !font_kept_by_paint.
  unfold typography_font.
  destruct (typography sd) as [t|].
  2:{ destruct (getAttribute d p "data-font"); [done|]. by destruct oT. }
  rewrite (apply_font_typed _ _ _ _ oT) by by rewrite !apply_font_type.
  rewrite (apply_font_typed _ _ _ _ oT) by by rewrite !apply_font_type.
  rewrite (apply_font_typed _ _ _ _ oT) by done.
  destruct (getAttribute d p "data-font") as [f|]; [done|].
  destruct oT as [T|]; cbn [mbind option_bind]; [|by repeat case_decide].
  destruct (headlineFont t), (subheadlineFont t), (contentFont t);
    repeat case_decide; simplify_eq; try done;
    by repeat match goal with
              | |- context [truthy ?x] => destruct (truthy x)
              end.
Qed.

(** X2. After the cascade, an element that had [data-font] keeps it. An
    element of type [T] without [data-font] receives the typography font of
    its type (headline, subheadline or content font) when that font is a
    non-empty string, and no [data-font] when it is not, when there is no
    typography, or for any other type; an element without [data-type] keeps
    [data-font] as it was. The paint themes never write [data-font]. *)
Theorem font_cascade (sd : StyleguideData) (d : list node) (p : list nat) :
  (∀ T, getAttribute d p "data-type" = Some T →
     getAttribute (applyFontDataAttributes (Some sd) d) p "data-font"
     = match getAttribute d p "data-font" with
       | Some f => Some f
       | None => typography_font sd T
       end)
  ∧ (getAttribute d p "data-type" = None →
     getAttribute (applyFontDataAttributes (Some sd) d) p "data-font"
     = getAttribute d p "data-font").
Proof.
  split.
  - intros T HT. by rewrite (fonts_cell sd d p (Some T)).
  - intros HT. rewrite (fonts_cell sd d p None) by done.
    by destruct (getAttribute d p "data-font").
Qed.

Lemma cascade_writes_witness :
  getAttribute
    (applyFontDataAttributes (Some sample_styleguide) rendered_sections)
    [0] "data-paint-colors"
  = getAttribute rendered_sections [0] "data-paint-colors".
Proof.
  apply (cascade_writes_five_attributes (Some sample_styleguide)
           rendered_sections). compute_done.
Defined.

Lemma font_cascade_witness :
  getAttribute
    (applyFontDataAttributes
       (Some {| colors := None; paintThemes := None;
                typography :=
                  Some {| baseSize := None; scaleRatio := None;
                          headlineFont := Some "Inter";
                          subheadlineFont := None; contentFont := None |};
                shadows := None; borders := None; corners := None;
                buttons := None |})
       [Elem 0 (Html "div") {[ "data-type" := "Headline/V1" ]} []])
    [0] "data-font"
  = Some "Inter".
Proof.
  rewrite (proj1 (font_cascade _ _ [0]) "Headline/V1"); by vm_compute.
Defined.

Lemma relink_idem (link old : option string) :
  relink link (relink link old) = relink link old.
Proof. unfold relink. by destruct (truthy link). Qed.

Lemma painted_value_link (guarded : list (string * string * string))
  (has : string → bool) :
  guards_ok guarded → painted_value guarded has "data-link-color" = None.
Proof.
  induction 1 as [|g gs (_ & _ & Hg) _ IH]; [done|].
  cbn [painted_value]. rewrite IH.
  rewrite (bool_decide_eq_false_2 (g.1.2 = "data-link-color")) by done.
  by rewrite andb_false_r.
Qed.

Lemma paint_element_link (c : list nat)
  (guarded : list (string * string * string)) (link : option string)
  (d : list node) (el : list nat) :
  el ∈ elements d → guards_ok guarded →
  closest d "data-paint-colors" el = Some c →
  getAttribute (paint_element c guarded link d el) el "data-link-color"
  = relink link (getAttribute d el "data-link-color").
Proof.
  intros Hel Hok Hc. unfold paint_element, isDirectPaintDescendant, relink.
  rewrite bool_decide_eq_true_2 by done. cbn zeta.
  destruct (truthy link).
  - apply getAttribute_setAttribute_eq.
    by rewrite (proj1 (guards_stable el guarded d Hok)).
  - rewrite guards_cell by done. by rewrite painted_value_link.
Qed.

Lemma paint_type_link (d0 : list node) (c : list nat) (T : string)
  (guarded : list (string * string * string)) (link : option string)
  (d : list node) (p : list nat) :
  stable d0 d → p ∈ elements d0 → guards_ok guarded →
  closest d0 "data-paint-colors" p = Some c →
  getAttribute (paint_type c T guarded link d) p "data-link-color"
  = if decide (getAttribute d0 p "data-type" = Some T ∧ c ≠ p) then
      relink link (getAttribute d p "data-link-color")
    else getAttribute d p "data-link-color".
Proof.
  intros Hs Hel Hok Hc. unfold paint_type.
  pose proof (proj2 Hs p "data-type" ltac:(compute_done)) as HT.
  rewrite (foldl_cell (stable d) _ (λ d, getAttribute d p "data-link-color")
             (relink link) p).
  - unfold querySelectorAll_in.
    destruct (decide (getAttribute d0 p "data-type" = Some T ∧ c ≠ p))
      as [[HT0 Hne]|Hn].
    + rewrite decide_True; [done|]. apply list_elem_of_filter.
      split; [|by rewrite (proj1 Hs)]. split; [|unfold attr_is; congruence].
      split; [|done]. by apply (closest_prefix d0 "data-paint-colors").
    + rewrite decide_False; [done|].
      intros [[[_ Hd] HT1] _]%list_elem_of_filter. apply Hn.
      unfold attr_is in HT1. split; [congruence|done].
  - intros d' el Hs'. eapply stable_trans; [exact Hs'|].
    by apply paint_element_stable.
  - intros d' el Hs' Hne. by apply paint_element_other.
  - intros d' Hs'. cbn beta. apply paint_element_link; [|done|].
    + by rewrite (proj1 Hs'), (proj1 Hs).
    + by rewrite (stable_closest d d'), (stable_closest d0 d).
  - intros v. apply relink_idem.
  - apply stable_refl.
Qed.



Lemma paint_container_link_frame (data : option StyleguideData)
  (th : PaintTheme) (d : list node) (c p : list nat) :
  closest d "data-paint-colors" p ≠ Some c →
  getAttribute (paint_container data th d c) p "data-link-color"
  = getAttribute d p "data-link-color".
Proof. apply paint_container_frame. Qed.





(** Every step of the cascade acts on an attribute of an element as
    [repaint V], for a value [V] that is the same for all documents that
    agree with [d0] on the elements and on the attributes the cascade does
    not write. *)
Lemma repaint_repaint (v w old : option string) :
  repaint v (repaint w old) = repaint (repaint v w) old.
Proof. by destruct v, w. Qed.

Lemma acts_id (d0 : list node) (cell : list node → option string) :
  ∃ V, ∀ d, stable d0 d → cell d = repaint V (cell d).
Proof. by exists None. Qed.

Lemma acts_compose (d0 : list node) (cell : list node → option string)
  (f g : list node → list node) :
  (∀ d, stable d0 d → stable d0 (f d)) →
  (∃ V, ∀ d, stable d0 d → cell (f d) = repaint V (cell d)) →
  (∃ V, ∀ d, stable d0 d → cell (g d) = repaint V (cell d)) →
  ∃ V, ∀ d, stable d0 d → cell (g (f d)) = repaint V (cell d).
Proof.
  intros Hf [Vf Hcf] [Vg Hcg]. exists (repaint Vg Vf). intros d Hs.
  by rewrite Hcg, Hcf, repaint_repaint by auto.
Qed.

Lemma acts_foldl {A} (d0 : list node) (cell : list node → option string)
  (f : list node → A → list node) (l : list A) :
  (∀ d x, x ∈ l → stable d (f d x)) →
  (∀ x, x ∈ l → ∃ V, ∀ d, stable d0 d → cell (f d x) = repaint V (cell d)) →
  ∃ V, ∀ d, stable d0 d → cell (foldl f d l) = repaint V (cell d).
Proof.
  intros Hst Hf. induction l as [|x l IH]; [apply acts_id|].
  cbn [foldl].
  apply (acts_compose d0 cell (λ d, f d x) (λ d, foldl f d l)).
  - intros d Hs. eapply stable_trans; [exact Hs|].
    apply Hst, list_elem_of_here.
  - apply Hf, list_elem_of_here.
  - apply IH.
    + intros d y Hy. by apply Hst, list_elem_of_further.
    + intros y Hy. by apply Hf, list_elem_of_further.
Qed.

Lemma acts_setAttribute (d0 : list node) (el p : list nat) (n m v : string) :
  ∃ V, ∀ d, stable d0 d →
    getAttribute (setAttribute d el n v) p m = repaint V (getAttribute d p m).
Proof.
  exists (if decide (el = p ∧ n = m ∧ p ∈ elements d0) then Some v else None).
  intros d [He _]. rewrite getAttribute_setAttribute.
  destruct (decide (el = p ∧ n = m)) as [[-> ->]|Hne].
  - destruct (decide (p ∈ elements d0)) as [Hel|Hel].
    + rewrite decide_True by done. rewrite <- He in Hel.
      by destruct (proj1 (elem_of_elements d p) Hel) as [a ->].
    + rewrite decide_False by tauto. cbn [repaint].
      assert (get d p ≫= attrs_of = None) as Hn.
      { destruct (get d p ≫= attrs_of) eqn:E; [|done].
        exfalso. apply Hel. rewrite <- He. apply elem_of_elements.
        by rewrite E. }
      unfold getAttribute. by rewrite Hn.
  - by rewrite decide_False by tauto.
Qed.

Lemma acts_guard_step (d0 : list node) (el p : list nat) (m : string)
  (g : string * string * string) :
  g.1.1 ∉ painted →
  ∃ V, ∀ d, stable d0 d →
    getAttribute (guard_step el d g) p m = repaint V (getAttribute d p m).
Proof.
  intros Hg. unfold guard_step.
  destruct (hasAttribute d0 el g.1.1) eqn:Hh.
  - exists None. intros d Hs. by rewrite (stable_hasAttribute d0 d), Hh.
  - destruct (acts_setAttribute d0 el p g.1.2 m g.2) as [V HV].
    exists V. intros d Hs. rewrite (stable_hasAttribute d0 d), Hh by done.
    by apply HV.
Qed.

Lemma acts_guards (d0 : list node) (el p : list nat) (m : string)
  (guarded : list (string * string * string)) :
  guards_ok guarded →
  ∃ V, ∀ d, stable d0 d →
    getAttribute (foldl (guard_step el) d guarded) p m
    = repaint V (getAttribute d p m).
Proof.
  intros Hok. unfold guards_ok in Hok. rewrite Forall_forall in Hok.
  apply (acts_foldl d0 (λ d, getAttribute d p m) (guard_step el) guarded).
  - intros d g Hg. apply guard_step_stable. by apply Hok.
  - intros g Hg. apply acts_guard_step. by apply Hok.
Qed.

Lemma acts_paint_element (d0 : list node) (c el p : list nat) (m : string)
  (guarded : list (string * string * string)) (link : option string) :
  guards_ok guarded →
  ∃ V, ∀ d, stable d0 d →
    getAttribute (paint_element c guarded link d el) p m
    = repaint V (getAttribute d p m).
Proof.
  intros Hok. unfold paint_element, isDirectPaintDescendant.
  destruct (decide (closest d0 "data-paint-colors" el = Some c)) as [Hc|Hc].
  2:{ exists None. intros d Hs.
      by rewrite bool_decide_eq_false_2
        by by rewrite (stable_closest d0 d). }
  destruct (truthy link).
  - destruct (acts_compose d0 (λ d, getAttribute d p m)
                (λ d, foldl (guard_step el) d guarded)
                (λ d, setAttribute d el "data-link-color" (default "" link)))
      as [V HV].
    + intros d Hs. eapply stable_trans; [exact Hs|by apply guards_stable].
    + by apply acts_guards.
    + apply acts_setAttribute.
    + exists V. intros d Hs.
      rewrite bool_decide_eq_true_2 by by rewrite (stable_closest d0 d).
      by apply HV.
  - destruct (acts_guards d0 el p m guarded Hok) as [V HV].
    exists V. intros d Hs.
    rewrite bool_decide_eq_true_2 by by rewrite (stable_closest d0 d).
    by apply HV.
Qed.

Lemma stable_types (d0 d : list node) (c : list nat) (T : string) :
  stable d0 d →
  querySelectorAll_in d c (attr_is d "data-type" T)
  = querySelectorAll_in d0 c (attr_is d0 "data-type" T).
Proof.
  intros [He Ha]. unfold querySelectorAll_in. rewrite He.
  apply list_filter_iff. intros q. unfold attr_is.
  by rewrite Ha by compute_done.
Qed.

Lemma stable_containers (d0 d : list node) (pid : string) :
  stable d0 d →
  querySelectorAll d (attr_is d "data-paint-colors" pid)
  = querySelectorAll d0 (attr_is d0 "data-paint-colors" pid).
Proof.
  intros [He Ha]. unfold querySelectorAll. rewrite He.
  apply list_filter_iff. intros q. unfold attr_is.
  by rewrite Ha by compute_done.
Qed.

Lemma acts_paint_type (d0 : list node) (c p : list nat) (T m : string)
  (guarded : list (string * string * string)) (link : option string) :
  guards_ok guarded →
  ∃ V, ∀ d, stable d0 d →
    getAttribute (paint_type c T guarded link d) p m
    = repaint V (getAttribute d p m).
Proof.
  intros Hok.
  destruct (acts_foldl d0 (λ d, getAttribute d p m)
              (paint_element c guarded link)
              (querySelectorAll_in d0 c (attr_is d0 "data-type" T)))
    as [V HV].
  - intros d el _. by apply paint_element_stable.
  - intros el _. by apply acts_paint_element.
  - exists V. intros d Hs. unfold paint_type.
    rewrite (stable_types d0 d) by done. by apply HV.
Qed.

Lemma acts_paint_container (data : option StyleguideData) (th : PaintTheme)
  (d0 : list node) (c p : list nat) (m : string) :
  ∃ V, ∀ d, stable d0 d →
    getAttribute (paint_container data th d c) p m
    = repaint V (getAttribute d p m).
Proof.
  pose proof (λ T, guards_of_ok data th T) as Hok.
  assert (∀ T link d, stable d0 d →
            stable d0 (paint_type c T (guards_of data th T) link d)) as Hst.
  { intros T link d Hs. eapply stable_trans; [exact Hs|].
    by apply paint_type_stable. }
  set (link := if truthy (linkColorId th)
               then getColorHex data <$> linkColorId th else None).
  destruct (acts_compose d0 (λ d, getAttribute d p m)
    (λ d, d |> paint_type c "Headline/V1" (guards_of data th "Headline/V1")
                 link
            |> paint_type c "SubHeadline/V1"
                 (guards_of data th "SubHeadline/V1") link
            |> paint_type c "Paragraph/V1" (guards_of data th "Paragraph/V1")
                 link
            |> paint_type c "Icon/V1" (guards_of data th "Icon/V1") None)
    (paint_type c "BulletList/V1" (guards_of data th "BulletList/V1") link))
    as [V HV].
  - intros d Hs. by repeat apply Hst.
  - apply (acts_compose d0 (λ d, getAttribute d p m)
      (λ d, d |> paint_type c "Headline/V1"
                   (guards_of data th "Headline/V1") link
              |> paint_type c "SubHeadline/V1"
                   (guards_of data th "SubHeadline/V1") link
              |> paint_type c "Paragraph/V1"
                   (guards_of data th "Paragraph/V1") link)
      (paint_type c "Icon/V1" (guards_of data th "Icon/V1") None)).
    + intros d Hs. by repeat apply Hst.
    + apply (acts_compose d0 (λ d, getAttribute d p m)
        (λ d, d |> paint_type c "Headline/V1"
                     (guards_of data th "Headline/V1") link
                |> paint_type c "SubHeadline/V1"
                     (guards_of data th "SubHeadline/V1") link)
        (paint_type c "Paragraph/V1" (guards_of data th "Paragraph/V1")
           link)).
      * intros d Hs. by repeat apply Hst.
      * apply (acts_compose d0 (λ d, getAttribute d p m)
          (paint_type c "Headline/V1" (guards_of data th "Headline/V1") link)
          (paint_type c "SubHeadline/V1"
             (guards_of data th "SubHeadline/V1") link)).
        -- intros d Hs. by apply Hst.
        -- by apply acts_paint_type.
        -- by apply acts_paint_type.
      * by apply acts_paint_type.
    + by apply acts_paint_type.
  - by apply acts_paint_type.
  - exists V. intros d Hs. rewrite paint_container_types. by apply HV.
Qed.

Lemma acts_paint_theme (data : option StyleguideData) (th : PaintTheme)
  (d0 : list node) (p : list nat) (m : string) :
  ∃ V, ∀ d, stable d0 d →
    getAttribute (paint_theme data d th) p m = repaint V (getAttribute d p m).
Proof.
  destruct (acts_foldl d0 (λ d, getAttribute d p m)
              (paint_container data th)
              (querySelectorAll d0
                 (attr_is d0 "data-paint-colors" (theme_id th))))
    as [V HV].
  - intros d c _. apply paint_container_stable.
  - intros c _. apply acts_paint_container.
  - exists V. intros d Hs. unfold paint_theme.
    rewrite (stable_containers d0 d) by done. by apply HV.
Qed.

Lemma acts_paint_themes (data : option StyleguideData)
  (themes : list PaintTheme) (d0 : list node) (p : list nat) (m : string) :
  ∃ V, ∀ d, stable d0 d →
    getAttribute (foldl (paint_theme data) d themes) p m
    = repaint V (getAttribute d p m).
Proof.
  apply (acts_foldl d0 (λ d, getAttribute d p m) (paint_theme data) themes).
  - intros d th _. apply paint_theme_stable.
  - intros th _. apply acts_paint_theme.
Qed.

Lemma cascade_acts (sd : StyleguideData) (d0 : list node) (p : list nat)
  (m : string) :
  m ≠ "data-font" →
  ∃ V, ∀ d, stable d0 d →
    getAttribute (applyFontDataAttributes (Some sd) d) p m
    = repaint V (getAttribute d p m).
Proof.
  intros Hm.
  destruct (acts_paint_themes (Some sd) (default [] (paintThemes sd)) d0 p m)
    as [V HV].
  exists V. intros d Hs. unfold applyFontDataAttributes. rewrite HV.
  - f_equal. by apply fonts_frame.
  - eapply stable_trans; [exact Hs|apply fonts_stable].
Qed.

Lemma cascade_twice_cell (data : option StyleguideData) (d : list node)
  (p : list nat) (m : string) :
  getAttribute
    (applyFontDataAttributes data (applyFontDataAttributes data d)) p m
  = getAttribute (applyFontDataAttributes data d) p m.
Proof.
  destruct data as [sd|]; [|done].
  destruct (decide (m = "data-font")) as [->|Hm].
  - rewrite (fonts_cell sd (applyFontDataAttributes (Some sd) d) p _ eq_refl).
    rewrite (proj2 (cascade_stable (Some sd) d) p "data-type")
      by compute_done.
    rewrite (fonts_cell sd d p _ eq_refl).
    destruct (getAttribute d p "data-font"); [done|].
    by destruct (getAttribute d p "data-type" ≫= typography_font sd).
  - destruct (cascade_acts sd d p m Hm) as [V HV].
    rewrite (HV (applyFontDataAttributes (Some sd) d))
      by apply cascade_stable.
    rewrite (HV d) by apply stable_refl. apply repaint_idem.
Qed.

Lemma skeleton_in_Elem (i : nat) (t : tag) (a : gmap string string)
  (kids : list node) :
  skeleton_in (Elem i t a kids) = Elem i t ∅ (skeleton kids).
Proof. cbn [skeleton_in]. f_equal. Qed.

Lemma skeleton_in_setAttribute (n : node) (p : list nat) (name v : string) :
  skeleton_in (setAttribute_in n p name v) = skeleton_in n.
Proof.
  revert p. induction n as [s|id t a kids IH] using node_forall_ind;
    intros p; [done|].
  destruct p as [|i p]; cbn [setAttribute_in]; rewrite !skeleton_in_Elem;
    [done|].
  f_equal. revert i.
  induction IH as [|c kids Hc _ IHk]; intros i; [done|].
  destruct i as [|i]; unfold skeleton in *; cbn [alter list_alter];
    rewrite !fmap_cons; [by rewrite Hc|by rewrite IHk].
Qed.

Lemma skeleton_setAttribute (d : list node) (p : list nat) (name v : string) :
  skeleton (setAttribute d p name v) = skeleton d.
Proof.
  destruct p as [|i p]; [done|]. unfold setAttribute, skeleton. revert i.
  induction d as [|c d IH]; intros i; [done|].
  destruct i as [|i]; cbn [alter list_alter]; rewrite !fmap_cons.
  - by rewrite skeleton_in_setAttribute.
  - by rewrite IH.
Qed.

Lemma skeleton_foldl {A} (f : list node → A → list node) (l : list A) :
  (∀ d x, skeleton (f d x) = skeleton d) →
  ∀ d, skeleton (foldl f d l) = skeleton d.
Proof.
  intros Hf. induction l as [|x l IH]; intros d; [done|].
  cbn [foldl]. by rewrite IH, Hf.
Qed.

Lemma skeleton_paint_type (c : list nat) (T : string)
  (guarded : list (string * string * string)) (link : option string)
  (d : list node) :
  skeleton (paint_type c T guarded link d) = skeleton d.
Proof.
  unfold paint_type. apply skeleton_foldl. clear d. intros d el.
  unfold paint_element. destruct (isDirectPaintDescendant d el c); [|done].
  cbn zeta.
  assert (skeleton (foldl (guard_step el) d guarded) = skeleton d) as Hg.
  { apply skeleton_foldl. intros d' g. unfold guard_step.
    destruct (hasAttribute d' el g.1.1); [done|].
    apply skeleton_setAttribute. }
  destruct (truthy link); [|done]. by rewrite skeleton_setAttribute.
Qed.

Lemma skeleton_cascade (data : option StyleguideData) (d : list node) :
  skeleton (applyFontDataAttributes data d) = skeleton d.
Proof.
  destruct data as [sd|]; [|done]. unfold applyFontDataAttributes.
  rewrite skeleton_foldl.
  - assert (∀ T font d', skeleton (apply_font T font d') = skeleton d')
      as Hf.
    { intros T font d'. unfold apply_font. destruct (truthy font); [|done].
      apply skeleton_foldl. intros d'' el. apply skeleton_setAttribute. }
    destruct (typography sd); [|done]. by rewrite !Hf.
  - intros d' th. unfold paint_theme. apply skeleton_foldl.
    intros d'' c. rewrite paint_container_types. cbn zeta.
    by rewrite !skeleton_paint_type.
Qed.

(** Two documents with the same skeleton and the same attributes at every
    path are equal. *)
Lemma node_ext (n n' : node) :
  skeleton_in n = skeleton_in n' →
  (∀ p, get_in n p ≫= attrs_of = get_in n' p ≫= attrs_of) →
  n = n'.
Proof.
  revert n'. induction n as [s|id t a kids IH] using node_forall_ind;
    intros [s'|id' t' a' kids']; try done.
  rewrite !skeleton_in_Elem. intros [= -> -> Hk] Hp.
  pose proof (Hp []) as Ha. cbn in Ha. injection Ha as ->. f_equal.
  assert (∀ i p, (kids !! i ≫= λ c, get_in c p) ≫= attrs_of
                 = (kids' !! i ≫= λ c, get_in c p) ≫= attrs_of) as Hq.
  { intros i p. apply (Hp (i :: p)). }
  clear Hp. revert kids' Hk Hq.
  induction IH as [|c kids Hc _ IHk]; intros [|c' kids'] Hk Hq; try done.
  unfold skeleton in Hk. rewrite !fmap_cons in Hk. injection Hk as Hc' Hk.
  f_equal.
  - apply Hc; [done|]. intros p. apply (Hq 0%nat p).
  - apply IHk; [done|]. intros i p. apply (Hq (S i) p).
Qed.

Lemma doc_ext (d d' : list node) :
  skeleton d = skeleton d' →
  (∀ p, get d p ≫= attrs_of = get d' p ≫= attrs_of) →
  d = d'.
Proof.
  revert d'. induction d as [|c d IH]; intros [|c' d'] Hk Hq; try done.
  unfold skeleton in Hk. rewrite !fmap_cons in Hk. injection Hk as Hc Hk.
  f_equal.
  - apply node_ext; [done|]. intros p. apply (Hq (0%nat :: p)).
  - apply IH; [done|]. intros [|i p]; [done|]. apply (Hq (S i :: p)).
Qed.

Lemma cascade_fixed (data : option StyleguideData) (d : list node) :
  applyFontDataAttributes data (applyFontDataAttributes data d)
  = applyFontDataAttributes data d.
Proof.
  apply doc_ext; [by rewrite !skeleton_cascade|]. intros p.
  pose proof (cascade_twice_cell data d p) as Hcell.
  pose proof (proj1 (cascade_stable data (applyFontDataAttributes data d)))
    as He.
  pose proof (elem_of_elements (applyFontDataAttributes data d) p) as H1.
  pose proof (elem_of_elements
                (applyFontDataAttributes data
                   (applyFontDataAttributes data d)) p) as H2.
  rewrite He in H2. unfold getAttribute in Hcell.
  destruct (get (applyFontDataAttributes data d) p ≫= attrs_of) as [a|];
    destruct (get (applyFontDataAttributes data
                     (applyFontDataAttributes data d)) p ≫= attrs_of)
      as [a'|]; try done.
  - f_equal. apply map_eq. intros m. apply Hcell.
  - exfalso. by apply (is_Some_None (A := gmap string string)), H2, H1.
  - exfalso. by apply (is_Some_None (A := gmap string string)), H1, H2.
Qed.

(** X13. The cascade is idempotent: applied to its own result it returns
    that result, the same document with the same attributes on every
    element. *)
Theorem cascade_idempotent (data : option StyleguideData) (d : list node) :
  applyFontDataAttributes data (applyFontDataAttributes data d)
  = applyFontDataAttributes data d.
Proof. apply cascade_fixed. Qed.



Lemma paint_container_self (data : option StyleguideData) (th : PaintTheme)
  (d : list node) (p : list nat) (m : string) :
  closest d "data-paint-colors" p = Some p →
  getAttribute (paint_container data th d p) p m = getAttribute d p m.
Proof.
  intros Hc.
  assert (p ∈ elements d) as Hel.
  { apply closest_prefix in Hc as [_ Hh].
    by apply (hasAttribute_element d p "data-paint-colors"). }
  rewrite paint_container_types. cbn zeta.
  destruct (decide (m = "data-link-color")) as [->|Hm].
  - repeat (rewrite (paint_type_link d);
            [|stable_chain|done|apply guards_of_ok|done]).
    by repeat (rewrite decide_False by (by intros [_ []])).
  - repeat (rewrite (paint_type_cell_from d);
            [|stable_chain|done|apply guards_of_ok|done|done]).
    by repeat (rewrite decide_False by (by intros [_ []])).
Qed.

(** X14. An element that has no ancestor-or-self with [data-paint-colors],
    or that carries [data-paint-colors] itself, keeps its colour attributes
    through the cascade: no theme of an enclosing container reaches it. Only
    [data-font] can change on it. *)
Theorem cascade_outside_containers (data : option StyleguideData)
  (d : list node) (p : list nat) (m : string) :
  m ≠ "data-font" →
  (∀ c, closest d "data-paint-colors" p = Some c → c = p) →
  getAttribute (applyFontDataAttributes data d) p m = getAttribute d p m.
Proof.
  intros Hm Hc. destruct data as [sd|]; [|done].
  unfold applyFontDataAttributes.
  rewrite <- (fonts_frame sd d p m Hm).
  pose proof (fonts_stable sd d) as Hs. revert Hs.
  generalize (match typography sd with
              | Some t =>
                  d |> apply_font "Headline/V1" (headlineFont t)
                    |> apply_font "SubHeadline/V1" (subheadlineFont t)
                    |> apply_font "Paragraph/V1" (contentFont t)
              | None => d
              end).
  intros d1 Hs.
  apply (foldl_frame (stable d) _ (λ d, getAttribute d p m)); [| |done].
  - intros d' th Hs'. eapply stable_trans; [exact Hs'|].
    apply paint_theme_stable.
  - intros d' th Hs'. cbn beta. unfold paint_theme.
    apply (foldl_frame (stable d) _ (λ d, getAttribute d p m)); [| |done].
    + intros d'' c Hs''. eapply stable_trans; [exact Hs''|].
      apply paint_container_stable.
    + intros d'' c Hs''. cbn beta.
      destruct (decide (closest d'' "data-paint-colors" p = Some c))
        as [Hcc|Hcc]; [|by apply paint_container_frame].
      assert (c = p) as -> by (apply Hc; by rewrite <- (stable_closest d d'')).
      by apply paint_container_self.
Qed.

Lemma cascade_outside_witness :
  getAttribute
    (applyFontDataAttributes (Some sample_styleguide) rendered_sections)
    [0] "data-color"
  = getAttribute rendered_sections [0] "data-color".
Proof.
  apply (cascade_outside_containers (Some sample_styleguide)
           rendered_sections [0] "data-color"); [done|].
  intros c. vm_compute. by intros [= <-].
Defined.

End PaintCascade.

(** ** The order of the passes *)

Section Ordering.
Import Util Styleguide Assembler Dom Cascade Scheduler Pipeline.

(** C5 does not hold of the handler: [styleguideManager.init()] runs the
    cascade from [injectCSS], before [initFunnelWind()] renders anything.
    On a painted section with one headline, with a styleguide that parses,
    the cascade sees the unrendered [cf-headline] (no [data-type], no
    [data-paint-colors]) and leaves the document as it is; the rendering
    pass then produces a headline inside a dark section without
    [data-color]. Run after the rendering pass, the cascade would have given
    it the headline colour of the theme. *)
Theorem cascade_precedes_rendering :
  ∃ m s',
    auto_init (λ _, Returns sample_styleguide) (λ _, Throws "SyntaxError")
      (λ _, None) bare (Some "{}") None painted_section
    = Returns (m, s')
    ∧ data m = Some sample_styleguide
    ∧ ids_of_kind cf_headline (doc painted_section) = [1]
    ∧ init (λ _, Returns sample_styleguide) new_StyleguideManager None
        (Some "{}") (doc painted_section)
      = Returns (m, doc painted_section)
    ∧ getAttribute (doc s') [0; 0] "data-type" = Some "Headline/V1"
    ∧ closest (doc s') "data-paint-colors" [0; 0] = Some [0]
    ∧ getAttribute (doc s') [0] "data-paint-colors" = Some "dark"
    ∧ getAttribute (doc s') [0; 0] "data-color" = None
    ∧ getAttribute (applyFontDataAttributes (data m) (doc s')) [0; 0]
        "data-color" = Some "#ffffff".
Proof.
  exists {| data := Some sample_styleguide; styleElement := true |},
    (initFunnelWind
       (renderers (Some sample_styleguide) None (λ _, None) bare)
       painted_section).
  repeat split; vm_compute; reflexivity.
Qed.

End Ordering.

(** ** The rendering scheduler *)

Section Forest.
Import Dom Scheduler.

Lemma forest_ind (P : list node → Prop) :
  P [] →
  (∀ s l, P l → P (Text s :: l)) →
  (∀ j t a kids l, P kids → P l → P (Elem j t a kids :: l)) →
  ∀ l, P l.
Proof.
  intros Hnil HT HE.
  assert (∀ n l, P l → P (n :: l)) as Hcons.
  { induction n as [s|j t a kids IH] using node_forall_ind; intros l Hl.
    - by apply HT.
    - apply HE; [|done]. induction IH as [|c kids Hc _ IHk]; [done|].
      by apply Hc. }
  induction l as [|n l IH]; [done|]. by apply Hcons.
Qed.


Lemma ids_of_kind_Elem k j t a kids l :
  ids_of_kind k (Elem j t a kids :: l)
  = (if decide (t = Cf k) then [j] else []) ++ ids_of_kind k kids
    ++ ids_of_kind k l.
Proof.
  cbn [ids_of_kind ids_of_kind_in]. rewrite <- app_assoc. do 2 f_equal.
  induction kids as [|c kids IH]; [done|]. cbn [ids_of_kind]. by rewrite IH.
Qed.










Lemma ids_of_kind_Elem_nil k j t a kids l :
  ids_of_kind k (Elem j t a kids :: l) = [] →
  t ≠ Cf k ∧ ids_of_kind k kids = [] ∧ ids_of_kind k l = [].
Proof.
  rewrite ids_of_kind_Elem. intros [H1 [H2 H3]%app_eq_nil]%app_eq_nil.
  split; [|done]. intros ->. by rewrite decide_True in H1.
Qed.



















End Forest.

Section Pass.
Import Util Assembler Dom Scheduler Pipeline.

Variable render : TagKind → gmap string string → Resolved.

Lemma visit_cases (k : TagKind) (s : state) (i : nat) :
  (visit render k s i = s)
  ∨ (registered k = true ∧ (i ∉ flagged s)
     ∧ ∃ e, ev_id e = i ∧ ev_kind e = k
            ∧ trace (visit render k s i) = trace s ++ [e]
            ∧ flagged (visit render k s i) = i :: flagged s).
Proof.
  unfold visit. destruct (registered k); [|by left].
  case_bool_decide as Hi; [|by left]. right. cbn [andb].
  split; [done|]. split; [done|]. unfold render_element.
  destruct (find_by_id i (doc s)) as [[?|? ? a kids]|];
    (eexists {| ev_id := i; ev_kind := k |}; cbn; by repeat split).
Qed.














Lemma content_ids (k : TagKind) (kids : list node) (j : nat) :
  j ∈ ids (if keeps_content k then kids else []) → j ∈ ids kids.
Proof. destruct (keeps_content k); [done|]. by intros ?%elem_of_nil. Qed.


















End Pass.

Section PassExamples.
Import Util Styleguide Assembler Dom Scheduler Pipeline.




End PassExamples.

(** ** The whole pass *)

Section Phases.
Import Util Styleguide Assembler Dom Scheduler Pipeline.

Variable render : TagKind → gmap string string → Resolved.



Lemma unregistered_turn (k : TagKind) (l : list nat) (s : state) :
  registered k = false → foldl (visit render k) s l = s.
Proof.
  intros Hk. induction l as [|i l IH]; [done|].
  cbn [foldl]. unfold visit at 2. by rewrite Hk.
Qed.


Lemma resolved_pass (ks : list TagKind) (s : state) :
  resolved_tags (doc s) → foldl (process_kind render) s ks = s.
Proof.
  intros Hres. induction ks as [|k ks IH]; [done|].
  cbn [foldl]. assert (process_kind render s k = s) as ->; [|done].
  unfold process_kind. destruct (registered k) eqn:Hk.
  - by rewrite (Hres k Hk).
  - by apply unregistered_turn.
Qed.

End Phases.

Section Pages.
Import Util Styleguide Assembler Dom Scheduler Pipeline.

Lemma mark_pages_in_Elem (j : nat) (t : tag) (a : gmap string string)
  (kids : list node) :
  mark_pages_in (Elem j t a kids)
  = Elem j t
      (if decide (t = Cf cf_page) then <["data-rendered" := "true"]> a else a)
      (mark_pages_in <$> kids).
Proof.
  cbn [mark_pages_in]. f_equal.
Qed.

(** Marking the pages of a document without [cf-page] changes nothing. *)
Lemma mark_pages_resolved (d : list node) :
  ids_of_kind cf_page d = [] → mark_pages_in <$> d = d.
Proof.
  induction d as [|s l IH|j t a kids l IHk IHl] using forest_ind; [done| |].
  - intros Hl. rewrite fmap_cons. cbn [mark_pages_in]. f_equal. by apply IH.
  - intros (Ht & Hk & Hl)%ids_of_kind_Elem_nil.
    rewrite fmap_cons, mark_pages_in_Elem, decide_False by done.
    by rewrite IHk, IHl.
Qed.


End Pages.

Section WholePass.
Import Util Styleguide Assembler Dom Scheduler Pipeline.

Variable render : TagKind → gmap string string → Resolved.

(** The state [initFunnelWind] returns, field by field. *)
Lemma initFunnelWind_eq (s : state) :
  initFunnelWind render s
  = {| doc := mark_pages_in <$> doc (render_pass render s);
       next := next (render_pass render s);
       flagged := flagged (render_pass render s);
       trace := trace (render_pass render s) |}.
Proof. reflexivity. Qed.

Lemma initFunnelWind_trace (s : state) :
  trace (initFunnelWind render s) = trace (render_pass render s).
Proof.
  rewrite initFunnelWind_eq. generalize (render_pass render s).
  by intros [d n f t].
Qed.


Lemma initFunnelWind_resolved (s : state) :
  resolved_tags (doc s) → initFunnelWind render s = s.
Proof.
  intros Hres. unfold initFunnelWind, render_pass.
  rewrite (resolved_pass render tagOrder s Hres).
  rewrite mark_pages_resolved by by apply Hres. by destruct s.
Qed.

(** X5. On a document in which no registered tag is left, [initFunnelWind]
    changes nothing: no render call, no flag, no attribute. *)
Theorem pass_on_resolved_document (s : state) :
  (∀ k, registered k = true → ids_of_kind k (doc s) = []) →
  initFunnelWind render s = s.
Proof. apply initFunnelWind_resolved. Qed.



End WholePass.

Section WholePassExamples.
Import Util Styleguide Assembler Dom Scheduler Pipeline.


Lemma pass_on_resolved_witness :
  initFunnelWind bare
    {| doc := [Elem 0 (Html "div") ∅ [Text "x"]]; next := 1; flagged := [];
       trace := [] |}
  = {| doc := [Elem 0 (Html "div") ∅ [Text "x"]]; next := 1; flagged := [];
       trace := [] |}.
Proof.
  apply (pass_on_resolved_document bare).
  intros k _. by destruct k.
Defined.


End WholePassExamples.

Section Registered.
Import Util Styleguide Assembler Dom Scheduler Pipeline.

Variable render : TagKind → gmap string string → Resolved.

Lemma turn_registered (k : TagKind) (l : list nat) (s : state) :
  ∃ evs, trace (foldl (visit render k) s l) = trace s ++ evs
         ∧ Forall (λ e, registered (ev_kind e) = true) evs.
Proof.
  revert s. induction l as [|i l IH]; intros s.
  - exists []. by rewrite app_nil_r.
  - cbn [foldl]. destruct (IH (visit render k s i)) as (evs & Htr & Hev).
    destruct (visit_cases render k s i)
      as [Hs|(Hk & _ & e & _ & He & Ht & _)].
    { rewrite Hs in *. by exists evs. }
    exists (e :: evs). rewrite Htr, Ht, <- app_assoc. split; [done|].
    constructor; [by rewrite He|done].
Qed.

Lemma kinds_registered (ks : list TagKind) (s : state) :
  ∃ evs, trace (foldl (process_kind render) s ks) = trace s ++ evs
         ∧ Forall (λ e, registered (ev_kind e) = true) evs.
Proof.
  revert s. induction ks as [|k ks IH]; intros s.
  - exists []. by rewrite app_nil_r.
  - cbn [foldl]. destruct (IH (process_kind render s k)) as (evs2 & Ht2 & H2).
    destruct (turn_registered k (ids_of_kind k (doc s)) s)
      as (evs1 & Ht1 & H1).
    change (foldl (visit render k) s (ids_of_kind k (doc s)))
      with (process_kind render s k) in Ht1.
    exists (evs1 ++ evs2). rewrite Ht2, Ht1, <- app_assoc. split; [done|]. by apply Forall_app.
Qed.

(** X6. Whatever the document, [initFunnelWind] renders no [cf-col-inner]:
    the tag is in the processing order but has no renderer. *)
Theorem col_inner_never_rendered (s : state) :
  ∃ evs, trace (initFunnelWind render s) = trace s ++ evs
         ∧ Forall (λ e, ev_kind e ≠ cf_col_inner) evs.
Proof.
  destruct (kinds_registered tagOrder s) as (evs & Ht & Hev).
  exists evs. split.
  { rewrite initFunnelWind_trace. unfold render_pass. exact Ht. }
  eapply Forall_impl; [exact Hev|].
  intros e He. unfold registered in He. by case_bool_decide.
Qed.

End Registered.

(** ** Font loading *)

Section FontLoading.
Import GoogleFonts.

Lemma elem_of_set_add (l : list string) (s : list string) (x : string) :
  x ∈ foldl set_add s l ↔ x ∈ s ∨ x ∈ l.
Proof.
  revert s. induction l as [|y l IH]; intros s; cbn [foldl].
  - rewrite elem_of_nil. tauto.
  - rewrite IH, elem_of_cons. unfold set_add. case_decide as Hy.
    + split; [tauto|]. intros [?|[->|?]]; tauto.
    + rewrite elem_of_app, list_elem_of_singleton. tauto.
Qed.

Lemma injected_loaded (fonts : list string) (st : FontState) (f : string) :
  f ∈ loadedFonts (injectGoogleFonts fonts st)
  ↔ f ∈ loadedFonts st ∨ f ∈ fonts.
Proof.
  unfold injectGoogleFonts. case_decide as He.
  { subst fonts. rewrite elem_of_nil. tauto. }
  assert (f ∈ new_fonts fonts st ↔ f ∈ fonts ∧ f ∉ loadedFonts st) as Hn.
  { unfold new_fonts. rewrite list_elem_of_filter. tauto. }
  destruct (new_fonts fonts st) as [|first rest] eqn:Hnew.
  - rewrite elem_of_nil in Hn.
    destruct (decide (f ∈ loadedFonts st)); tauto.
  - assert (f ∈ foldl set_add (loadedFonts st) (first :: rest)
            ↔ f ∈ loadedFonts st ∨ f ∈ fonts) as Hl.
    { rewrite elem_of_set_add, Hn.
      destruct (decide (f ∈ loadedFonts st)); tauto. }
    cbn zeta. by destruct (existsb _ _).
Qed.

Lemma new_fonts_nil (fonts : list string) (st : FontState) :
  (∀ f, f ∈ fonts → f ∈ loadedFonts st) → new_fonts fonts st = [].
Proof.
  intros Hall. unfold new_fonts. induction fonts as [|f fonts IH]; [done|].
  rewrite filter_cons. rewrite decide_False.
  - apply IH. intros g Hg. by apply Hall, list_elem_of_further.
  - intros Hn. apply Hn, Hall, list_elem_of_here.
Qed.

(** X16. Calling [injectGoogleFonts] again with the same fonts changes
    nothing: no font is marked, no link is added. *)
Theorem injectGoogleFonts_idempotent (fonts : list string) (st : FontState) :
  injectGoogleFonts fonts (injectGoogleFonts fonts st)
  = injectGoogleFonts fonts st.
Proof.
  unfold injectGoogleFonts at 1. case_decide; [done|].
  rewrite new_fonts_nil; [done|].
  intros f Hf. apply injected_loaded. by right.
Qed.

(** X17. After a call of [injectGoogleFonts], every font passed to it is
    marked as loaded, whether or not a link was added for it; a later call
    adds at most one link, and that link requests only fonts of the later
    call that were neither passed to the earlier call nor loaded before
    it. *)
Theorem fonts_requested_once (fonts fonts' : list string) (st : FontState) :
  let st1 := injectGoogleFonts fonts st in
  (∀ f, f ∈ fonts → f ∈ loadedFonts st1)
  ∧ (links (injectGoogleFonts fonts' st1) = links st1
     ∨ ∃ l, links (injectGoogleFonts fonts' st1) = links st1 ++ [font_url l]
            ∧ l ≠ []
            ∧ ∀ g, g ∈ l → g ∈ fonts' ∧ (g ∉ fonts) ∧ (g ∉ loadedFonts st)).
Proof.
  intros st1. split.
  { intros f Hf. apply injected_loaded. by right. }
  unfold injectGoogleFonts at 1 2. case_decide; [by left|].
  destruct (new_fonts fonts' st1) as [|first rest] eqn:Hnew; [by left|].
  cbn zeta. destruct (existsb _ _); [by left|]. right.
  exists (first :: rest). split; [done|]. split; [done|].
  intros g Hg. rewrite <- Hnew in Hg. unfold new_fonts in Hg.
  apply list_elem_of_filter in Hg as [Hg ?]. split; [done|].
  unfold st1 in Hg. rewrite injected_loaded in Hg. tauto.
Qed.

(** A font can be marked as loaded without ever being requested: with a
    link for [Inter] in the document, [Open Sans] is marked but no link is
    added, and a later call for it adds none either. *)
Lemma font_never_requested :
  let st := {| loadedFonts := [];
               links := ["https://fonts.googleapis.com/css2?family=Inter"] |} in
  let st1 := injectGoogleFonts ["Inter"; "Open Sans"] st in
  links st1 = links st
  ∧ "Open Sans" ∈ loadedFonts st1
  ∧ injectGoogleFonts ["Open Sans"] st1 = st1.
Proof. split_and!; [done|compute_done|done]. Qed.

Lemma fonts_requested_witness :
  "Inter" ∈ loadedFonts
              (injectGoogleFonts ["Inter"]
                 {| loadedFonts := []; links := [] |}).
Proof.
  apply (proj1 (fonts_requested_once ["Inter"] []
                  {| loadedFonts := []; links := [] |})).
  apply list_elem_of_here.
Defined.

End FontLoading.
